(** * uxplain: component index, search engine and visual-code correlator

    A shallow embedding of the index search engine
    ([IndexSearchEngine]), of the persistence of the project index
    ([ProjectIndexer.saveIndex] / [ProjectIndexer.loadIndex]) and of the
    matching and issue detection of [VisualCodeCorrelator], followed by
    the properties of the specification that concern them.  The file
    also covers the other queries of the search engine, the snippet and
    the summary of the correlator, and the names, ids, routes and tags
    that [ProjectIndexer] derives from files, with the properties that
    the code itself shows.

    Conventions of the embedding.
    - A JavaScript string is a [string] of ASCII characters;
      [toLowerCase] maps the letters A-Z to a-z and leaves every other
      character alone.
    - Integral JavaScript numbers (scores, lengths, pixel bounds, epoch
      milliseconds) are [Z]; the fractional ones (confidence, similarity)
      are exact rationals [Q].  The numbers that the index holds and
      the index file stores are [JsNumber.t]: a finite number, the
      negative zero, [NaN] or an infinity.
    - An optional property ([text?: string]) is an [option]; [None] is
      [undefined].
    - Arrays are lists.  Where the code shares an array between two
      owners (the usage graph) the arrays live in an explicit heap.
    - The index file is the JSON document that its text denotes:
      [JSON.stringify] maps a value to a document, [JSON.parse] a
      document to a value. *)

From Stdlib Require Import ZArith QArith Qminmax Lqa String Ascii List Lia Bool.
From Stdlib Require Import DecimalString Permutation Sorted.
From stdpp Require Import gmap strings list fin_maps.

Import ListNotations.
Local Open Scope string_scope.
Local Open Scope Z_scope.
Local Open Scope list_scope.

(** ** JavaScript strings *)

Module JsString.

Definition lower_ascii (c : ascii) : ascii :=
  let n := nat_of_ascii c in
  if ((65 <=? n)%nat && (n <=? 90)%nat)%bool then ascii_of_nat (n + 32) else c.

(** [s.toLowerCase()] *)
Fixpoint toLowerCase (s : string) : string :=
  match s with
  | EmptyString => EmptyString
  | String c s' => String (lower_ascii c) (toLowerCase s')
  end.

(** [s.length] *)
Definition length (s : string) : Z := Z.of_nat (String.length s).

(** [s.indexOf(sub)]: the first position of [sub] in [s], or -1 *)
Definition indexOf (s sub : string) : Z :=
  match String.index 0 sub s with
  | Some i => Z.of_nat i
  | None => -1
  end.

(** [s.includes(sub)] *)
Definition includes (s sub : string) : bool :=
  match String.index 0 sub s with
  | Some _ => true
  | None => false
  end.

(** [s.substring(start, end)]: both ends are clamped to the string and
    swapped when they come in the wrong order. *)
Definition substring (s : string) (start end_ : Z) : string :=
  let clamp x := Z.min (Z.max 0 x) (length s) in
  let a := Z.min (clamp start) (clamp end_) in
  let b := Z.max (clamp start) (clamp end_) in
  String.substring (Z.to_nat a) (Z.to_nat (b - a)) s.

(** a string in a condition: the empty string is falsy *)
Definition truthy (s : string) : bool :=
  match s with EmptyString => false | _ => true end.

(** [s.split(sep)] for a one-character separator *)
Fixpoint split_aux (sep : ascii) (cur : string) (s : string) : list string :=
  match s with
  | EmptyString => [cur]
  | String c s' =>
      if Ascii.eqb c sep then cur :: split_aux sep EmptyString s'
      else split_aux sep (cur +:+ String c EmptyString) s'
  end.

Definition split (s : string) (sep : ascii) : list string :=
  split_aux sep EmptyString s.

(** [parts.join(sep)] *)
Fixpoint join (parts : list string) (sep : string) : string :=
  match parts with
  | [] => EmptyString
  | [p] => p
  | p :: rest => p +:+ sep +:+ join rest sep
  end.

Definition is_space (c : ascii) : bool :=
  let n := nat_of_ascii c in
  ((n =? 32)%nat || ((9 <=? n)%nat && (n <=? 13)%nat))%bool.

Fixpoint trimStart (s : string) : string :=
  match s with
  | String c s' => if is_space c then trimStart s' else s
  | EmptyString => EmptyString
  end.

Fixpoint trimEnd (s : string) : string :=
  match s with
  | EmptyString => EmptyString
  | String c s' =>
      match trimEnd s' with
      | EmptyString => if is_space c then EmptyString else String c EmptyString
      | t => String c t
      end
  end.

(** [s.trim()] *)
Definition trim (s : string) : string := trimEnd (trimStart s).

(** [String(n)] for an integral number *)
Definition ofNumber (n : Z) : string := NilZero.string_of_int (Z.to_int n).

(** a string of ASCII characters: every code unit is below 128 *)
Definition isAscii (s : string) : bool :=
  forallb (fun c => (nat_of_ascii c <? 128)%nat) (list_ascii_of_string s).

(** [s.endsWith(suffix)] *)
Definition endsWith (s suffix : string) : bool :=
  let n := String.length s in
  let k := String.length suffix in
  ((k <=? n)%nat && String.eqb (String.substring (n - k) k s) suffix)%bool.

(** [/[A-Z]/], [/\w/] on one character *)
Definition is_upper (c : ascii) : bool :=
  let n := nat_of_ascii c in ((65 <=? n)%nat && (n <=? 90)%nat)%bool.

Definition is_word (c : ascii) : bool :=
  let n := nat_of_ascii c in
  (((65 <=? n)%nat && (n <=? 90)%nat) || ((97 <=? n)%nat && (n <=? 122)%nat)
   || ((48 <=? n)%nat && (n <=? 57)%nat) || (n =? 95)%nat)%bool.
End JsString.

(** [array.includes(x)] on an array of strings *)
Definition Array_includes (l : list string) (x : string) : bool :=
  existsb (String.eqb x) l.

(** ** JavaScript numbers *)

(** A number as [JSON.stringify] tells numbers apart: a finite number,
    held as an exact rational, the negative zero, or one of [NaN],
    [Infinity] and [-Infinity]. *)
Module JsNumber.
Inductive t := Finite (q : Q) | NegativeZero | NaN | Infinity | NegativeInfinity.

(** an integral number *)
Definition ofZ (n : Z) : t := Finite (inject_Z n).
End JsNumber.

(** ** The data model (src/tools/project-indexer) *)

(** A [Date] is the object [new Date(t)] of an integer [t], a number of
    milliseconds since the epoch: [t] is its time value when its
    magnitude is at most 8.64e15, and the date is invalid (its time
    value is [NaN]) for every other [t]. *)
Definition Date := Z.

(** the bounds of a visual element, in whole pixels *)
Module BoundingBox.
Record t := mk { x : Z; y : Z; width : Z; height : Z }.
End BoundingBox.

Module PropDefinition.
Record t := mk
  { name : string;
    type : string;
    required : bool;
    defaultValue : option string;
    description : option string }.
End PropDefinition.

Module Screenshots.
Record t := mk
  { desktop : option string; tablet : option string; mobile : option string }.
Definition empty : t := mk None None None.
End Screenshots.

Module Bounds.
(** the interface [BoundingBox] of the index: its fields are numbers of
    any kind *)
Module BoundingBox.
Record t := mk
  { x : JsNumber.t; y : JsNumber.t; width : JsNumber.t; height : JsNumber.t }.
End BoundingBox.

Record t := mk
  { desktop : option BoundingBox.t;
    tablet : option BoundingBox.t;
    mobile : option BoundingBox.t }.
Definition empty : t := mk None None None.
End Bounds.

Module Styles.
(** [computedStyles : Record<string, string>] is kept as the list of
    its own properties, in property order. *)
Record t := mk { css : string; computedStyles : list (string * string) }.
Definition empty : t := mk EmptyString [].
End Styles.

Module ComponentIndex.
Record t := mk
  { id : string;
    name : string;
    filePath : string;
    sourceCode : string;
    screenshots : Screenshots.t;
    bounds : Bounds.t;
    props : list PropDefinition.t;
    imports : list string;
    dependencies : list string;
    styles : Styles.t;
    usedIn : list string;
    children : list string;
    description : string;
    tags : list string;
    lastModified : Date }.

Definition with_usedIn (c : t) (u : list string) : t :=
  mk (id c) (name c) (filePath c) (sourceCode c) (screenshots c) (bounds c)
     (props c) (imports c) (dependencies c) (styles c) u (children c)
     (description c) (tags c) (lastModified c).
End ComponentIndex.

Module PageIndex.
Record t := mk
  { id : string;
    name : string;
    route : string;
    filePath : string;
    components : list string;
    screenshots : Screenshots.t }.
End PageIndex.

Inductive Framework := react | vue | angular | unknown.

Module Metadata.
Record t := mk
  { projectPath : string;
    framework : Framework;
    lastIndexed : Date;
    componentsCount : JsNumber.t;
    pagesCount : JsNumber.t }.
End Metadata.

Module Embedding.
Record t := mk { visual : list JsNumber.t; semantic : list JsNumber.t }.
End Embedding.

Module ProjectIndex.
Record t := mk
  { metadata : Metadata.t;
    components : list ComponentIndex.t;
    pages : list PageIndex.t;
    embeddings : option (list (string * Embedding.t)) }.
End ProjectIndex.

(** ** The search engine (index-search-engine) *)

Inductive ComponentType := functional | class | any.

Module SearchQuery.
Record t := mk
  { text : option string;
    tags : option (list string);
    framework : option string;
    componentType : option ComponentType;
    hasProps : option bool;
    hasSideEffects : option bool;
    usedIn : option (list string) }.

(** the query object [{}] *)
Definition empty : t := mk None None None None None None None.

(** the same query with another [text] *)
Definition withText (query : t) (s : string) : t :=
  mk (Some s) (tags query) (framework query) (componentType query) (hasProps query)
     (hasSideEffects query) (usedIn query).

(** the query object [{ text }] *)
Definition ofText (s : string) : t := mk (Some s) None None None None None None.

(** the same query with [tag] added to [query.tags] *)
Definition addTag (query : t) (tag : string) : t :=
  mk (text query) (Some (default [] (tags query) ++ [tag])) (framework query)
     (componentType query) (hasProps query) (hasSideEffects query) (usedIn query).
End SearchQuery.

Module Match.
Record t := mk
  { field : string;
    snippet : string;
    highlightStart : Z;
    highlightEnd : Z }.
End Match.

Module SearchResult.
Record t := mk
  { component : ComponentIndex.t;
    relevanceScore : Z;
    matches : list Match.t }.
End SearchResult.

(** [Array.prototype.sort(cmp)]: the elements are ordered by the
    comparator and the sort is stable (ECMAScript 2019 and later; the
    project compiles for ES2022).  An element stays in front of a later
    one unless the comparator puts it strictly behind. *)
Section ArraySort.
Context {A : Type} (cmp : A -> A -> Z).

Fixpoint sort_insert (a : A) (l : list A) : list A :=
  match l with
  | [] => [a]
  | b :: l' => if cmp a b <=? 0 then a :: l else b :: sort_insert a l'
  end.

Definition Array_sort (l : list A) : list A := fold_right sort_insert [] l.
End ArraySort.

(** The same sort for a comparator with fractional results. *)
Section ArraySortQ.
Context {A : Type} (cmp : A -> A -> Q).

Fixpoint sortQ_insert (a : A) (l : list A) : list A :=
  match l with
  | [] => [a]
  | b :: l' => if Qle_bool (cmp a b) 0 then a :: l else b :: sortQ_insert a l'
  end.

Definition Array_sortQ (l : list A) : list A := fold_right sortQ_insert [] l.
End ArraySortQ.

(** [array.slice(start, end)]: a negative bound counts from the end of
    the array, and both bounds are clamped to it. *)
Definition Array_slice {A : Type} (l : list A) (start end_ : Z) : list A :=
  let len := Z.of_nat (List.length l) in
  let k := if start <? 0 then Z.max (len + start) 0 else Z.min start len in
  let final := if end_ <? 0 then Z.max (len + end_) 0 else Z.min end_ len in
  firstn (Z.to_nat (Z.max (final - k) 0)) (skipn (Z.to_nat k) l).

Inductive SimilarityType := visual | semantic | usage.

(** A sequential loop whose body may leave the modelled fragment. *)
Fixpoint for_each {S : Type} (l : list nat) (body : nat -> S -> option S) (s : S)
  : option S :=
  match l with
  | [] => Some s
  | i :: l' => match body i s with
               | Some s' => for_each l' body s'
               | None => None
               end
  end.

Module Matrix.
(** The distance matrix: an array of rows of numbers.  [None] stands
    for a step outside the integral fragment: reading a cell that does
    not exist (JavaScript yields [undefined], and the arithmetic on it
    [NaN]) or writing beyond the end of a row (which leaves holes). *)
Abbreviation t := (list (list Z)).

Definition get (m : t) (i j : nat) : option Z :=
  match m !! i with
  | Some row => row !! j
  | None => None
  end.

(** [m[i][j] = v]: overwrites inside the row, appends at its end *)
Definition set (m : t) (i j : nat) (v : Z) : option t :=
  match m !! i with
  | Some row =>
      if (j <? List.length row)%nat then Some (<[i := <[j := v]> row]> m)
      else if (j =? List.length row)%nat then Some (<[i := row ++ [v]]> m)
      else None
  | None => None
  end.
End Matrix.

(** The heap of the usage graph.

    [getComponentUsageGraph] stores each component's [usedIn] array in
    the map by reference and later pushes page ids onto the array it gets
    back from the map.  The arrays are therefore kept in a heap and the
    map holds their addresses. *)

Module Heap.
Abbreviation loc := nat.

(** the array objects, by address *)
Abbreviation t := (list (list string)).

Definition read (h : t) (a : loc) : list string := default [] (h !! a).

(** [a.push(x)] *)
Definition push (h : t) (a : loc) (x : string) : t := alter (fun l => l ++ [x]) a h.

(** the array literal [[]]: a new object *)
Definition alloc (h : t) : loc * t := (List.length h, h ++ [[]]).
End Heap.

Module Loaded.
(** A project index held in memory: component number [i] of the list
    owns the array at address [i]. *)
Definition heap_of (index : ProjectIndex.t) : Heap.t :=
  List.map ComponentIndex.usedIn (ProjectIndex.components index).

Definition objects (index : ProjectIndex.t) : list (ComponentIndex.t * Heap.loc) :=
  imap (fun i c => (c, i)) (ProjectIndex.components index).

(** the index as it reads once the heap has become [h] *)
Definition view (index : ProjectIndex.t) (h : Heap.t) : ProjectIndex.t :=
  ProjectIndex.mk
    (ProjectIndex.metadata index)
    (imap (fun i c => ComponentIndex.with_usedIn c (Heap.read h i))
          (ProjectIndex.components index))
    (ProjectIndex.pages index)
    (ProjectIndex.embeddings index).
End Loaded.

(** [a < b] on fractional numbers *)
Definition Qltb (a b : Q) : bool := negb (Qle_bool b a).

Module SimilarityResult.
Record t := mk
  { component : ComponentIndex.t;
    similarityScore : Q;
    similarityType : SimilarityType }.
End SimilarityResult.
Module IndexSearchEngine.

(** The blocks of [calculateRelevanceScore], each taking the running
    [score] and returning it updated. *)

(* Text search in name, description, and source code *)
Definition textSearch
    (component : ComponentIndex.t) (query : SearchQuery.t) (score : Z) : Z :=
  match SearchQuery.text query with
  | Some text =>
      if JsString.truthy text then
        let searchText := JsString.toLowerCase text in
        (* Name match (highest weight) *)
        let score :=
          if JsString.includes (JsString.toLowerCase (ComponentIndex.name component)) searchText
          then score + 10 else score in
        (* Description match *)
        let score :=
          if JsString.includes (JsString.toLowerCase (ComponentIndex.description component)) searchText
          then score + 5 else score in
        (* Source code match (lower weight, as it might be noisy) *)
        let score :=
          if JsString.includes (JsString.toLowerCase (ComponentIndex.sourceCode component)) searchText
          then score + 2 else score in
        (* Props match *)
        fold_left
          (fun score prop =>
             if (JsString.includes (JsString.toLowerCase (PropDefinition.name prop)) searchText
                 || JsString.includes (JsString.toLowerCase (PropDefinition.type prop)) searchText)%bool
             then score + 3 else score)
          (ComponentIndex.props component) score
      else score
  | None => score
  end.

(* Tag matching *)
Definition tagMatching
    (component : ComponentIndex.t) (query : SearchQuery.t) (score : Z) : Z :=
  match SearchQuery.tags query with
  | Some qtags =>
      if 0 <? Z.of_nat (List.length qtags) then
        let matchingTags :=
          List.filter (fun tag => Array_includes qtags tag) (ComponentIndex.tags component) in
        score + Z.of_nat (List.length matchingTags) * 4
      else score
  | None => score
  end.

(* Component type filtering *)
Definition componentTypeFiltering
    (component : ComponentIndex.t) (query : SearchQuery.t) (score : Z) : Z :=
  match SearchQuery.componentType query with
  | None | Some any => score
  | Some componentType =>
      let isFunctional :=
        (JsString.includes (ComponentIndex.sourceCode component) "function "
         || JsString.includes (ComponentIndex.sourceCode component) "const "
         || JsString.includes (ComponentIndex.sourceCode component) "=>")%bool in
      let isClass :=
        (JsString.includes (ComponentIndex.sourceCode component) "class "
         || JsString.includes (ComponentIndex.sourceCode component) "extends")%bool in
      match componentType with
      | functional => if isFunctional then score + 2 else score - 5
      | _ => if isClass then score + 2 else score - 5 (* Penalty for wrong type *)
      end
  end.

(* Props filtering *)
Definition propsFiltering
    (component : ComponentIndex.t) (query : SearchQuery.t) (score : Z) : Z :=
  match SearchQuery.hasProps query with
  | Some wanted =>
      let hasProps := 0 <? Z.of_nat (List.length (ComponentIndex.props component)) in
      if Bool.eqb wanted hasProps then score + 2 else score - 3
  | None => score
  end.

(* Side effects filtering *)
Definition sideEffectsFiltering
    (component : ComponentIndex.t) (query : SearchQuery.t) (score : Z) : Z :=
  match SearchQuery.hasSideEffects query with
  | Some wanted =>
      let hasSideEffects := Array_includes (ComponentIndex.tags component) "side-effects" in
      if Bool.eqb wanted hasSideEffects then score + 2 else score - 3
  | None => score
  end.

(* Usage filtering *)
Definition usageFiltering
    (component : ComponentIndex.t) (query : SearchQuery.t) (score : Z) : Z :=
  match SearchQuery.usedIn query with
  | Some qused =>
      if 0 <? Z.of_nat (List.length qused) then
        let usageMatches :=
          List.filter (fun usage => Array_includes qused usage)
                      (ComponentIndex.usedIn component) in
        score + Z.of_nat (List.length usageMatches) * 3
      else score
  | None => score
  end.

Definition calculateRelevanceScore
    (component : ComponentIndex.t) (query : SearchQuery.t) : Z :=
  let score := 0 in
  let score := textSearch component query score in
  let score := tagMatching component query score in
  let score := componentTypeFiltering component query score in
  let score := propsFiltering component query score in
  let score := sideEffectsFiltering component query score in
  let score := usageFiltering component query score in
  Z.max 0 score.

Definition findMatches
    (component : ComponentIndex.t) (query : SearchQuery.t) : list Match.t :=
  match SearchQuery.text query with
  | None => []
  | Some text =>
      if negb (JsString.truthy text) then [] else
      let searchText := JsString.toLowerCase text in
      let fields :=
        [ ("name", ComponentIndex.name component);
          ("description", ComponentIndex.description component);
          ("sourceCode", ComponentIndex.sourceCode component) ] in
      fold_left
        (fun matches (field : string * string) =>
           let content := JsString.toLowerCase (snd field) in
           let index := JsString.indexOf content searchText in
           if negb (index =? -1) then
             let start := Z.max 0 (index - 50) in
             let end_ := Z.min (JsString.length content)
                               (index + JsString.length searchText + 50) in
             let snippet := JsString.substring (snd field) start end_ in
             matches ++
               [ Match.mk (fst field) snippet (index - start)
                          (index - start + JsString.length searchText) ]
           else matches)
        fields []
  end.

Definition searchComponents
    (index : ProjectIndex.t) (query : SearchQuery.t) : list SearchResult.t :=
  let results :=
    fold_left
      (fun results component =>
         let relevanceScore := calculateRelevanceScore component query in
         if 0 <? relevanceScore then
           let matches := findMatches component query in
           results ++ [ SearchResult.mk component relevanceScore matches ]
         else results)
      (ProjectIndex.components index) [] in
  (* Sort by relevance score (highest first) *)
  Array_sort
    (fun a b => SearchResult.relevanceScore b - SearchResult.relevanceScore a)
    results.

(** *** Similarity scoring *)

Definition levenshteinDistance (str1 str2 : string) : option Z :=
  let len1 := String.length str1 in
  let len2 := String.length str2 in
  let matrix : Matrix.t := List.map (fun i => [Z.of_nat i]) (seq 0 (len2 + 1)) in
  let matrix := <[0%nat := List.map Z.of_nat (seq 0 (len1 + 1))]> matrix in
  match
    for_each (seq 1 len2) (fun i matrix =>
      for_each (seq 1 len1) (fun j matrix =>
        if bool_decide (String.get (i - 1) str2 = String.get (j - 1) str1) then
          match Matrix.get matrix (i - 1) (j - 1) with
          | Some d => Matrix.set matrix i j d
          | None => None
          end
        else
          match Matrix.get matrix (i - 1) (j - 1),
                Matrix.get matrix i (j - 1),
                Matrix.get matrix (i - 1) j with
          | Some d, Some l, Some u =>
              Matrix.set matrix i j (Z.min (Z.min (d + 1) (l + 1)) (u + 1))
          | _, _, _ => None
          end) matrix) matrix
  with
  | Some matrix => Matrix.get matrix len2 len1
  | None => None
  end.

Definition calculateStringSimilarity (str1 str2 : string) : option Q :=
  (* Simple Levenshtein distance-based similarity *)
  let longer := if JsString.length str2 <? JsString.length str1 then str1 else str2 in
  let shorter := if JsString.length str2 <? JsString.length str1 then str2 else str1 in
  if JsString.length longer =? 0 then Some 1%Q else
  match levenshteinDistance longer shorter with
  | Some distance =>
      Some (inject_Z (JsString.length longer - distance) / inject_Z (JsString.length longer))%Q
  | None => None
  end.

Definition calculateSemanticSimilarity (comp1 comp2 : ComponentIndex.t) : option Q :=
  let score := 0%Q in
  (* Tag similarity *)
  let commonTags :=
    List.filter (fun tag => Array_includes (ComponentIndex.tags comp2) tag)
                (ComponentIndex.tags comp1) in
  let score := (score + inject_Z (Z.of_nat (List.length commonTags)) * (2 # 10))%Q in
  (* Props similarity *)
  let commonPropTypes :=
    List.filter
      (fun type => existsb (fun p => String.eqb (PropDefinition.type p) type)
                           (ComponentIndex.props comp2))
      (List.map PropDefinition.type (ComponentIndex.props comp1)) in
  let score := (score + inject_Z (Z.of_nat (List.length commonPropTypes)) * (15 # 100))%Q in
  (* Import similarity *)
  let commonImports :=
    List.filter (fun imp => Array_includes (ComponentIndex.imports comp2) imp)
                (ComponentIndex.imports comp1) in
  let score := (score + inject_Z (Z.of_nat (List.length commonImports)) * (1 # 10))%Q in
  (* Name similarity (simple string similarity) *)
  match calculateStringSimilarity (ComponentIndex.name comp1) (ComponentIndex.name comp2) with
  | Some nameSimilarity =>
      let score := (score + nameSimilarity * (3 # 10))%Q in
      Some (Qmin 1 score)
  | None => None
  end.

(** [new Set(l).size] *)
Definition Set_size (l : list string) : Z := Z.of_nat (List.length (remove_dups l)).

Definition calculateUsageSimilarity (comp1 comp2 : ComponentIndex.t) : Q :=
  (* Components used in similar contexts *)
  let commonUsageContexts :=
    List.filter (fun context => Array_includes (ComponentIndex.usedIn comp2) context)
                (ComponentIndex.usedIn comp1) in
  let totalContexts :=
    Set_size (ComponentIndex.usedIn comp1 ++ ComponentIndex.usedIn comp2) in
  if totalContexts =? 0 then 0%Q
  else (inject_Z (Z.of_nat (List.length commonUsageContexts)) / inject_Z totalContexts)%Q.

(** [styles[key]]: the value of the first property of that name *)
Fixpoint prop_get (styles : list (string * string)) (key : string) : option string :=
  match styles with
  | [] => None
  | (k, v) :: rest => if String.eqb k key then Some v else prop_get rest key
  end.

Definition calculateVisualSimilarity (comp1 comp2 : ComponentIndex.t) : Q :=
  let styles1 := Styles.computedStyles (ComponentIndex.styles comp1) in
  let styles2 := Styles.computedStyles (ComponentIndex.styles comp2) in
  let styleKeys := remove_dups (List.map fst styles1 ++ List.map fst styles2) in
  let similarStyles :=
    fold_left
      (fun similarStyles key =>
         if bool_decide (prop_get styles1 key = prop_get styles2 key)
         then similarStyles + 1 else similarStyles)
      styleKeys 0 in
  if 0 <? Z.of_nat (List.length styleKeys)
  then (inject_Z similarStyles / inject_Z (Z.of_nat (List.length styleKeys)))%Q
  else 0%Q.

Definition calculateSimilarityScore
    (component1 component2 : ComponentIndex.t) (type : SimilarityType) : option Q :=
  match type with
  | semantic => calculateSemanticSimilarity component1 component2
  | usage => Some (calculateUsageSimilarity component1 component2)
  | visual => Some (calculateVisualSimilarity component1 component2)
  end.

(** *** The usage graph *)

(** the body of the loop over [page.components] *)
Definition addReverseRelationship
    (components : list (ComponentIndex.t * Heap.loc)) (page : PageIndex.t)
    (st : gmap string Heap.loc * Heap.t) (componentName : string)
  : gmap string Heap.loc * Heap.t :=
  let (usageGraph, h) := st in
  match List.find
          (fun c => String.eqb (ComponentIndex.name (fst c)) componentName)
          components with
  | Some component =>
      let (currentUsage, h) :=
        match usageGraph !! ComponentIndex.id (fst component) with
        | Some a => (a, h)
        | None => Heap.alloc h
        end in
      if negb (Array_includes (Heap.read h currentUsage) (PageIndex.id page)) then
        let h := Heap.push h currentUsage (PageIndex.id page) in
        (<[ComponentIndex.id (fst component) := currentUsage]> usageGraph, h)
      else (usageGraph, h)
  | None => (usageGraph, h)
  end.

Definition getComponentUsageGraph (index : ProjectIndex.t) (h : Heap.t)
  : gmap string Heap.loc * Heap.t :=
  let components := Loaded.objects index in
  let usageGraph : gmap string Heap.loc := ∅ in
  (* Build usage relationships *)
  let usageGraph :=
    fold_left
      (fun (g : gmap string Heap.loc) (component : ComponentIndex.t * Heap.loc) =>
         <[ComponentIndex.id (fst component) := snd component]> g)
      components usageGraph in
  (* Add reverse relationships from pages *)
  fold_left
    (fun st page =>
       fold_left (addReverseRelationship components page) (PageIndex.components page) st)
    (ProjectIndex.pages index) (usageGraph, h).

(** the returned [Map<string, string[]>], arrays read out of the heap *)
Definition graph_of (r : gmap string Heap.loc * Heap.t) : gmap string (list string) :=
  Heap.read (snd r) <$> fst r.

(** *** The other queries *)

(** [findSimilarComponents(componentId, similarityType, limit)]; the
    result is [None] only if a score leaves the modelled fragment. *)
Definition findSimilarComponents
    (index : ProjectIndex.t) (componentId : string) (similarityType : SimilarityType)
    (limit : Z) : option (list SimilarityResult.t) :=
  match List.find (fun c => String.eqb (ComponentIndex.id c) componentId)
                  (ProjectIndex.components index) with
  | None => Some []
  | Some targetComponent =>
      let similarities :=
        fold_left
          (fun (acc : option (list SimilarityResult.t)) component =>
             match acc with
             | None => None
             | Some similarities =>
                 if String.eqb (ComponentIndex.id component) componentId
                 then Some similarities
                 else
                   match calculateSimilarityScore targetComponent component similarityType with
                   | Some score =>
                       if Qltb (1 # 10) score (* Minimum similarity threshold *)
                       then Some (similarities
                                    ++ [SimilarityResult.mk component score similarityType])
                       else Some similarities
                   | None => None
                   end
             end)
          (ProjectIndex.components index) (Some []) in
      match similarities with
      | Some similarities =>
          Some (Array_slice
                  (Array_sortQ
                     (fun a b => (SimilarityResult.similarityScore b
                                  - SimilarityResult.similarityScore a)%Q)
                     similarities)
                  0 limit)
      | None => None
      end
  end.

Definition getComponentsByTag (index : ProjectIndex.t) (tag : string)
  : list ComponentIndex.t :=
  List.filter (fun component => Array_includes (ComponentIndex.tags component) tag)
              (ProjectIndex.components index).
End IndexSearchEngine.

(** *** Levenshtein distance, as the specification words it

    The edit distance of two strings is the least number of
    single-character insertions, deletions and substitutions that turn
    one into the other.  [edits s t n] says that some alignment of [s]
    with [t] uses [n] of them; [lev] computes the least such [n]. *)

Section EditDistance.
Context {A : Type} `{EqDecision A}.

Inductive edits : list A -> list A -> nat -> Prop :=
| edits_nil : edits [] [] 0
| edits_keep a s t n : edits s t n -> edits (a :: s) (a :: t) n
| edits_subst a b s t n : edits s t n -> edits (a :: s) (b :: t) (S n)
| edits_delete a s t n : edits s t n -> edits (a :: s) t (S n)
| edits_insert b s t n : edits s t n -> edits s (b :: t) (S n).

Fixpoint lev (s : list A) : list A -> nat :=
  fix lev_s (t : list A) : nat :=
    match s, t with
    | [], _ => List.length t
    | _, [] => List.length s
    | a :: s', b :: t' =>
        Nat.min (Nat.min (lev s' t' + (if decide (a = b) then 0 else 1))
                         (lev_s t' + 1))
                (lev s' t + 1)
    end.
End EditDistance.

Definition editDistance (x y : string) : Z :=
  Z.of_nat (lev (list_ascii_of_string x) (list_ascii_of_string y)).

(** The similarity of the specification: [(maxLen - editDistance) / maxLen],
    and 1 for two empty strings. *)
Definition stringSimilarity_spec (x y : string) : Q :=
  let maxLen := Z.max (JsString.length x) (JsString.length y) in
  if maxLen =? 0 then 1%Q
  else (inject_Z (maxLen - editDistance x y) / inject_Z maxLen)%Q.

(** ** The visual-code correlator *)

Module Attributes.
Record t := mk
  { role : option string;
    ariaLabel : option string;
    type : option string;
    placeholder : option string }.
End Attributes.

Module ElementStyles.
Record t := mk
  { position : option string;
    display : option string;
    backgroundColor : option string;
    color : option string;
    fontSize : option string;
    fontWeight : option string;
    padding : option string;
    margin : option string;
    border : option string;
    borderRadius : option string }.
End ElementStyles.

Module VisualElement.
Record t := mk
  { selector : string;
    text : string;
    bounds : BoundingBox.t;
    tagName : string;
    className : string;
    id : string;
    attributes : Attributes.t;
    styles : ElementStyles.t;
    elementIndex : Z }.
End VisualElement.

Module VisualCodeCorrelation.
Record t := mk
  { visualElement : VisualElement.t;
    sourceComponent : option ComponentIndex.t;
    confidence : Q;
    matchReason : string;
    codeSnippet : option string;
    responsiveIssues : list string;
    recommendations : list string }.
End VisualCodeCorrelation.

Definition is_some {A : Type} (o : option A) : bool :=
  match o with Some _ => true | None => false end.

(** [parseInt(x)]: leading white space, an optional sign, an optional
    [0x] prefix, then the longest run of digits; [None] is [NaN]. *)
Module ParseInt.
Definition digit_value (c : ascii) : option Z :=
  let n := Z.of_nat (nat_of_ascii c) in
  if (48 <=? n) && (n <=? 57) then Some (n - 48)
  else if (97 <=? n) && (n <=? 122) then Some (n - 97 + 10)
  else if (65 <=? n) && (n <=? 90) then Some (n - 65 + 10)
  else None.

Fixpoint digits (radix : Z) (s : string) (acc : option Z) : option Z :=
  match s with
  | EmptyString => acc
  | String c s' =>
      match digit_value c with
      | Some d =>
          if d <? radix then digits radix s' (Some (default 0 acc * radix + d))
          else acc
      | None => acc
      end
  end.

Definition parseInt (input : option string) : option Z :=
  let s := JsString.trimStart (default "undefined" input) in
  let (sign, s) :=
    match s with
    | String "-"%char s' => (-1, s')
    | String "+"%char s' => (1, s')
    | _ => (1, s)
    end in
  let (radix, s) :=
    match s with
    | String "0"%char (String "x"%char s') => (16, s')
    | String "0"%char (String "X"%char s') => (16, s')
    | _ => (10, s)
    end in
  match digits radix s None with
  | Some n => Some (sign * n)
  | None => None
  end.
End ParseInt.

Module Summary.
Record t := mk
  { totalElements : Z;
    matchedComponents : Z;
    unmatchedElements : Z;
    criticalIssues : Z }.
End Summary.
Module VisualCodeCorrelator.

Definition buildTypeQuery (visualElement : VisualElement.t) : SearchQuery.t :=
  let query text tags := SearchQuery.mk text tags None None None None None in
  if (String.eqb (VisualElement.tagName visualElement) "button"
      || bool_decide (Attributes.role (VisualElement.attributes visualElement) = Some "button"))%bool
  then query (Some "button") (Some ["interactive"])
  else if Array_includes ["input"; "textarea"; "select"] (VisualElement.tagName visualElement)
  then query (Some "input") (Some ["interactive"])
  else if JsString.includes (VisualElement.className visualElement) "card"
  then query (Some "card") (Some ["container"])
  else if String.eqb (VisualElement.tagName visualElement) "nav"
  then query (Some "navigation") None
  else query None None.

(** [lines.slice(start, end)] for [0 <= start] *)
Definition slice {A : Type} (l : list A) (start end_ : Z) : list A :=
  firstn (Z.to_nat (end_ - start)) (skipn (Z.to_nat start) l).

(** [lines.findIndex(p)] *)
Fixpoint findIndex {A : Type} (p : A -> bool) (l : list A) : Z :=
  match l with
  | [] => -1
  | a :: l' => if p a then 0 else
                 let r := findIndex p l' in if r =? -1 then -1 else r + 1
  end.

Definition extractRelevantCodeSnippet
    (component : ComponentIndex.t) (visualElement : VisualElement.t) : string :=
  let sourceLines := JsString.split (ComponentIndex.sourceCode component) "010"%char in
  (* Try to find the JSX return statement *)
  let returnIndex :=
    findIndex (fun line => JsString.includes (JsString.trim line) "return") sourceLines in
  if negb (returnIndex =? -1) then
    let start := Z.max 0 (returnIndex - 2) in
    let end_ := Z.min (Z.of_nat (List.length sourceLines)) (returnIndex + 15) in
    JsString.join (slice sourceLines start end_) (String "010"%char EmptyString)
  else
    (* Fallback: return first 20 lines *)
    JsString.join (slice sourceLines 0 20) (String "010"%char EmptyString).

(** the three running variables of [findComponentMatch] *)
Record best := mkBest
  { bestMatch : option ComponentIndex.t;
    confidence : Q;
    matchReason : string }.

Definition quote : string := String (ascii_of_nat 34) EmptyString.

(* Strategy 1: Search by element text content *)
Definition searchByText
    (index : ProjectIndex.t) (visualElement : VisualElement.t) (st : best) : best :=
  if (JsString.truthy (VisualElement.text visualElement)
      && (2 <? JsString.length (VisualElement.text visualElement)))%bool then
    let textResults :=
      IndexSearchEngine.searchComponents index
        (SearchQuery.mk (Some (VisualElement.text visualElement)) None None
                        (Some any) None None None) in
    match textResults with
    | top :: _ =>
        mkBest (Some (SearchResult.component top))
               (Qmin (inject_Z (SearchResult.relevanceScore top) / 20) (8 # 10))
               ("Matched by text content: " +:+ quote
                  +:+ VisualElement.text visualElement +:+ quote)
    | [] => st
    end
  else st.

(* Strategy 2: Search by element type and attributes *)
Definition searchByType
    (index : ProjectIndex.t) (visualElement : VisualElement.t) (st : best) : best :=
  if (negb (is_some (bestMatch st)) || Qltb (confidence st) (5 # 10))%bool then
    let typeQuery := buildTypeQuery visualElement in
    let typeResults := IndexSearchEngine.searchComponents index typeQuery in
    match typeResults with
    | top :: _ =>
        if 5 <? SearchResult.relevanceScore top then
          if (negb (is_some (bestMatch st))
              || Qltb (confidence st * 20) (inject_Z (SearchResult.relevanceScore top)))%bool
          then
            mkBest (Some (SearchResult.component top))
                   (Qmin (inject_Z (SearchResult.relevanceScore top) / 15) (9 # 10))
                   ("Matched by element type and props: "
                      +:+ default "undefined" (SearchQuery.text typeQuery))
          else st
        else st
    | [] => st
    end
  else st.

(* Strategy 3: Search by CSS classes *)
Definition searchByClasses
    (index : ProjectIndex.t) (visualElement : VisualElement.t) (st : best) : best :=
  if ((negb (is_some (bestMatch st)) || Qltb (confidence st) (6 # 10))
      && JsString.truthy (VisualElement.className visualElement))%bool then
    let classNames :=
      List.filter (fun c => 2 <? JsString.length c)
                  (JsString.split (VisualElement.className visualElement) " "%char) in
    fold_left
      (fun st className =>
         let classResults :=
           IndexSearchEngine.searchComponents index
             (SearchQuery.mk (Some className) None None (Some any) None None None) in
         match classResults with
         | top :: _ =>
             if 3 <? SearchResult.relevanceScore top then
               if (negb (is_some (bestMatch st))
                   || Qltb (confidence st * 15)
                           (inject_Z (SearchResult.relevanceScore top)))%bool
               then
                 mkBest (Some (SearchResult.component top))
                        (Qmin (inject_Z (SearchResult.relevanceScore top) / 12) (7 # 10))
                        ("Matched by CSS class: " +:+ quote +:+ className +:+ quote)
               else st
             else st
         | [] => st
         end)
      classNames st
  else st.

Definition findComponentMatch
    (searchEngine : option ProjectIndex.t) (visualElement : VisualElement.t)
  : VisualCodeCorrelation.t :=
  match searchEngine with
  | None =>
      VisualCodeCorrelation.mk visualElement None 0 "No search engine available"
                               None [] []
  | Some index =>
      let st := mkBest None 0 EmptyString in
      let st := searchByText index visualElement st in
      let st := searchByType index visualElement st in
      let st := searchByClasses index visualElement st in
      (* Extract relevant code snippet *)
      let codeSnippet :=
        match bestMatch st with
        | Some component => extractRelevantCodeSnippet component visualElement
        | None => EmptyString
        end in
      VisualCodeCorrelation.mk
        visualElement
        (bestMatch st)
        (confidence st)
        (if is_some (bestMatch st) then matchReason st else "No matching component found")
        (Some codeSnippet)
        [] []
  end.

Definition analyzeResponsiveIssues (element : VisualElement.t) : list string :=
  let issues : list string := [] in
  let width := BoundingBox.width (VisualElement.bounds element) in
  let height := BoundingBox.height (VisualElement.bounds element) in
  (* Check touch target size *)
  let issues :=
    if ((width <? 44) || (height <? 44))%bool then
      issues ++ [ "Touch target too small: " +:+ JsString.ofNumber width +:+ "x"
                    +:+ JsString.ofNumber height +:+ "px (minimum 44x44px)" ]
    else issues in
  (* Check for very small text *)
  let fontSize := ParseInt.parseInt (ElementStyles.fontSize (VisualElement.styles element)) in
  let issues :=
    match fontSize with
    | Some fontSize =>
        if (negb (fontSize =? 0) && (fontSize <? 14))%bool then
          issues ++ [ "Font size too small: " +:+ JsString.ofNumber fontSize
                        +:+ "px (minimum 14px for mobile)" ]
        else issues
    | None => issues
    end in
  (* Check for insufficient color contrast (basic check) *)
  let issues :=
    match ElementStyles.color (VisualElement.styles element),
          ElementStyles.backgroundColor (VisualElement.styles element) with
    | Some color, Some backgroundColor =>
        if (JsString.truthy color && JsString.truthy backgroundColor)%bool then
          if String.eqb color backgroundColor
          then issues ++ [ "Potential color contrast issue" ]
          else issues
        else issues
    | _, _ => issues
    end in
  issues.

Definition generateRecommendations
    (element : VisualElement.t) (component : option ComponentIndex.t) : list string :=
  let recommendations : list string := [] in
  let recommendations :=
    if ((BoundingBox.width (VisualElement.bounds element) <? 44)
        || (BoundingBox.height (VisualElement.bounds element) <? 44))%bool
    then recommendations
           ++ [ "Increase padding or min-height/min-width to meet 44px touch target minimum" ]
    else recommendations in
  let recommendations :=
    if (negb (JsString.truthy
                (default EmptyString (Attributes.ariaLabel (VisualElement.attributes element))))
        && negb (JsString.truthy (VisualElement.text element)))%bool
    then recommendations ++ [ "Add aria-label for better accessibility" ]
    else recommendations in
  let recommendations :=
    match component with
    | Some component =>
        if 8 <? Z.of_nat (List.length (ComponentIndex.props component))
        then recommendations
               ++ [ "Consider breaking down this component - it has many props and might be too complex" ]
        else recommendations
    | None => recommendations
    end in
  let recommendations :=
    if (String.eqb (VisualElement.tagName element) "div"
        && bool_decide (Attributes.role (VisualElement.attributes element) = Some "button"))%bool
    then recommendations
           ++ [ "Consider using a semantic <button> element instead of div with button role" ]
    else recommendations in
  recommendations.

(** one turn of the loop of [correlateElementsWithComponents] *)
Definition correlateElement
    (searchEngine : option ProjectIndex.t) (element : VisualElement.t)
  : VisualCodeCorrelation.t :=
  let correlation :=
    match searchEngine with
    | Some _ => findComponentMatch searchEngine element
    | None =>
        VisualCodeCorrelation.mk element None 0 "No project index available" None [] []
    end in
  VisualCodeCorrelation.mk
    (VisualCodeCorrelation.visualElement correlation)
    (VisualCodeCorrelation.sourceComponent correlation)
    (VisualCodeCorrelation.confidence correlation)
    (VisualCodeCorrelation.matchReason correlation)
    (VisualCodeCorrelation.codeSnippet correlation)
    (analyzeResponsiveIssues element)
    (generateRecommendations element (VisualCodeCorrelation.sourceComponent correlation)).

Definition correlateElementsWithComponents
    (searchEngine : option ProjectIndex.t) (visualElements : list VisualElement.t)
  : list VisualCodeCorrelation.t :=
  List.map (correlateElement searchEngine) visualElements.

Definition generateSummary (correlations : list VisualCodeCorrelation.t) : Summary.t :=
  let totalElements := Z.of_nat (List.length correlations) in
  let matchedComponents :=
    Z.of_nat (List.length
                (List.filter (fun c => is_some (VisualCodeCorrelation.sourceComponent c))
                             correlations)) in
  let unmatchedElements := totalElements - matchedComponents in
  let criticalIssues :=
    fold_left
      (fun count c => count + Z.of_nat (List.length (VisualCodeCorrelation.responsiveIssues c)))
      correlations 0 in
  Summary.mk totalElements matchedComponents unmatchedElements criticalIssues.

End VisualCodeCorrelator.

(** ** Persistence of the index (ProjectIndexer.saveIndex / loadIndex) *)

(** JavaScript values, as far as an index holds them. *)
#[warnings="-register-all"]
Inductive jsval :=
| VUndefined
| VNull
| VBool (b : bool)
| VNum (x : JsNumber.t)
| VStr (s : string)
| VDate (t : Date)
| VArr (items : list jsval)
| VObj (props : list (string * jsval)).

(** JSON documents: what [JSON.stringify] writes and [JSON.parse] reads.
    The index file is modelled by the document its text denotes; a
    number of the document is the rational that its literal denotes. *)
#[warnings="-register-all"]
Inductive json :=
| JNull
| JBool (b : bool)
| JNum (q : Q)
| JStr (s : string)
| JArr (items : list json)
| JObj (members : list (string * json)).

Module JsDate.
(** a date is valid when its time value is a number: [TimeClip] leaves
    the integers up to 8.64e15 in magnitude *)
Definition valid (t : Date) : bool := Z.abs t <=? 8640000000000000.

Definition pad (width : nat) (n : Z) : string :=
  let digits := JsString.ofNumber n in
  string_of_list_ascii (repeat "0"%char (width - String.length digits))
    +:+ digits.

(** the civil date of a day number (days since 1970-01-01) *)
Definition civil_from_days (z : Z) : Z * Z * Z :=
  let z := z + 719468 in
  let era := z / 146097 in
  let doe := z - era * 146097 in
  let yoe := (doe - doe / 1460 + doe / 36524 - doe / 146096) / 365 in
  let y := yoe + era * 400 in
  let doy := doe - (365 * yoe + yoe / 4 - yoe / 100) in
  let mp := (5 * doy + 2) / 153 in
  let d := doy - (153 * mp + 2) / 5 + 1 in
  let m := if mp <? 10 then mp + 3 else mp - 9 in
  (if m <=? 2 then y + 1 else y, m, d).

(** [date.toISOString()] of a valid date: [YYYY-MM-DDTHH:mm:ss.sssZ],
    with a sign and six digits for a year outside 0..9999 *)
Definition toISOString (t : Date) : string :=
  let day := t / 86400000 in
  let ms := t mod 86400000 in
  let '(y, m, d) := civil_from_days day in
  let year :=
    if (0 <=? y) && (y <=? 9999) then pad 4 y
    else (if y <? 0 then "-" else "+") +:+ pad 6 (Z.abs y) in
  year +:+ "-" +:+ pad 2 m +:+ "-" +:+ pad 2 d
    +:+ "T" +:+ pad 2 (ms / 3600000)
    +:+ ":" +:+ pad 2 (ms / 60000 mod 60)
    +:+ ":" +:+ pad 2 (ms / 1000 mod 60)
    +:+ "." +:+ pad 3 (ms mod 1000) +:+ "Z".

(** [date.toJSON()]: the ISO string, and [null], here [None], for an
    invalid date *)
Definition toJSON (t : Date) : option string :=
  if valid t then Some (toISOString t) else None.
End JsDate.

Module JSON.
(** [JSON.stringify(v)]: a finite number is written as it is, the
    negative zero as [0], and [NaN] and the infinities as [null]; a
    [Date] answers [toJSON] with its ISO string, or with [null] when it
    is invalid; an [undefined] property is left out, an [undefined]
    array entry becomes [null]; [None] is the result [undefined]. *)
Fixpoint stringify (v : jsval) : option json :=
  match v with
  | VUndefined => None
  | VNull => Some JNull
  | VBool b => Some (JBool b)
  | VNum (JsNumber.Finite q) => Some (JNum q)
  | VNum JsNumber.NegativeZero => Some (JNum 0)
  | VNum _ => Some JNull
  | VStr s => Some (JStr s)
  | VDate t =>
      Some (match JsDate.toJSON t with Some s => JStr s | None => JNull end)
  | VArr items =>
      Some (JArr (List.map (fun x => default JNull (stringify x)) items))
  | VObj props =>
      Some (JObj (List.flat_map
                    (fun p : string * jsval =>
                       match stringify (snd p) with
                       | Some j => [(fst p, j)]
                       | None => []
                       end)
                    props))
  end.

(** [JSON.parse(text)] without a reviver *)
Fixpoint parse (j : json) : jsval :=
  match j with
  | JNull => VNull
  | JBool b => VBool b
  | JNum q => VNum (JsNumber.Finite q)
  | JStr s => VStr s
  | JArr items => VArr (List.map parse items)
  | JObj members => VObj (List.map (fun m : string * json => (fst m, parse (snd m))) members)
  end.
End JSON.

(** The objects of the data model as JavaScript values.  [date] says how
    a [Date]-typed field is held: [VDate] in the index the indexer
    builds. *)
Module Value.
Section Encode.
Variable date : Date -> jsval.

Definition strings (l : list string) : jsval := VArr (List.map VStr l).

Definition optional {A : Type} (key : string) (enc : A -> jsval) (o : option A)
  : list (string * jsval) :=
  match o with Some a => [(key, enc a)] | None => [] end.

Definition ofScreenshots (s : Screenshots.t) : jsval :=
  VObj (optional "desktop" VStr (Screenshots.desktop s)
          ++ optional "tablet" VStr (Screenshots.tablet s)
          ++ optional "mobile" VStr (Screenshots.mobile s)).

Definition ofBoundingBox (b : Bounds.BoundingBox.t) : jsval :=
  VObj [ ("x", VNum (Bounds.BoundingBox.x b)); ("y", VNum (Bounds.BoundingBox.y b));
         ("width", VNum (Bounds.BoundingBox.width b));
         ("height", VNum (Bounds.BoundingBox.height b)) ].

Definition ofBounds (b : Bounds.t) : jsval :=
  VObj (optional "desktop" ofBoundingBox (Bounds.desktop b)
          ++ optional "tablet" ofBoundingBox (Bounds.tablet b)
          ++ optional "mobile" ofBoundingBox (Bounds.mobile b)).

Definition ofProp (p : PropDefinition.t) : jsval :=
  VObj ([ ("name", VStr (PropDefinition.name p));
          ("type", VStr (PropDefinition.type p));
          ("required", VBool (PropDefinition.required p)) ]
          ++ optional "defaultValue" VStr (PropDefinition.defaultValue p)
          ++ optional "description" VStr (PropDefinition.description p)).

Definition ofStyles (s : Styles.t) : jsval :=
  VObj [ ("css", VStr (Styles.css s));
         ("computedStyles",
          VObj (List.map (fun kv : string * string => (fst kv, VStr (snd kv)))
                         (Styles.computedStyles s))) ].

Definition ofComponent (c : ComponentIndex.t) : jsval :=
  VObj [ ("id", VStr (ComponentIndex.id c));
         ("name", VStr (ComponentIndex.name c));
         ("filePath", VStr (ComponentIndex.filePath c));
         ("sourceCode", VStr (ComponentIndex.sourceCode c));
         ("screenshots", ofScreenshots (ComponentIndex.screenshots c));
         ("bounds", ofBounds (ComponentIndex.bounds c));
         ("props", VArr (List.map ofProp (ComponentIndex.props c)));
         ("imports", strings (ComponentIndex.imports c));
         ("dependencies", strings (ComponentIndex.dependencies c));
         ("styles", ofStyles (ComponentIndex.styles c));
         ("usedIn", strings (ComponentIndex.usedIn c));
         ("children", strings (ComponentIndex.children c));
         ("description", VStr (ComponentIndex.description c));
         ("tags", strings (ComponentIndex.tags c));
         ("lastModified", date (ComponentIndex.lastModified c)) ].

Definition ofPage (p : PageIndex.t) : jsval :=
  VObj [ ("id", VStr (PageIndex.id p));
         ("name", VStr (PageIndex.name p));
         ("route", VStr (PageIndex.route p));
         ("filePath", VStr (PageIndex.filePath p));
         ("components", strings (PageIndex.components p));
         ("screenshots", ofScreenshots (PageIndex.screenshots p)) ].

Definition ofFramework (f : Framework) : jsval :=
  VStr match f with
       | react => "react" | vue => "vue" | angular => "angular"
       | unknown => "unknown"
       end.

Definition ofMetadata (m : Metadata.t) : jsval :=
  VObj [ ("projectPath", VStr (Metadata.projectPath m));
         ("framework", ofFramework (Metadata.framework m));
         ("lastIndexed", date (Metadata.lastIndexed m));
         ("componentsCount", VNum (Metadata.componentsCount m));
         ("pagesCount", VNum (Metadata.pagesCount m)) ].

Definition ofEmbedding (e : Embedding.t) : jsval :=
  VObj [ ("visual", VArr (List.map VNum (Embedding.visual e)));
         ("semantic", VArr (List.map VNum (Embedding.semantic e))) ].

Definition ofIndex (index : ProjectIndex.t) : jsval :=
  VObj ([ ("metadata", ofMetadata (ProjectIndex.metadata index));
          ("components", VArr (List.map ofComponent (ProjectIndex.components index)));
          ("pages", VArr (List.map ofPage (ProjectIndex.pages index))) ]
          ++ optional "embeddings"
               (fun es => VObj (List.map (fun e : string * Embedding.t =>
                                            (fst e, ofEmbedding (snd e))) es))
               (ProjectIndex.embeddings index)).
End Encode.

(** the index in memory, as the indexer builds it *)
Definition inMemory : ProjectIndex.t -> jsval := ofIndex VDate.

(** the same index with each date held as its ISO string *)
Definition withIsoDates : ProjectIndex.t -> jsval :=
  ofIndex (fun t => VStr (JsDate.toISOString t)).

(** [o[key]] *)
Definition get (o : jsval) (key : string) : jsval :=
  match o with
  | VObj props =>
      match List.find (fun p : string * jsval => String.eqb (fst p) key) props with
      | Some p => snd p
      | None => VUndefined
      end
  | _ => VUndefined
  end.

(** a value in a condition *)
Definition truthy (v : jsval) : bool :=
  match v with
  | VUndefined | VNull => false
  | VBool b => b
  | VNum (JsNumber.Finite q) => negb (Qeq_bool q 0)
  | VNum JsNumber.NegativeZero | VNum JsNumber.NaN => false
  | VNum _ => true
  | VStr s => JsString.truthy s
  | VDate _ | VArr _ | VObj _ => true
  end.
End Value.

Module ProjectIndexer.
(** [generateTags]: the semantic labels, by keyword presence *)
Definition generateTags (sourceCode : string) : list string :=
  let tags : list string := [] in
  let tags := if JsString.includes sourceCode "useState" then tags ++ ["stateful"] else tags in
  let tags := if JsString.includes sourceCode "useEffect" then tags ++ ["side-effects"] else tags in
  let tags := if JsString.includes sourceCode "props.children" then tags ++ ["container"] else tags in
  let tags :=
    if (JsString.includes sourceCode "onClick" || JsString.includes sourceCode "onPress")%bool
    then tags ++ ["interactive"] else tags in
  let tags :=
    if (JsString.includes sourceCode "styled" || JsString.includes sourceCode "className")%bool
    then tags ++ ["styled"] else tags in
  tags.

(** The record [analyzeComponent] builds for a file, from what it read
    and extracted. *)
Definition newComponent
    (id name filePath sourceCode : string) (props : list PropDefinition.t)
    (imports : list string) (description : string) (mtime : Date) : ComponentIndex.t :=
  ComponentIndex.mk id name filePath sourceCode Screenshots.empty Bounds.empty
    props imports [] Styles.empty [] [] description (generateTags sourceCode) mtime.

(** what a file holds: a JSON document, or text that does not parse *)
Inductive file := JsonText (doc : json) | OtherText (text : string).

Abbreviation FileSystem := (gmap string file).

(** [path.join(projectPath, '.ui-context-index.json')] *)
Definition indexPath (projectPath : string) : string :=
  projectPath +:+ "/.ui-context-index.json".

(** [saveIndex]: [fs.writeFile(indexPath, JSON.stringify(this.index, null, 2))] *)
Definition saveIndex (fs : FileSystem) (projectPath : string) (index : ProjectIndex.t)
  : FileSystem :=
  match JSON.stringify (Value.inMemory index) with
  | Some doc => <[indexPath projectPath := JsonText doc]> fs
  | None => fs
  end.

(** [loadIndex]: [JSON.parse] of the file, [null] when reading or
    parsing fails *)
Definition loadIndex (fs : FileSystem) (projectPath : string) : option jsval :=
  match fs !! indexPath projectPath with
  | Some (JsonText doc) => Some (JSON.parse doc)
  | Some (OtherText _) => None
  | None => None
  end.

(** [o[key]] for a value read by [JSON.parse]: of the members of an
    object that share a name, the last one counts *)
Definition member (o : jsval) (key : string) : jsval :=
  match o with
  | VObj props => Value.get (VObj (List.rev props)) key
  | _ => VUndefined
  end.

(** [analyzeProjectStructure]: the framework after the manifest has been
    looked at; [framework] is the value before (['unknown'] in a new
    indexer).  A manifest that cannot be read or parsed, or the
    [TypeError] of a manifest that is [null], leaves it as it is. *)
Definition analyzeProjectStructure
    (fs : FileSystem) (projectPath : string) (framework : Framework) : Framework :=
  match fs !! (projectPath +:+ "/package.json") with
  | Some (JsonText doc) =>
      let packageJson := JSON.parse doc in
      let dependency section name :=
        Value.truthy (member (member packageJson section) name) in
      (* Detect framework *)
      if (dependency "dependencies" "react" || dependency "devDependencies" "react")%bool
      then react
      else if (dependency "dependencies" "vue" || dependency "devDependencies" "vue")%bool
      then vue
      else if dependency "dependencies" "@angular/core" then angular
      else framework
  | Some (OtherText _) => framework
  | None => framework
  end.

Definition isComponentFile (fileName : string) : bool :=
  let componentExtensions := [".tsx"; ".jsx"; ".vue"; ".ts"; ".js"] in
  let hasValidExtension :=
    existsb (fun ext => JsString.endsWith fileName ext) componentExtensions in
  (* Basic heuristic: file name starts with capital letter (React convention)
     or contains "component" in the name *)
  let isComponentName :=
    (match fileName with
     | String c _ => JsString.is_upper c
     | EmptyString => false
     end
     || JsString.includes (JsString.toLowerCase fileName) "component")%bool in
  (hasValidExtension && isComponentName)%bool.

(** [s] without its last [n] characters *)
Definition dropEnd (n : nat) (s : string) : string :=
  String.substring 0 (String.length s - n) s.

(** [fileName.replace(/\.(tsx?|jsx?|vue)$/, '')], the name that
    [analyzeComponent] and [analyzePage] give *)
Definition stripSourceExtension (fileName : string) : string :=
  if JsString.endsWith fileName ".tsx" then dropEnd 4 fileName
  else if JsString.endsWith fileName ".ts" then dropEnd 3 fileName
  else if JsString.endsWith fileName ".jsx" then dropEnd 4 fileName
  else if JsString.endsWith fileName ".js" then dropEnd 3 fileName
  else if JsString.endsWith fileName ".vue" then dropEnd 4 fileName
  else fileName.

(** [s.replace(/[/\\]/g, '_')] *)
Fixpoint replaceSeparators (s : string) : string :=
  match s with
  | EmptyString => EmptyString
  | String c s' =>
      String (if (Ascii.eqb c "/" || Ascii.eqb c "\")%bool then "_"%char else c)
             (replaceSeparators s')
  end.

Fixpoint hasDot (s : string) : bool :=
  match s with
  | EmptyString => false
  | String c s' => (Ascii.eqb c "." || hasDot s')%bool
  end.

(** [s.replace(/\.[^.]+$/, '')]: the last dot and what follows it are
    removed, unless the dot ends the string *)
Fixpoint stripLastExtension (s : string) : string :=
  match s with
  | EmptyString => EmptyString
  | String c s' =>
      if (Ascii.eqb c "." && negb (hasDot s') && JsString.truthy s')%bool
      then EmptyString
      else String c (stripLastExtension s')
  end.

(** [generateComponentId], of the path relative to the project root *)
Definition generateComponentId (relativePath : string) : string :=
  stripLastExtension (replaceSeparators relativePath).

Definition generateRouteFromFileName (fileName : string) : string :=
  if (String.eqb (JsString.toLowerCase fileName) "index"
      || String.eqb (JsString.toLowerCase fileName) "home")%bool
  then "/"
  else "/" +:+ JsString.toLowerCase fileName.

(** the longest run of word characters at the start of [s] *)
Fixpoint takeWord (s : string) : string :=
  match s with
  | String c s' => if JsString.is_word c then String c (takeWord s') else EmptyString
  | EmptyString => EmptyString
  end.

(** The captures of the global pattern "[<], an upper-case letter, word
    characters" in [s], in order: the capture is the word after the [<].
    A match cannot start inside an earlier one (a capture holds no [<]),
    so every position is tried in turn. *)
Fixpoint componentUsages (s : string) : list string :=
  match s with
  | EmptyString => []
  | String c s' =>
      (if Ascii.eqb c "<" then
         match s' with
         | String d _ => if JsString.is_upper d then [takeWord s'] else []
         | EmptyString => []
         end
       else [])
      ++ componentUsages s'
  end.

(** [set.add(x)], the set kept in insertion order *)
Definition Set_add (l : list string) (x : string) : list string :=
  if Array_includes l x then l else l ++ [x].

Definition extractUsedComponents (sourceCode : string) : list string :=
  (* Extract JSX component usage *)
  fold_left Set_add (componentUsages sourceCode) [].
End ProjectIndexer.

(** ** The device helpers of the context tool (tools/ui-context) *)

Module UIContextTool.
Inductive DeviceType := mobile | tablet | desktop.

Definition getDeviceName (width : Z) : string :=
  if width <=? 480 then "Mobile"
  else if width <=? 768 then "Tablet (Portrait)"
  else if width <=? 1024 then "Tablet (Landscape)"
  else "Desktop".

Definition getDeviceType (width : Z) : DeviceType :=
  if width <=? 480 then mobile
  else if width <=? 1024 then tablet
  else desktop.
End UIContextTool.
(** ** Sample data *)

Module Sample.
Definition submitButton : ComponentIndex.t :=
  ProjectIndexer.newComponent
    "components_SubmitButton" "SubmitButton" "src/components/SubmitButton.tsx"
    "export default (p) => <a onClick={p.send}>Send</a>"
    [] [] "SubmitButton component" 1705314600000.

Definition loginForm : ComponentIndex.t :=
  ProjectIndexer.newComponent
    "components_LoginForm" "LoginForm" "src/components/LoginForm.tsx"
    "export default (p) => <form onClick={p.go}></form>"
    [ PropDefinition.mk "onLogin" "Handler" true None None;
      PropDefinition.mk "loginLabel" "string" false None None ]
    ["react"] "Sign-in form" 1705314600123.

Definition home : PageIndex.t :=
  PageIndex.mk "pages_Home" "Home" "/" "src/pages/Home.tsx" ["SubmitButton"]
               Screenshots.empty.

(** the index of a project with two components and one page *)
Definition index : ProjectIndex.t :=
  ProjectIndex.mk
    (Metadata.mk "/work/app" react 1705314600456 (JsNumber.ofZ 2) (JsNumber.ofZ 1))
                  [submitButton; loginForm] [home] None.

(** two components that are listed for the same page, the first one twice *)
Definition listedTwice : ComponentIndex.t :=
  ComponentIndex.with_usedIn submitButton ["pages_Home"; "pages_Home"].

Definition listedOnce : ComponentIndex.t :=
  ComponentIndex.with_usedIn loginForm ["pages_Home"].

(** the same project once both components are listed for the home page *)
Definition listed : ProjectIndex.t :=
  ProjectIndex.mk
    (Metadata.mk "/work/app" react 1705314600456 (JsNumber.ofZ 2) (JsNumber.ofZ 1))
    [ComponentIndex.with_usedIn submitButton ["pages_Home"]; listedOnce] [home] None.

(** an anchor element as the page automation reports it *)
Definition element (text className : string) (width height : Z) : VisualElement.t :=
  VisualElement.mk "button.send" text (BoundingBox.mk 0 0 width height) "a" className
    EmptyString (Attributes.mk None None None None)
    (ElementStyles.mk None None None None None None None None None None) 0.
End Sample.

(** ** Auxiliary notions used in the statements and proofs *)

(** the number of props of a component that match a text search *)
Definition propMatches (component : ComponentIndex.t) (searchText : string) : Z :=
  Z.of_nat (List.length (List.filter
    (fun prop =>
       (JsString.includes (JsString.toLowerCase (PropDefinition.name prop)) searchText
        || JsString.includes (JsString.toLowerCase (PropDefinition.type prop)) searchText)%bool)
    (ComponentIndex.props component))).

(** the results in index order, before they are sorted *)
Definition unsorted (index : ProjectIndex.t) (query : SearchQuery.t) : list SearchResult.t :=
  List.map
    (fun c => SearchResult.mk c (IndexSearchEngine.calculateRelevanceScore c query)
                              (IndexSearchEngine.findMatches c query))
    (List.filter (fun c => 0 <? IndexSearchEngine.calculateRelevanceScore c query)
                 (ProjectIndex.components index)).

(** a list in descending order of a key *)
Definition descending {A : Type} (key : A -> Z) : list A -> Prop :=
  StronglySorted (fun a b => key b <= key a).

(** The running state of [findComponentMatch] is settled when it holds
    no match at confidence 0, or a match at a confidence in ]0, 0.9]. *)
Definition settled (st : VisualCodeCorrelator.best) : Prop :=
  match VisualCodeCorrelator.bestMatch st with
  | None => (VisualCodeCorrelator.confidence st == 0)%Q
  | Some _ => (0 < VisualCodeCorrelator.confidence st
               /\ VisualCodeCorrelator.confidence st <= 9 # 10)%Q
  end.

(** The distance between the first [i] characters of [l2] and the first
    [j] characters of [l1], and the matrix that holds these distances
    once row [i] is filled up to column [j]: the rows above are complete
    and the rows below hold their first cell only. *)
Definition prefixDistance (l1 l2 : list ascii) (i j : nat) : Z :=
  Z.of_nat (lev (take i l2) (take j l1)).

Definition filledMatrix (l1 l2 : list ascii) (i j : nat) : Matrix.t :=
  List.map
    (fun k =>
       List.map (prefixDistance l1 l2 k)
         (seq 0 (if (k <? i)%nat then List.length l1 + 1
                 else if (k =? i)%nat then j + 1 else 1)))
    (seq 0 (List.length l2 + 1)).

(** While the usage graph is built: the map knows every component under
    its id at the component's own address, and the heap holds one array
    per component; arrays only grow. *)
Definition own_addresses (index : ProjectIndex.t) (g : gmap string Heap.loc) : Prop :=
  forall c i, In (c, i) (Loaded.objects index) -> g !! ComponentIndex.id c = Some i.

Definition grown (h h' : Heap.t) : Prop :=
  List.length h' = List.length h
  /\ forall a x, In x (Heap.read h a) -> In x (Heap.read h' a).

Definition stable (index : ProjectIndex.t) (st : gmap string Heap.loc * Heap.t) : Prop :=
  own_addresses index (fst st)
  /\ List.length (snd st) = List.length (ProjectIndex.components index).

Definition later (st st' : gmap string Heap.loc * Heap.t) : Prop :=
  grown (snd st) (snd st').

(** What a value becomes when it is written with [JSON.stringify] and
    read back with [JSON.parse]. *)
Definition reload (v : jsval) : option jsval :=
  option_map JSON.parse (JSON.stringify v).

(** A number is plain when it is finite and not the negative zero, and
    an index is persistable when its numbers are plain and its dates
    are valid: nothing in it is written as [null] or as another
    number. *)
Definition plain (x : JsNumber.t) : bool :=
  match x with JsNumber.Finite _ => true | _ => false end.

Definition plainBox (b : option Bounds.BoundingBox.t) : bool :=
  match b with
  | Some b =>
      plain (Bounds.BoundingBox.x b) && plain (Bounds.BoundingBox.y b)
      && plain (Bounds.BoundingBox.width b) && plain (Bounds.BoundingBox.height b)
  | None => true
  end.

Definition persistableComponent (c : ComponentIndex.t) : bool :=
  JsDate.valid (ComponentIndex.lastModified c)
  && plainBox (Bounds.desktop (ComponentIndex.bounds c))
  && plainBox (Bounds.tablet (ComponentIndex.bounds c))
  && plainBox (Bounds.mobile (ComponentIndex.bounds c)).

Definition persistable (index : ProjectIndex.t) : bool :=
  JsDate.valid (Metadata.lastIndexed (ProjectIndex.metadata index))
  && plain (Metadata.componentsCount (ProjectIndex.metadata index))
  && plain (Metadata.pagesCount (ProjectIndex.metadata index))
  && forallb persistableComponent (ProjectIndex.components index)
  && match ProjectIndex.embeddings index with
     | Some es =>
         forallb (fun e : string * Embedding.t =>
                    forallb plain (Embedding.visual (snd e))
                    && forallb plain (Embedding.semantic (snd e)))
                 es
     | None => true
     end.

(** what a match record on a field adds to the score *)
Definition fieldWeight (field : string) : Z :=
  if String.eqb field "name" then 10
  else if String.eqb field "description" then 5
  else if String.eqb field "sourceCode" then 2
  else 0.

(** the match record of one field, if the field contains the text *)
Definition fieldMatch (searchText : string) (field : string * string) : list Match.t :=
  let content := JsString.toLowerCase (snd field) in
  let index := JsString.indexOf content searchText in
  if negb (index =? -1) then
    let start := Z.max 0 (index - 50) in
    let end_ := Z.min (JsString.length content) (index + JsString.length searchText + 50) in
    [ Match.mk (fst field) (JsString.substring (snd field) start end_) (index - start)
               (index - start + JsString.length searchText) ]
  else [].

(** the components similar to a target, in index order, before they are
    sorted and capped *)
Definition similarTo
    (index : ProjectIndex.t) (target : ComponentIndex.t) (componentId : string)
    (type : SimilarityType) : list SimilarityResult.t :=
  List.map
    (fun c => SimilarityResult.mk c
                (default 0%Q (IndexSearchEngine.calculateSimilarityScore target c type)) type)
    (List.filter
       (fun c => (negb (String.eqb (ComponentIndex.id c) componentId)
                  && Qltb (1 # 10)
                       (default 0%Q
                          (IndexSearchEngine.calculateSimilarityScore target c type)))%bool)
       (ProjectIndex.components index)).

(** a page lists a name under which [find] returns the component whose
    array is at address [a] *)
Definition references (index : ProjectIndex.t) (page : PageIndex.t) (a : Heap.loc) : Prop :=
  exists name c,
    In name (PageIndex.components page)
    /\ List.find (fun c => String.eqb (ComponentIndex.name (fst c)) name)
                 (Loaded.objects index) = Some (c, a).

(** [h'] is [h] with, at the end of each array, ids of pages that
    reference its component, each one once and none that the array held *)
Definition appended (index : ProjectIndex.t) (h h' : Heap.t) : Prop :=
  List.length h' = List.length h
  /\ forall a, exists added,
       Heap.read h' a = Heap.read h a ++ added
       /\ List.NoDup added
       /\ forall x, In x added ->
            ~ In x (Heap.read h a)
            /\ exists page, In page (ProjectIndex.pages index)
                            /\ x = PageIndex.id page /\ references index page a.

(** The running state of [findComponentMatch] is sourced in an index
    when the match it holds, if any, is a component of the index and
    its reason names a strategy. *)
Definition sourced (index : ProjectIndex.t) (st : VisualCodeCorrelator.best) : Prop :=
  match VisualCodeCorrelator.bestMatch st with
  | None => True
  | Some c => In c (ProjectIndex.components index)
              /\ String.prefix "Matched by " (VisualCodeCorrelator.matchReason st) = true
  end.

(** the test of [extractRelevantCodeSnippet] on a source line *)
Definition isReturnLine (line : string) : bool :=
  JsString.includes (JsString.trim line) "return".

(** The running state of [findComponentMatch] is confident when the
    match it holds, if any, has a confidence of 0.1 at least. *)
Definition confident (st : VisualCodeCorrelator.best) : Prop :=
  match VisualCodeCorrelator.bestMatch st with
  | None => True
  | Some _ => (1 # 10 <= VisualCodeCorrelator.confidence st)%Q
  end.

(** the query of the text strategy and of the class strategy *)
Definition textQuery (s : string) : SearchQuery.t :=
  SearchQuery.mk (Some s) None None (Some any) None None None.

(** * Properties *)

(** ** Relevance scoring *)

Section ScoreFacts.
Import IndexSearchEngine.

Lemma fold_left_bump {A : Type} (p : A -> bool) (k : Z) (l : list A) (s : Z) :
  fold_left (fun s a => if p a then s + k else s) l s
  = s + k * Z.of_nat (List.length (List.filter p l)).
Proof.
  revert s; induction l as [|a l IH]; intros s; simpl.
  - lia.
  - rewrite IH. destruct (p a); simpl List.length; lia.
Qed.

Lemma textSearch_shift c q s : textSearch c q s = s + textSearch c q 0.
Proof.
  unfold textSearch. destruct (SearchQuery.text q) as [text|]; [|lia].
  destruct (JsString.truthy text); [|lia].
  cbv zeta. rewrite !fold_left_bump.
  repeat match goal with |- context [if ?b then _ else _] => destruct b end; lia.
Qed.

Lemma tagMatching_shift c q s : tagMatching c q s = s + tagMatching c q 0.
Proof.
  unfold tagMatching. destruct (SearchQuery.tags q); [|lia].
  destruct (0 <? _); lia.
Qed.

Lemma componentTypeFiltering_shift c q s :
  componentTypeFiltering c q s = s + componentTypeFiltering c q 0.
Proof.
  unfold componentTypeFiltering.
  destruct (SearchQuery.componentType q) as [[| |]|]; cbv zeta;
    repeat match goal with |- context [if ?b then _ else _] => destruct b end; lia.
Qed.

Lemma propsFiltering_shift c q s : propsFiltering c q s = s + propsFiltering c q 0.
Proof.
  unfold propsFiltering. destruct (SearchQuery.hasProps q); cbv zeta; [|lia].
  destruct (Bool.eqb _ _); lia.
Qed.

Lemma sideEffectsFiltering_shift c q s :
  sideEffectsFiltering c q s = s + sideEffectsFiltering c q 0.
Proof.
  unfold sideEffectsFiltering. destruct (SearchQuery.hasSideEffects q); cbv zeta; [|lia].
  destruct (Bool.eqb _ _); lia.
Qed.

Lemma usageFiltering_shift c q s : usageFiltering c q s = s + usageFiltering c q 0.
Proof.
  unfold usageFiltering. destruct (SearchQuery.usedIn q); [|lia].
  destruct (0 <? _); lia.
Qed.

(** The score is the sum of the six signals, floored at 0. *)
Lemma calculateRelevanceScore_sum c q :
  calculateRelevanceScore c q
  = Z.max 0 (textSearch c q 0 + tagMatching c q 0 + componentTypeFiltering c q 0
             + propsFiltering c q 0 + sideEffectsFiltering c q 0 + usageFiltering c q 0).
Proof.
  unfold calculateRelevanceScore; cbv zeta.
  rewrite usageFiltering_shift, sideEffectsFiltering_shift, propsFiltering_shift,
    componentTypeFiltering_shift, tagMatching_shift.
  f_equal; lia.
Qed.

Lemma calculateRelevanceScore_nonneg c q : 0 <= calculateRelevanceScore c q.
Proof. unfold calculateRelevanceScore; cbv zeta; lia. Qed.

Lemma calculateRelevanceScore_empty c :
  calculateRelevanceScore c SearchQuery.empty = 0.
Proof. reflexivity. Qed.

Lemma filter_length_mono {A : Type} (p q : A -> bool) (l : list A) :
  (forall a, p a = true -> q a = true) ->
  (List.length (List.filter p l) <= List.length (List.filter q l))%nat.
Proof.
  intros Hpq; induction l as [|a l IH]; simpl; [lia|].
  destruct (p a) eqn:Hp.
  - rewrite (Hpq _ Hp); simpl; lia.
  - destruct (q a); simpl; lia.
Qed.

Lemma Array_includes_app l1 l2 x :
  Array_includes (l1 ++ l2) x = (Array_includes l1 x || Array_includes l2 x)%bool.
Proof. unfold Array_includes. apply existsb_app. Qed.

Lemma tagMatching_addTag c q t : tagMatching c q 0 <= tagMatching c (SearchQuery.addTag q t) 0.
Proof.
  unfold tagMatching, SearchQuery.addTag; simpl.
  destruct (SearchQuery.tags q) as [qtags|]; simpl.
  - replace (0 <? Z.of_nat (List.length (qtags ++ [t]))) with true
      by (symmetry; apply Z.ltb_lt; rewrite length_app; simpl; lia).
    destruct (0 <? _); [|lia].
    pose proof (filter_length_mono
                  (fun tag => Array_includes qtags tag)
                  (fun tag => Array_includes (qtags ++ [t]) tag)
                  (ComponentIndex.tags c)) as H.
    cbv beta in H.
    assert (forall a, Array_includes qtags a = true -> Array_includes (qtags ++ [t]) a = true)
      as Hsub by (intros a Ha; rewrite Array_includes_app, Ha; reflexivity).
    specialize (H Hsub). lia.
  - lia.
Qed.

End ScoreFacts.

(** ** Sorting by a key, highest first *)

Section SortFacts.
Context {A : Type} (key : A -> Z).

Local Abbreviation byKey := (fun a b : A => key b - key a).

Lemma sort_insert_perm (a : A) (l : list A) :
  Permutation (a :: l) (sort_insert byKey a l).
Proof.
  induction l as [|b l IH]; simpl; [reflexivity|].
  destruct (key b - key a <=? 0); [reflexivity|].
  rewrite perm_swap. apply perm_skip, IH.
Qed.

Lemma Array_sort_perm (l : list A) : Permutation l (Array_sort byKey l).
Proof.
  induction l as [|a l IH]; simpl; [reflexivity|].
  rewrite <- sort_insert_perm. apply perm_skip, IH.
Qed.

Lemma sort_insert_descending (a : A) (l : list A) :
  descending key l -> descending key (sort_insert byKey a l).
Proof.
  unfold descending.
  induction l as [|b l IH]; intros Hs; simpl.
  - constructor; [constructor|constructor].
  - apply StronglySorted_inv in Hs as [Hl Hb].
    destruct (key b - key a <=? 0) eqn:E.
    + apply Z.leb_le in E.
      constructor; [constructor; assumption|].
      constructor; [lia|].
      eapply Forall_impl; [exact Hb|]. cbv beta; intros; lia.
    + apply Z.leb_gt in E.
      constructor; [apply IH, Hl|].
      apply (Permutation_Forall (sort_insert_perm a l)).
      constructor; [lia|exact Hb].
Qed.

Lemma Array_sort_descending (l : list A) : descending key (Array_sort byKey l).
Proof.
  induction l as [|a l IH]; simpl.
  - constructor.
  - apply sort_insert_descending, IH.
Qed.

(** Stability: the elements of one key keep the order they had. *)
Lemma sort_insert_filter_key (v : Z) (a : A) (l : list A) :
  List.filter (fun x => key x =? v) (sort_insert byKey a l)
  = List.filter (fun x => key x =? v) (a :: l).
Proof.
  induction l as [|b l IH]; simpl; [reflexivity|].
  destruct (key b - key a <=? 0) eqn:E; [reflexivity|].
  apply Z.leb_gt in E.
  simpl. rewrite IH. simpl.
  destruct (key a =? v) eqn:Ea; [|reflexivity].
  apply Z.eqb_eq in Ea.
  replace (key b =? v) with false by (symmetry; apply Z.eqb_neq; lia).
  reflexivity.
Qed.

Lemma Array_sort_stable (v : Z) (l : list A) :
  List.filter (fun x => key x =? v) (Array_sort byKey l)
  = List.filter (fun x => key x =? v) l.
Proof.
  induction l as [|a l IH]; simpl; [reflexivity|].
  rewrite sort_insert_filter_key. simpl. rewrite IH. reflexivity.
Qed.

End SortFacts.

(** ** Search results *)

Section SearchFacts.
Import IndexSearchEngine.

Lemma searchComponents_unfold index query :
  searchComponents index query
  = Array_sort (fun a b => SearchResult.relevanceScore b - SearchResult.relevanceScore a)
               (unsorted index query).
Proof.
  unfold searchComponents, unsorted. cbv zeta. f_equal.
  enough (forall cs acc,
    fold_left
      (fun results component =>
         if 0 <? calculateRelevanceScore component query
         then results ++ [SearchResult.mk component (calculateRelevanceScore component query)
                                          (findMatches component query)]
         else results) cs acc
    = acc ++ List.map
               (fun c => SearchResult.mk c (calculateRelevanceScore c query) (findMatches c query))
               (List.filter (fun c => 0 <? calculateRelevanceScore c query) cs)) as H
    by apply (H _ []).
  induction cs as [|c cs IH]; intros acc; simpl.
  - rewrite app_nil_r; reflexivity.
  - destruct (0 <? calculateRelevanceScore c query); simpl.
    + rewrite IH, <- app_assoc. reflexivity.
    + apply IH.
Qed.

Lemma unsorted_positive index query :
  Forall (fun r => SearchResult.relevanceScore r
                   = calculateRelevanceScore (SearchResult.component r) query
                   /\ 0 < SearchResult.relevanceScore r)
         (unsorted index query).
Proof.
  unfold unsorted. apply List.Forall_forall. intros r Hr.
  apply in_map_iff in Hr as (c & <- & Hc).
  apply filter_In in Hc as [_ Hc]. apply Z.ltb_lt in Hc. simpl. auto.
Qed.

Lemma searchComponents_positive index query :
  Forall (fun r => SearchResult.relevanceScore r
                   = calculateRelevanceScore (SearchResult.component r) query
                   /\ 0 < SearchResult.relevanceScore r)
         (searchComponents index query).
Proof.
  rewrite searchComponents_unfold.
  eapply Permutation_Forall; [apply Array_sort_perm|].
  apply unsorted_positive.
Qed.

End SearchFacts.

Section SearchClaims.
Import IndexSearchEngine.

Lemma filter_key_unsorted index query v :
  List.map SearchResult.component
    (List.filter (fun r => SearchResult.relevanceScore r =? v) (unsorted index query))
  = List.filter
      (fun c => (0 <? calculateRelevanceScore c query)
                && (calculateRelevanceScore c query =? v))%bool
      (ProjectIndex.components index).
Proof.
  unfold unsorted.
  induction (ProjectIndex.components index) as [|c cs IH]; simpl; [reflexivity|].
  destruct (0 <? calculateRelevanceScore c query); simpl; [|exact IH].
  destruct (calculateRelevanceScore c query =? v); simpl; [f_equal|]; exact IH.
Qed.

(** C4. For every query and every index, [searchComponents] returns its
    results in descending order of [relevanceScore], and the results of
    one score are, in this order, the components of the index that have
    that score: results of equal score keep the relative order of their
    components in the index (the sort is stable). *)
Theorem searchComponents_sorted_stable (index : ProjectIndex.t) (query : SearchQuery.t) :
  StronglySorted
    (fun a b => SearchResult.relevanceScore b <= SearchResult.relevanceScore a)
    (searchComponents index query)
  /\ forall v : Z,
       List.map SearchResult.component
         (List.filter (fun r => SearchResult.relevanceScore r =? v)
                      (searchComponents index query))
       = List.filter
           (fun c => (0 <? calculateRelevanceScore c query)
                     && (calculateRelevanceScore c query =? v))%bool
           (ProjectIndex.components index).
Proof.
  rewrite searchComponents_unfold. split.
  - apply (Array_sort_descending SearchResult.relevanceScore).
  - intros v.
    rewrite (Array_sort_stable SearchResult.relevanceScore).
    apply filter_key_unsorted.
Qed.

Lemma unsorted_nil index query :
  Forall (fun c => calculateRelevanceScore c query = 0) (ProjectIndex.components index) ->
  unsorted index query = [].
Proof.
  unfold unsorted.
  induction (ProjectIndex.components index) as [|c cs IH]; intros H; [reflexivity|].
  apply Forall_cons in H as [Hc Hcs]. simpl. rewrite Hc. simpl. apply IH, Hcs.
Qed.

Lemma In_unsorted index query c :
  In c (List.map SearchResult.component (unsorted index query))
  <-> In c (ProjectIndex.components index) /\ 0 < calculateRelevanceScore c query.
Proof.
  unfold unsorted. rewrite List.map_map. simpl. rewrite List.map_id.
  rewrite filter_In, Z.ltb_lt. reflexivity.
Qed.

(** C10. Every result of [searchComponents] carries the score of its
    component and that score is strictly positive; a component is among
    the results exactly when it is in the index with a positive score,
    so that a query on which every component scores 0 -- the empty
    query for one -- returns no result at all. *)
Theorem searchComponents_omits_zero (index : ProjectIndex.t) (query : SearchQuery.t) :
  Forall (fun r => SearchResult.relevanceScore r
                   = calculateRelevanceScore (SearchResult.component r) query
                   /\ 0 < SearchResult.relevanceScore r)
         (searchComponents index query)
  /\ (forall c, In c (List.map SearchResult.component (searchComponents index query))
                <-> In c (ProjectIndex.components index)
                    /\ 0 < calculateRelevanceScore c query)
  /\ (Forall (fun c => calculateRelevanceScore c query = 0) (ProjectIndex.components index)
      -> searchComponents index query = [])
  /\ searchComponents index SearchQuery.empty = [].
Proof.
  split; [apply searchComponents_positive|]. split; [|split].
  - intros c. rewrite searchComponents_unfold.
    pose proof (Permutation_map SearchResult.component
                  (Array_sort_perm SearchResult.relevanceScore (unsorted index query))) as HP.
    rewrite <- (In_unsorted index query c).
    split; intros Hin.
    + apply (Permutation_in _ (Permutation_sym HP)), Hin.
    + apply (Permutation_in _ HP), Hin.
  - intros H. rewrite searchComponents_unfold, unsorted_nil by exact H. reflexivity.
  - rewrite searchComponents_unfold, unsorted_nil; [reflexivity|].
    apply List.Forall_forall. intros c _. apply calculateRelevanceScore_empty.
Qed.

Lemma searchComponents_omits_zero_witness :
  Forall (fun c => calculateRelevanceScore c (SearchQuery.ofText "dropdown") = 0)
         (ProjectIndex.components Sample.index)
  /\ searchComponents Sample.index (SearchQuery.ofText "dropdown") = [].
Proof.
  assert (Forall (fun c => calculateRelevanceScore c (SearchQuery.ofText "dropdown") = 0)
                 (ProjectIndex.components Sample.index)) as H
    by (repeat constructor).
  split; [exact H|].
  exact (proj1 (proj2 (proj2
           (searchComponents_omits_zero Sample.index (SearchQuery.ofText "dropdown")))) H).
Defined.

(** C7. Adding to [query.tags] a tag that the component possesses never
    decreases the relevance score of the component. *)
Theorem addTag_monotone (c : ComponentIndex.t) (query : SearchQuery.t) (t : string) :
  In t (ComponentIndex.tags c) ->
  calculateRelevanceScore c query <= calculateRelevanceScore c (SearchQuery.addTag query t).
Proof.
  intros _. rewrite !calculateRelevanceScore_sum.
  pose proof (tagMatching_addTag c query t).
  assert (textSearch c (SearchQuery.addTag query t) 0 = textSearch c query 0)
    as -> by reflexivity.
  assert (componentTypeFiltering c (SearchQuery.addTag query t) 0
          = componentTypeFiltering c query 0) as -> by reflexivity.
  assert (propsFiltering c (SearchQuery.addTag query t) 0 = propsFiltering c query 0)
    as -> by reflexivity.
  assert (sideEffectsFiltering c (SearchQuery.addTag query t) 0
          = sideEffectsFiltering c query 0) as -> by reflexivity.
  assert (usageFiltering c (SearchQuery.addTag query t) 0 = usageFiltering c query 0)
    as -> by reflexivity.
  lia.
Qed.

Lemma addTag_monotone_witness :
  calculateRelevanceScore Sample.submitButton (SearchQuery.ofText "button")
  <= calculateRelevanceScore Sample.submitButton
       (SearchQuery.addTag (SearchQuery.ofText "button") "interactive").
Proof.
  apply (addTag_monotone Sample.submitButton (SearchQuery.ofText "button") "interactive").
  simpl. left. reflexivity.
Defined.

End SearchClaims.

(** ** The SubmitButton scenario *)

Section SubmitButton.
Import IndexSearchEngine.

Lemma indexOf_includes s sub : negb (JsString.indexOf s sub =? -1) = JsString.includes s sub.
Proof.
  unfold JsString.indexOf, JsString.includes.
  destruct (String.index 0 sub s) as [i|]; [|reflexivity].
  apply negb_true_iff, Z.eqb_neq. lia.
Qed.

(** C2, as the specification states it, fails: the description
    "SubmitButton component" contains "button" too, so that the score is
    at least 15 and there are at least two match records. *)
Lemma submitButton_scenario_counterexample :
  ~ (forall c : ComponentIndex.t,
       ComponentIndex.name c = "SubmitButton" ->
       ComponentIndex.description c = "SubmitButton component" ->
       JsString.includes (ComponentIndex.sourceCode c) "onClick" = true ->
       In "interactive" (ComponentIndex.tags c) ->
       calculateRelevanceScore c (SearchQuery.ofText "button") = 10
       /\ List.map Match.field (findMatches c (SearchQuery.ofText "button")) = ["name"]).
Proof.
  intros H.
  destruct (H Sample.submitButton eq_refl eq_refl eq_refl (or_introl eq_refl)) as [H10 _].
  vm_compute in H10. discriminate H10.
Qed.

(** C2, amended.  For a component named "SubmitButton" with description
    "SubmitButton component" whose source uses onClick (tag
    'interactive'), the query [{text:"button"}] scores 10 for the name
    and 5 for the description, plus 2 when the source text contains
    "button" and 3 for each prop whose name or type does; the match
    records are on 'name' and on 'description', followed by one on
    'sourceCode' when the source text contains "button". *)
Theorem submitButton_scenario (c : ComponentIndex.t) :
  ComponentIndex.name c = "SubmitButton" ->
  ComponentIndex.description c = "SubmitButton component" ->
  JsString.includes (ComponentIndex.sourceCode c) "onClick" = true ->
  In "interactive" (ComponentIndex.tags c) ->
  calculateRelevanceScore c (SearchQuery.ofText "button")
  = 15
    + (if JsString.includes (JsString.toLowerCase (ComponentIndex.sourceCode c)) "button"
       then 2 else 0)
    + 3 * propMatches c "button"
  /\ List.map Match.field (findMatches c (SearchQuery.ofText "button"))
     = "name" :: "description"
         :: (if JsString.includes (JsString.toLowerCase (ComponentIndex.sourceCode c)) "button"
             then ["sourceCode"] else []).
Proof.
  intros Hname Hdesc _ _. split.
  - rewrite calculateRelevanceScore_sum.
    unfold textSearch, tagMatching, componentTypeFiltering, propsFiltering,
      sideEffectsFiltering, usageFiltering, SearchQuery.ofText, propMatches.
    cbn [SearchQuery.text SearchQuery.tags SearchQuery.componentType SearchQuery.hasProps
         SearchQuery.hasSideEffects SearchQuery.usedIn JsString.truthy].
    cbv zeta.
    change (JsString.toLowerCase "button") with "button".
    rewrite Hname, Hdesc.
    change (JsString.includes (JsString.toLowerCase "SubmitButton") "button") with true.
    change (JsString.includes (JsString.toLowerCase "SubmitButton component") "button")
      with true.
    cbv iota. rewrite fold_left_bump.
    destruct (JsString.includes (JsString.toLowerCase (ComponentIndex.sourceCode c)) "button");
      lia.
  - unfold findMatches, SearchQuery.ofText.
    cbn [SearchQuery.text JsString.truthy negb].
    change (JsString.toLowerCase "button") with "button".
    cbv zeta. unfold fold_left, fst, snd.
    rewrite !indexOf_includes, Hname, Hdesc.
    change (JsString.includes (JsString.toLowerCase "SubmitButton") "button") with true.
    change (JsString.includes (JsString.toLowerCase "SubmitButton component") "button")
      with true.
    cbv iota.
    destruct (JsString.includes (JsString.toLowerCase (ComponentIndex.sourceCode c)) "button");
      reflexivity.
Qed.

Lemma submitButton_scenario_witness :
  calculateRelevanceScore Sample.submitButton (SearchQuery.ofText "button") = 15
  /\ List.map Match.field (findMatches Sample.submitButton (SearchQuery.ofText "button"))
     = ["name"; "description"].
Proof.
  exact (submitButton_scenario Sample.submitButton eq_refl eq_refl eq_refl
           (or_introl eq_refl)).
Defined.

End SubmitButton.

(** ** The correlator *)

Section CorrelatorFacts.
Import VisualCodeCorrelator.

(** C9. A visual element of 30 by 30 pixels whose styles carry no font
    size and no equal colour/background pair gets exactly one responsive
    issue, the touch-target one. *)
Theorem touch_target_30 (searchEngine : option ProjectIndex.t) (el : VisualElement.t) :
  BoundingBox.width (VisualElement.bounds el) = 30 ->
  BoundingBox.height (VisualElement.bounds el) = 30 ->
  ElementStyles.fontSize (VisualElement.styles el) = None ->
  (forall colour, ElementStyles.color (VisualElement.styles el) = Some colour ->
                  ElementStyles.backgroundColor (VisualElement.styles el) <> Some colour) ->
  analyzeResponsiveIssues el = ["Touch target too small: 30x30px (minimum 44x44px)"]
  /\ VisualCodeCorrelation.responsiveIssues (correlateElement searchEngine el)
     = ["Touch target too small: 30x30px (minimum 44x44px)"].
Proof.
  intros Hw Hh Hf Hc.
  assert (analyzeResponsiveIssues el
          = ["Touch target too small: 30x30px (minimum 44x44px)"]) as H.
  { unfold analyzeResponsiveIssues. rewrite Hw, Hh, Hf. simpl.
    destruct (ElementStyles.color (VisualElement.styles el)) as [c|]; [|reflexivity].
    destruct (ElementStyles.backgroundColor (VisualElement.styles el)) as [b|];
      [|reflexivity].
    destruct (JsString.truthy c && JsString.truthy b)%bool; [|reflexivity].
    destruct (String.eqb_spec c b) as [->|]; [|reflexivity].
    exfalso; apply (Hc b); reflexivity. }
  split; [exact H|]. unfold correlateElement. simpl. exact H.
Qed.

Lemma touch_target_30_witness :
  VisualCodeCorrelation.responsiveIssues
    (correlateElement (Some Sample.index)
       (VisualElement.mk "button.send" "Send" (BoundingBox.mk 12 40 30 30) "button" "btn"
          "send" (Attributes.mk None None None None)
          (ElementStyles.mk None None (Some "rgb(0, 0, 0)") (Some "rgb(255, 255, 255)")
             None None None None None None) 0))
  = ["Touch target too small: 30x30px (minimum 44x44px)"].
Proof.
  apply touch_target_30; [reflexivity|reflexivity|reflexivity|].
  simpl. intros colour H. injection H as <-. discriminate.
Defined.

Lemma Qmin_confidence (s : Z) (k cap : Q) :
  0 < s -> (0 < k)%Q -> (0 < cap)%Q -> (cap <= 9 # 10)%Q ->
  (0 < Qmin (inject_Z s / k) cap /\ Qmin (inject_Z s / k) cap <= 9 # 10)%Q.
Proof.
  intros Hs Hk Hcap Hle. split.
  - apply Q.min_glb_lt; [|exact Hcap].
    apply Qlt_shift_div_l; [exact Hk|].
    rewrite Qmult_0_l. change 0%Q with (inject_Z 0). rewrite <- Zlt_Qlt. exact Hs.
  - eapply Qle_trans; [apply Q.le_min_r|exact Hle].
Qed.

Lemma top_positive index query top rest :
  IndexSearchEngine.searchComponents index query = top :: rest ->
  0 < SearchResult.relevanceScore top.
Proof.
  intros H. pose proof (searchComponents_positive index query) as HF.
  rewrite H in HF. apply Forall_cons in HF as [[_ Hpos] _]. exact Hpos.
Qed.

Lemma settled_update c (s : Z) (k cap : Q) reason :
  0 < s -> (0 < k)%Q -> (0 < cap)%Q -> (cap <= 9 # 10)%Q ->
  settled (mkBest (Some c) (Qmin (inject_Z s / k) cap) reason).
Proof. intros; unfold settled; simpl. apply Qmin_confidence; assumption. Qed.

Lemma searchByText_settled index el st : settled st -> settled (searchByText index el st).
Proof.
  intros Hst. unfold searchByText.
  destruct (_ && _)%bool; [|exact Hst]. cbv zeta.
  destruct (IndexSearchEngine.searchComponents index _) as [|top rest] eqn:E; [exact Hst|].
  apply settled_update; [eapply top_positive; exact E|reflexivity..|discriminate].
Qed.

Lemma searchByType_settled index el st : settled st -> settled (searchByType index el st).
Proof.
  intros Hst. unfold searchByType.
  destruct (_ || _)%bool; [|exact Hst]. cbv zeta.
  destruct (IndexSearchEngine.searchComponents index _) as [|top rest] eqn:E; [exact Hst|].
  destruct (5 <? SearchResult.relevanceScore top) eqn:E5; [|exact Hst].
  destruct (_ || _)%bool; [|exact Hst].
  apply Z.ltb_lt in E5.
  apply settled_update; [lia|reflexivity..|discriminate].
Qed.

Lemma searchByClasses_settled index el st :
  settled st -> settled (searchByClasses index el st).
Proof.
  intros Hst. unfold searchByClasses.
  destruct (_ && _)%bool; [|exact Hst]. cbv zeta.
  revert st Hst.
  induction (List.filter _ _) as [|className classNames IH]; intros st Hst; simpl;
    [exact Hst|].
  apply IH.
  destruct (IndexSearchEngine.searchComponents index _) as [|top rest] eqn:E; [exact Hst|].
  destruct (3 <? SearchResult.relevanceScore top) eqn:E3; [|exact Hst].
  destruct (_ || _)%bool; [|exact Hst].
  apply Z.ltb_lt in E3.
  apply settled_update; [lia|reflexivity..|discriminate].
Qed.

(** C3. The confidence of the correlation that the matching strategies
    produce lies in [0, 0.9]; it is 0 exactly when [sourceComponent] is
    null; and when the text strategy runs and its top result has raw
    score 16, the confidence is min(16/20, 0.8) = 0.8. *)
Theorem confidence_range (index : ProjectIndex.t) (el : VisualElement.t) :
  let r := findComponentMatch (Some index) el in
  (0 <= VisualCodeCorrelation.confidence r /\ VisualCodeCorrelation.confidence r <= 9 # 10)%Q
  /\ ((VisualCodeCorrelation.confidence r == 0)%Q
      <-> VisualCodeCorrelation.sourceComponent r = None)
  /\ (forall top rest,
        JsString.truthy (VisualElement.text el) = true ->
        2 < JsString.length (VisualElement.text el) ->
        IndexSearchEngine.searchComponents index
          (SearchQuery.mk (Some (VisualElement.text el)) None None (Some any) None None None)
        = top :: rest ->
        SearchResult.relevanceScore top = 16 ->
        (VisualCodeCorrelation.confidence r == Qmin (16 / 20) (8 # 10))%Q
        /\ (VisualCodeCorrelation.confidence r == 8 # 10)%Q).
Proof.
  cbv zeta. unfold findComponentMatch. cbv zeta. simpl.
  split; [|split].
  - assert (settled (searchByClasses index el (searchByType index el
              (searchByText index el (mkBest None 0 EmptyString))))) as H
      by (apply searchByClasses_settled, searchByType_settled, searchByText_settled;
          unfold settled; simpl; reflexivity).
    unfold settled in H.
    destruct (bestMatch _).
    + destruct H as [H0 H9]. split; [apply Qlt_le_weak, H0|exact H9].
    + rewrite H. split; discriminate.
  - assert (settled (searchByClasses index el (searchByType index el
              (searchByText index el (mkBest None 0 EmptyString))))) as H
      by (apply searchByClasses_settled, searchByType_settled, searchByText_settled;
          unfold settled; simpl; reflexivity).
    unfold settled in H.
    destruct (bestMatch _).
    + destruct H as [H0 _]. split; [|discriminate].
      intros Hz. rewrite Hz in H0. discriminate H0.
    + split; [reflexivity|intros _; exact H].
  - intros top rest Ht Hl Hs H16.
    assert (searchByText index el (mkBest None 0 EmptyString)
            = mkBest (Some (SearchResult.component top))
                     (Qmin (inject_Z 16 / 20) (8 # 10))
                     ("Matched by text content: " +:+ quote
                        +:+ VisualElement.text el +:+ quote)) as E1.
    { unfold searchByText. rewrite Ht. apply Z.ltb_lt in Hl. rewrite Hl. simpl.
      rewrite Hs, H16. reflexivity. }
    rewrite E1.
    unfold searchByType. simpl bestMatch. simpl confidence.
    change (negb (is_some (Some (SearchResult.component top)))
            || Qltb (Qmin (inject_Z 16 / 20) (8 # 10)) (5 # 10))%bool with false.
    cbv iota.
    unfold searchByClasses. simpl bestMatch. simpl confidence.
    change ((negb (is_some (Some (SearchResult.component top)))
             || Qltb (Qmin (inject_Z 16 / 20) (8 # 10)) (6 # 10))
            && JsString.truthy (VisualElement.className el))%bool with false.
    cbv iota. simpl confidence. split; reflexivity.
Qed.

Lemma confidence_range_witness :
  2 < JsString.length (VisualElement.text (Sample.element "Login" EmptyString 30 30))
  /\ (VisualCodeCorrelation.confidence
        (findComponentMatch (Some Sample.index) (Sample.element "Login" EmptyString 30 30))
      == 8 # 10)%Q.
Proof.
  split; [reflexivity|].
  pose proof (confidence_range Sample.index (Sample.element "Login" EmptyString 30 30)) as H.
  cbv zeta in H. destruct H as (_ & _ & H).
  eapply H; [reflexivity | reflexivity | cbv; reflexivity | reflexivity].
Defined.

End CorrelatorFacts.

(** ** Edit distance *)

Section EditFacts.
Context {A : Type} `{EqDecision A}.
Implicit Types (s t : list A) (a b : A).

Lemma lev_nil_l t : lev [] t = List.length t.
Proof. destruct t; reflexivity. Qed.

Lemma lev_nil_r s : lev s [] = List.length s.
Proof. destruct s; reflexivity. Qed.

Lemma lev_cons a b s t :
  lev (a :: s) (b :: t)
  = Nat.min (Nat.min (lev s t + (if decide (a = b) then 0 else 1)) (lev (a :: s) t + 1))
            (lev s (b :: t) + 1).
Proof. reflexivity. Qed.

Lemma edits_deletes s : edits s [] (List.length s).
Proof. induction s; simpl; constructor; assumption. Qed.

Lemma edits_inserts t : edits [] t (List.length t).
Proof. induction t; simpl; constructor; assumption. Qed.

(** [lev s t] edits are enough ... *)
Lemma edits_lev s t : edits s t (lev s t).
Proof.
  revert t; induction s as [|a s IHs]; intros t.
  - rewrite lev_nil_l. apply edits_inserts.
  - induction t as [|b t IHt].
    + rewrite lev_nil_r. apply edits_deletes.
    + rewrite lev_cons.
      destruct (Nat.min_spec (lev s t + (if decide (a = b) then 0 else 1))
                             (lev (a :: s) t + 1)) as [[_ E1]|[_ E1]];
        rewrite E1; clear E1;
        match goal with |- edits _ _ (Nat.min ?x ?y) =>
          destruct (Nat.min_spec x y) as [[_ E2]|[_ E2]]; rewrite E2; clear E2 end.
      * destruct (decide (a = b)) as [->|_].
        -- rewrite Nat.add_0_r. apply edits_keep, IHs.
        -- rewrite Nat.add_1_r. apply edits_subst, IHs.
      * rewrite Nat.add_1_r. apply edits_delete, IHs.
      * rewrite Nat.add_1_r. apply edits_insert, IHt.
      * rewrite Nat.add_1_r. apply edits_delete, IHs.
Qed.

(** ... and no alignment uses fewer. *)
Lemma lev_least s t n : edits s t n -> (lev s t <= n)%nat.
Proof.
  induction 1 as [|a s t n _ IH|a b s t n _ IH|a s t n _ IH|b s t n _ IH].
  - simpl; lia.
  - rewrite lev_cons. destruct (decide (a = a)); [lia|congruence].
  - rewrite lev_cons. destruct (decide (a = b)); lia.
  - destruct t as [|b t].
    + rewrite lev_nil_r in *. simpl; lia.
    + rewrite lev_cons. lia.
  - destruct s as [|a s].
    + rewrite lev_nil_l in *. simpl; lia.
    + rewrite lev_cons. lia.
Qed.

Lemma edits_sym s t n : edits s t n -> edits t s n.
Proof. induction 1; constructor; assumption. Qed.

Lemma edits_app s t n s' t' m :
  edits s t n -> edits s' t' m -> edits (s ++ s') (t ++ t') (n + m).
Proof. intros H H'; induction H; simpl; [assumption|constructor; assumption..]. Qed.

Lemma edits_rev s t n : edits s t n -> edits (List.rev s) (List.rev t) n.
Proof.
  induction 1 as [|a s t n _ IH|a b s t n _ IH|a s t n _ IH|b s t n _ IH]; simpl.
  - constructor.
  - rewrite <- (Nat.add_0_r n). apply edits_app; [exact IH|repeat constructor].
  - rewrite <- Nat.add_1_r. apply edits_app; [exact IH|repeat constructor].
  - rewrite <- Nat.add_1_r, <- (app_nil_r (List.rev t)).
    apply edits_app; [exact IH|repeat constructor].
  - rewrite <- Nat.add_1_r, <- (app_nil_r (List.rev s)).
    apply edits_app; [exact IH|repeat constructor].
Qed.

Lemma lev_sym s t : lev s t = lev t s.
Proof.
  apply Nat.le_antisymm; apply lev_least, edits_sym, edits_lev.
Qed.

Lemma lev_rev s t : lev (List.rev s) (List.rev t) = lev s t.
Proof.
  apply Nat.le_antisymm.
  - apply lev_least, edits_rev, edits_lev.
  - rewrite <- (rev_involutive s), <- (rev_involutive t) at 1.
    apply lev_least, edits_rev, edits_lev.
Qed.

Lemma edits_uncons u t n :
  edits u t n -> forall a s, u = a :: s -> exists m, (m <= S n)%nat /\ edits s t m.
Proof.
  induction 1 as [|a' s' t n H _|a' b s' t n H _|a' s' t n H _|b s' t n H IH];
    intros a s E.
  - discriminate.
  - injection E as -> ->. exists (S n). split; [lia|]. apply edits_insert, H.
  - injection E as -> ->. exists (S n). split; [lia|]. apply edits_insert, H.
  - injection E as -> ->. exists n. split; [lia|exact H].
  - destruct (IH a s E) as (m & Hm & Hed).
    exists (S m). split; [lia|]. apply edits_insert, Hed.
Qed.

Lemma lev_uncons_l a s t : (lev s t <= S (lev (a :: s) t))%nat.
Proof.
  destruct (edits_uncons _ _ _ (edits_lev (a :: s) t) a s eq_refl) as (m & Hm & Hed).
  apply lev_least in Hed. lia.
Qed.

Lemma lev_uncons_r b s t : (lev s t <= S (lev s (b :: t)))%nat.
Proof. rewrite (lev_sym s t), (lev_sym s (b :: t)). apply lev_uncons_l. Qed.

(** The recurrence in the form the code uses: equal characters take the
    diagonal, different ones one more than the least neighbour. *)
Lemma lev_cons_code a b s t :
  lev (a :: s) (b :: t)
  = if decide (a = b) then lev s t
    else S (Nat.min (Nat.min (lev s t) (lev (a :: s) t)) (lev s (b :: t))).
Proof.
  rewrite lev_cons. destruct (decide (a = b)) as [->|_]; [|lia].
  pose proof (lev_uncons_l b s t). pose proof (lev_uncons_r b s t). lia.
Qed.

Lemma lev_snoc_code a b s t :
  lev (s ++ [a]) (t ++ [b])
  = if decide (a = b) then lev s t
    else S (Nat.min (Nat.min (lev s t) (lev (s ++ [a]) t)) (lev s (t ++ [b]))).
Proof.
  rewrite <- (lev_rev (s ++ [a]) (t ++ [b])), !rev_unit, lev_cons_code.
  rewrite (lev_rev s t).
  replace (lev (a :: List.rev s) (List.rev t)) with (lev (s ++ [a]) t)
    by (rewrite <- (lev_rev (s ++ [a]) t), rev_unit; reflexivity).
  replace (lev (List.rev s) (b :: List.rev t)) with (lev s (t ++ [b]))
    by (rewrite <- (lev_rev s (t ++ [b])), rev_unit; reflexivity).
  reflexivity.
Qed.

Lemma lev_refl s : lev s s = 0%nat.
Proof.
  apply Nat.le_antisymm; [|lia]. apply lev_least.
  induction s; constructor; assumption.
Qed.

End EditFacts.

(** ** The distance matrix *)

Lemma for_each_chain {S : Type} (body : nat -> S -> option S) (F : nat -> S) (a n : nat) :
  (forall k, (k < n)%nat -> body (a + k)%nat (F k) = Some (F (Datatypes.S k))) ->
  for_each (seq a n) body (F 0%nat) = Some (F n).
Proof.
  revert a F; induction n as [|n IH]; intros a F H; simpl; [reflexivity|].
  rewrite <- (Nat.add_0_r a) at 1. rewrite (H 0%nat) by lia.
  apply (IH (Datatypes.S a) (fun k => F (Datatypes.S k))).
  intros k Hk. rewrite <- (H (Datatypes.S k)) by lia. f_equal. lia.
Qed.

Lemma map_lookup {A B : Type} (f : A -> B) (l : list A) (i : nat) :
  List.map f l !! i = f <$> (l !! i).
Proof. revert i; induction l; intros [|i]; simpl; auto. Qed.

Lemma get_ascii (s : string) (n : nat) : String.get n s = list_ascii_of_string s !! n.
Proof. revert n; induction s; intros [|n]; simpl; auto. Qed.

Lemma length_ascii (s : string) : List.length (list_ascii_of_string s) = String.length s.
Proof. induction s; simpl; congruence. Qed.

Section MatrixFacts.
Variables l1 l2 : list ascii.

Local Abbreviation D := (prefixDistance l1 l2).
Local Abbreviation M := (filledMatrix l1 l2).
Local Abbreviation width i j k :=
  (if (k <? i)%nat then List.length l1 + 1 else if (k =? i)%nat then j + 1 else 1)%nat.

Lemma filledMatrix_lookup i j k :
  (k <= List.length l2)%nat ->
  M i j !! k = Some (List.map (D k) (seq 0 (width i j k))).
Proof.
  intros Hk. unfold filledMatrix. rewrite map_lookup, lookup_seq_lt by lia.
  reflexivity.
Qed.

Lemma filledMatrix_lookup_ge i j k :
  (List.length l2 < k)%nat -> M i j !! k = None.
Proof.
  intros Hk. unfold filledMatrix. rewrite map_lookup, lookup_seq_ge by lia.
  reflexivity.
Qed.

Lemma filledMatrix_get i j k c :
  (k <= List.length l2)%nat -> (c < width i j k)%nat ->
  Matrix.get (M i j) k c = Some (D k c).
Proof.
  intros Hk Hc. unfold Matrix.get. rewrite filledMatrix_lookup by exact Hk.
  rewrite map_lookup, lookup_seq_lt by exact Hc. reflexivity.
Qed.

Lemma filledMatrix_next_row i :
  M (S i) 0 = M i (List.length l1).
Proof.
  unfold filledMatrix. apply map_ext. intros k. do 2 f_equal.
  destruct (Nat.ltb_spec k (S i)), (Nat.ltb_spec k i), (Nat.eqb_spec k (S i)),
    (Nat.eqb_spec k i); lia.
Qed.

Lemma filledMatrix_set i j :
  (i <= List.length l2)%nat ->
  Matrix.set (M i j) i (S j) (D i (S j)) = Some (M i (S j)).
Proof.
  intros Hi. unfold Matrix.set. rewrite filledMatrix_lookup by exact Hi.
  rewrite Nat.ltb_irrefl, Nat.eqb_refl, length_map, length_seq.
  replace (S j <? j + 1)%nat with false by (symmetry; apply Nat.ltb_ge; lia).
  replace (S j =? j + 1)%nat with true by (symmetry; apply Nat.eqb_eq; lia).
  f_equal. apply list_eq. intros k.
  destruct (decide (k = i)) as [->|Hne].
  - rewrite list_lookup_insert_eq
      by (unfold filledMatrix; rewrite length_map, length_seq; lia).
    rewrite filledMatrix_lookup by exact Hi.
    rewrite Nat.ltb_irrefl, Nat.eqb_refl.
    replace (S j + 1)%nat with (S (j + 1)) by lia.
    rewrite seq_S, map_app. simpl. rewrite Nat.add_1_r. reflexivity.
  - rewrite list_lookup_insert_ne by congruence.
    destruct (le_lt_dec k (List.length l2)) as [Hk|Hk].
    + rewrite !filledMatrix_lookup by exact Hk.
      replace (k =? i)%nat with false by (symmetry; apply Nat.eqb_neq; exact Hne).
      reflexivity.
    + rewrite !filledMatrix_lookup_ge by exact Hk. reflexivity.
Qed.

Lemma prefixDistance_step i j a b :
  l2 !! i = Some a -> l1 !! j = Some b ->
  D (S i) (S j)
  = if decide (a = b) then D i j
    else Z.min (Z.min (D i j + 1) (D (S i) j + 1)) (D i (S j) + 1).
Proof.
  intros Ha Hb. unfold prefixDistance.
  rewrite (take_S_r _ _ _ Ha), (take_S_r _ _ _ Hb), lev_snoc_code.
  destruct (decide (a = b)); [reflexivity|]. lia.
Qed.

End MatrixFacts.

Ltac width_solve :=
  repeat match goal with
         | |- context [(?a <? ?b)%nat] => destruct (Nat.ltb_spec a b)
         | |- context [(?a =? ?b)%nat] => destruct (Nat.eqb_spec a b)
         end;
  rewrite ?length_ascii; lia.

Section Levenshtein.
Variables str1 str2 : string.

Local Abbreviation l1 := (list_ascii_of_string str1).
Local Abbreviation l2 := (list_ascii_of_string str2).

Lemma levenshteinDistance_initial :
  <[0%nat := List.map Z.of_nat (seq 0 (String.length str1 + 1))]>
    (List.map (fun i => [Z.of_nat i]) (seq 0 (String.length str2 + 1)))
  = filledMatrix l1 l2 0 (String.length str1).
Proof.
  apply list_eq. intros k.
  destruct (le_lt_dec k (String.length str2)) as [Hk|Hk].
  - rewrite filledMatrix_lookup by (rewrite length_ascii; exact Hk).
    destruct k as [|k].
    + rewrite list_lookup_insert_eq by (rewrite length_map, length_seq; lia).
      simpl Nat.ltb. simpl Nat.eqb. cbv iota. rewrite length_ascii. f_equal.
      apply map_ext_in. intros c Hc. apply in_seq in Hc. simpl in Hc.
      unfold prefixDistance. rewrite firstn_O, lev_nil_l, length_take, length_ascii.
      lia.
    + rewrite list_lookup_insert_ne by discriminate.
      rewrite map_lookup, lookup_seq_lt by lia. simpl.
      unfold prefixDistance. rewrite firstn_O, lev_nil_r, length_take, length_ascii.
      do 3 f_equal. lia.
  - rewrite filledMatrix_lookup_ge by (rewrite length_ascii; exact Hk).
    rewrite list_lookup_insert_ne by lia.
    rewrite map_lookup, lookup_seq_ge by lia. reflexivity.
Qed.

(** The matrix code computes the edit distance of its arguments. *)
Lemma levenshteinDistance_lev :
  IndexSearchEngine.levenshteinDistance str1 str2 = Some (Z.of_nat (lev l2 l1)).
Proof.
  unfold IndexSearchEngine.levenshteinDistance. cbv zeta.
  rewrite levenshteinDistance_initial.
  erewrite (for_each_chain _ (fun i => filledMatrix l1 l2 i (String.length str1))).
  - rewrite filledMatrix_get.
    + unfold prefixDistance. rewrite <- !length_ascii, !firstn_all. reflexivity.
    + rewrite length_ascii. lia.
    + rewrite Nat.ltb_irrefl, Nat.eqb_refl. lia.
  - intros i Hi. cbv beta.
    rewrite <- (length_ascii str1) at 2. rewrite <- filledMatrix_next_row.
    apply (for_each_chain _ (fun j => filledMatrix l1 l2 (S i) j)).
    intros j Hj. cbv beta.
    replace (1 + i - 1)%nat with i by lia. replace (1 + j - 1)%nat with j by lia.
    change (1 + i)%nat with (S i). change (1 + j)%nat with (S j).
    rewrite !get_ascii.
    destruct (lookup_lt_is_Some_2 l2 i) as [a Ha]; [rewrite length_ascii; lia|].
    destruct (lookup_lt_is_Some_2 l1 j) as [b Hb]; [rewrite length_ascii; lia|].
    rewrite Ha, Hb.
    pose proof (prefixDistance_step l1 l2 i j a b Ha Hb) as Hstep.
    rewrite !filledMatrix_get by width_solve.
    destruct (decide (a = b)) as [->|Hne].
    + rewrite bool_decide_eq_true_2 by reflexivity.
      rewrite <- Hstep. apply filledMatrix_set. width_solve.
    + rewrite bool_decide_eq_false_2 by congruence.
      rewrite <- Hstep. apply filledMatrix_set. width_solve.
Qed.
End Levenshtein.

Section StringSimilarity.
Import IndexSearchEngine.

Lemma calculateStringSimilarity_formula (x y : string) :
  0 < Z.max (JsString.length x) (JsString.length y) ->
  calculateStringSimilarity x y
  = Some (inject_Z (Z.max (JsString.length x) (JsString.length y) - editDistance x y)
          / inject_Z (Z.max (JsString.length x) (JsString.length y)))%Q.
Proof.
  intros Hmax. unfold calculateStringSimilarity, editDistance. cbv zeta.
  destruct (JsString.length y <? JsString.length x) eqn:E.
  - apply Z.ltb_lt in E. rewrite Z.max_l in * by lia.
    replace (JsString.length x =? 0) with false by (symmetry; apply Z.eqb_neq; lia).
    rewrite levenshteinDistance_lev, (lev_sym (list_ascii_of_string y)). reflexivity.
  - apply Z.ltb_ge in E. rewrite Z.max_r in * by lia.
    replace (JsString.length y =? 0) with false by (symmetry; apply Z.eqb_neq; lia).
    rewrite levenshteinDistance_lev. reflexivity.
Qed.

Lemma calculateStringSimilarity_spec (x y : string) :
  calculateStringSimilarity x y = Some (stringSimilarity_spec x y).
Proof.
  unfold stringSimilarity_spec. cbv zeta.
  destruct (Z.max (JsString.length x) (JsString.length y) =? 0) eqn:E.
  - apply Z.eqb_eq in E.
    destruct x, y; unfold JsString.length in E; simpl in E; try lia. reflexivity.
  - apply Z.eqb_neq in E. apply calculateStringSimilarity_formula.
    unfold JsString.length in *. lia.
Qed.

(** C6. The string similarity is the normalized Levenshtein similarity
    of the specification: [editDistance] is the least number of
    single-character edits between the two strings; for two strings not
    both empty the similarity is (maxLen - editDistance) / maxLen with
    maxLen the length of the longer one; it is 1 for two empty strings
    and for a string and itself; and it is (7 - 3) / 7 for "kitten" and
    "sitting", whose distance is 3. *)
Theorem stringSimilarity_normalized_levenshtein (x y : string) :
  calculateStringSimilarity x y = Some (stringSimilarity_spec x y)
  /\ (edits (list_ascii_of_string x) (list_ascii_of_string y) (Z.to_nat (editDistance x y))
   /\ forall n, edits (list_ascii_of_string x) (list_ascii_of_string y) n ->
                editDistance x y <= Z.of_nat n)
  /\ (0 < Z.max (JsString.length x) (JsString.length y) ->
      calculateStringSimilarity x y
      = Some (inject_Z (Z.max (JsString.length x) (JsString.length y) - editDistance x y)
              / inject_Z (Z.max (JsString.length x) (JsString.length y)))%Q)
  /\ calculateStringSimilarity EmptyString EmptyString = Some 1%Q
  /\ (exists q, calculateStringSimilarity x x = Some q /\ (q == 1)%Q)
  /\ editDistance "kitten" "sitting" = 3
  /\ calculateStringSimilarity "kitten" "sitting" = Some ((7 - 3) / 7)%Q.
Proof.
  split; [apply calculateStringSimilarity_spec|].
  split; [|split; [|split; [|split; [|split]]]].
  - unfold editDistance. rewrite Nat2Z.id. split; [apply edits_lev|].
    intros n Hn. apply inj_le, lev_least, Hn.
  - apply calculateStringSimilarity_formula.
  - reflexivity.
  - destruct x as [|c x].
    + exists 1%Q. split; reflexivity.
    + eexists. split.
      * apply calculateStringSimilarity_formula. unfold JsString.length. simpl. lia.
      * unfold editDistance. rewrite lev_refl, Z.max_id, Z.sub_0_r.
        apply Qmult_inv_r. unfold JsString.length. simpl String.length.
        intros H. unfold Qeq in H. simpl in H. lia.
  - vm_compute. reflexivity.
  - vm_compute. reflexivity.
Qed.

Lemma stringSimilarity_normalized_levenshtein_witness :
  calculateStringSimilarity "button" "buttons" = Some (inject_Z (7 - 1) / inject_Z 7)%Q.
Proof.
  apply (proj1 (proj2 (proj2 (stringSimilarity_normalized_levenshtein "button" "buttons")))).
  reflexivity.
Defined.

End StringSimilarity.

(** ** Similarity scores *)

Section SimilarityClaims.
Import IndexSearchEngine.

Lemma lev_le_max {A : Type} `{EqDecision A} (s t : list A) :
  (lev s t <= Nat.max (List.length s) (List.length t))%nat.
Proof.
  apply lev_least. revert t; induction s as [|a s IH]; intros t.
  - apply edits_inserts.
  - destruct t as [|b t]; [apply (edits_deletes (a :: s))|].
    simpl. apply edits_subst, IH.
Qed.

Lemma inject_nat_nonneg (n : nat) : (0 <= inject_Z (Z.of_nat n))%Q.
Proof. change 0%Q with (inject_Z 0). rewrite <- Zle_Qle. lia. Qed.

Lemma ratio_range (a b : Z) :
  0 <= a <= b -> 0 < b -> (0 <= inject_Z a / inject_Z b /\ inject_Z a / inject_Z b <= 1)%Q.
Proof.
  intros Ha Hb.
  assert (0 < inject_Z b)%Q as Hb' by (change 0%Q with (inject_Z 0); rewrite <- Zlt_Qlt; lia).
  split.
  - apply Qle_shift_div_l; [exact Hb'|]. rewrite Qmult_0_l.
    change 0%Q with (inject_Z 0). rewrite <- Zle_Qle. lia.
  - apply Qle_shift_div_r; [exact Hb'|]. rewrite Qmult_1_l. rewrite <- Zle_Qle. lia.
Qed.

Lemma calculateStringSimilarity_range (x y : string) :
  exists s, calculateStringSimilarity x y = Some s /\ (0 <= s /\ s <= 1)%Q.
Proof.
  destruct (Z.eq_dec (Z.max (JsString.length x) (JsString.length y)) 0) as [E|E].
  - destruct x, y; unfold JsString.length in E; simpl in E; try lia.
    exists 1%Q. split; [reflexivity|]. split; discriminate.
  - pose proof (Zle_0_nat (String.length x)). pose proof (Zle_0_nat (String.length y)).
    unfold JsString.length in E.
    eexists. split; [apply calculateStringSimilarity_formula; unfold JsString.length; lia|].
    apply ratio_range; unfold JsString.length; [|lia].
    unfold editDistance.
    pose proof (lev_le_max (list_ascii_of_string x) (list_ascii_of_string y)) as H1.
    rewrite !length_ascii in H1. lia.
Qed.

Lemma semantic_similarity_range (c1 c2 : ComponentIndex.t) :
  exists q, calculateSemanticSimilarity c1 c2 = Some q /\ (0 <= q /\ q <= 1)%Q.
Proof.
  unfold calculateSemanticSimilarity. cbv zeta.
  destruct (calculateStringSimilarity_range (ComponentIndex.name c1) (ComponentIndex.name c2))
    as (s & -> & Hs0 & _).
  eexists. split; [reflexivity|]. split; [|apply Q.le_min_l].
  apply Q.min_glb; [discriminate|].
  repeat match goal with
  | |- context [inject_Z (Z.of_nat ?n)] =>
      let H := fresh in
      pose proof (inject_nat_nonneg n) as H; generalize dependent (inject_Z (Z.of_nat n));
      intros
  end.
  lra.
Qed.

Lemma usage_similarity_nonneg (c1 c2 : ComponentIndex.t) :
  (0 <= calculateUsageSimilarity c1 c2)%Q.
Proof.
  unfold calculateUsageSimilarity, Set_size. cbv zeta.
  destruct (_ =? 0) eqn:E; [discriminate|]. apply Z.eqb_neq in E.
  apply Qle_shift_div_l.
  - change 0%Q with (inject_Z 0). rewrite <- Zlt_Qlt. lia.
  - rewrite Qmult_0_l. apply inject_nat_nonneg.
Qed.

(** Without repeated contexts in the first component the usage
    similarity is a proportion. *)
Lemma usage_similarity_range (c1 c2 : ComponentIndex.t) :
  List.NoDup (ComponentIndex.usedIn c1) ->
  (0 <= calculateUsageSimilarity c1 c2 /\ calculateUsageSimilarity c1 c2 <= 1)%Q.
Proof.
  intros Hnd. split; [apply usage_similarity_nonneg|].
  unfold calculateUsageSimilarity, Set_size. cbv zeta.
  destruct (_ =? 0) eqn:E; [discriminate|]. apply Z.eqb_neq in E.
  apply ratio_range; [|lia]. split; [lia|]. apply inj_le.
  apply List.NoDup_incl_length.
  - apply List.NoDup_filter, Hnd.
  - intros u Hu. apply filter_In in Hu as [Hu _].
    apply list_elem_of_In, elem_of_remove_dups, list_elem_of_In, in_or_app. left. exact Hu.
Qed.

Lemma visual_similarity_range (c1 c2 : ComponentIndex.t) :
  (0 <= calculateVisualSimilarity c1 c2 /\ calculateVisualSimilarity c1 c2 <= 1)%Q.
Proof.
  unfold calculateVisualSimilarity. cbv zeta.
  rewrite (fold_left_bump
             (fun key => bool_decide
                (prop_get (Styles.computedStyles (ComponentIndex.styles c1)) key
                 = prop_get (Styles.computedStyles (ComponentIndex.styles c2)) key)) 1).
  destruct (0 <? _) eqn:E; [|split; discriminate]. apply Z.ltb_lt in E.
  apply ratio_range; [|exact E]. split; [lia|].
  pose proof (List.filter_length_le
    (fun key => bool_decide
                (prop_get (Styles.computedStyles (ComponentIndex.styles c1)) key
                 = prop_get (Styles.computedStyles (ComponentIndex.styles c2)) key))
    (remove_dups (List.map fst (Styles.computedStyles (ComponentIndex.styles c1))
                  ++ List.map fst (Styles.computedStyles (ComponentIndex.styles c2))))).
  lia.
Qed.

(** The part of C8 that holds: the similarity is in [0, 1] in the
    semantic and visual modes, and in the usage mode for a component
    whose contexts are listed once each. *)
Lemma similarity_range (c1 c2 : ComponentIndex.t) (mode : SimilarityType) :
  mode <> usage \/ List.NoDup (ComponentIndex.usedIn c1) ->
  exists q, calculateSimilarityScore c1 c2 mode = Some q /\ (0 <= q /\ q <= 1)%Q.
Proof.
  intros H. destruct mode; simpl.
  - eexists. split; [reflexivity|apply visual_similarity_range].
  - apply semantic_similarity_range.
  - destruct H as [H|H]; [congruence|].
    eexists. split; [reflexivity|apply usage_similarity_range, H].
Qed.

(** C8 fails on the code for the usage mode: the common contexts are
    counted with their repetitions, the union without.  A component
    listed twice for a page scores 2 against one listed once. *)
Theorem usage_similarity_exceeds_one :
  calculateSimilarityScore Sample.listedTwice Sample.listedOnce usage = Some 2%Q
  /\ ~ (exists q, calculateSimilarityScore Sample.listedTwice Sample.listedOnce usage = Some q
                  /\ (0 <= q)%Q /\ (q <= 1)%Q).
Proof.
  split; [reflexivity|].
  intros (q & Hq & _ & Hle). vm_compute in Hq. injection Hq as <-.
  apply Hle. reflexivity.
Qed.

End SimilarityClaims.

(** ** The usage graph and the loaded index *)

Section FoldFacts.
Context {S X : Type} (f : S -> X -> S) (I : S -> Prop) (R : S -> S -> Prop).
Hypothesis R_refl : forall s, R s s.
Hypothesis R_trans : forall s1 s2 s3, R s1 s2 -> R s2 s3 -> R s1 s3.
Hypothesis step : forall s x, I s -> I (f s x) /\ R s (f s x).

Lemma fold_left_preserve (l : list X) (s : S) :
  I s -> I (fold_left f l s) /\ R s (fold_left f l s).
Proof.
  revert s; induction l as [|x l IH]; intros s Hs; simpl; [auto|].
  destruct (step s x Hs) as [HI HR]. destruct (IH _ HI) as [HI' HR'].
  split; [exact HI'|]. eapply R_trans; eassumption.
Qed.

Lemma fold_left_reach (G : S -> Prop) (l : list X) (x : X) (s : S) :
  (forall s s', R s s' -> G s -> G s') ->
  (forall s, I s -> G (f s x)) ->
  In x l -> I s -> G (fold_left f l s).
Proof.
  intros Hup Hx. revert s; induction l as [|y l IH]; intros s Hin Hs; [destruct Hin|].
  simpl. destruct (step s y Hs) as [HI HR]. destruct Hin as [->|Hin].
  - destruct (fold_left_preserve l _ HI) as [_ HR']. eapply Hup; [exact HR'|].
    apply Hx, Hs.
  - apply IH; assumption.
Qed.
End FoldFacts.

Lemma objects_ids (f : nat -> nat) (cs : list ComponentIndex.t) :
  List.map (fun o : ComponentIndex.t * Heap.loc => ComponentIndex.id (fst o))
           (imap (fun i c => (c, f i)) cs)
  = List.map ComponentIndex.id cs.
Proof.
  revert f; induction cs as [|c cs IH]; intros f; simpl; [reflexivity|].
  f_equal. apply (IH (fun i => f (S i))).
Qed.

Section UsageGraphFacts.
Import IndexSearchEngine.
Variable index : ProjectIndex.t.

Local Abbreviation objects := (Loaded.objects index).

Lemma grown_refl h : grown h h.
Proof. split; auto. Qed.

Lemma grown_trans h1 h2 h3 : grown h1 h2 -> grown h2 h3 -> grown h1 h3.
Proof. intros [L1 M1] [L2 M2]. split; [congruence|auto]. Qed.

Lemma read_push_same h a x :
  (a < List.length h)%nat -> Heap.read (Heap.push h a x) a = Heap.read h a ++ [x].
Proof.
  intros Ha. unfold Heap.read, Heap.push. rewrite list_lookup_alter_eq.
  destruct (lookup_lt_is_Some_2 h a Ha) as [l ->]. reflexivity.
Qed.

Lemma grown_push h a x : grown h (Heap.push h a x).
Proof.
  split; [apply length_alter|].
  intros a' y Hy. unfold Heap.read, Heap.push in *.
  destruct (decide (a = a')) as [<-|Hne].
  - rewrite list_lookup_alter_eq. destruct (h !! a); simpl in *; [|destruct Hy].
    apply in_or_app; left; exact Hy.
  - rewrite list_lookup_alter_ne by exact Hne. exact Hy.
Qed.

Lemma objects_lookup c i : In (c, i) objects -> ProjectIndex.components index !! i = Some c.
Proof.
  intros H. apply list_elem_of_In, elem_of_lookup_imap in H as (j & y & E & Hy).
  injection E as -> ->. exact Hy.
Qed.

Lemma Array_includes_In l x : Array_includes l x = true <-> In x l.
Proof.
  unfold Array_includes. rewrite existsb_exists. split.
  - intros (y & Hy & E). apply String.eqb_eq in E. subst; exact Hy.
  - intros H. exists x. split; [exact H|apply String.eqb_refl].
Qed.

Lemma later_refl st : later st st.
Proof. apply grown_refl. Qed.

Lemma later_trans st1 st2 st3 : later st1 st2 -> later st2 st3 -> later st1 st3.
Proof. apply grown_trans. Qed.

Lemma visit_step page st name :
  stable index st ->
  stable index (addReverseRelationship objects page st name)
  /\ later st (addReverseRelationship objects page st name).
Proof.
  destruct st as [g h]. intros [Hg Hl].
  unfold addReverseRelationship, later, stable, own_addresses in *. simpl in *.
  destruct (List.find _ objects) as [[c i]|] eqn:F; [|split; [auto|apply grown_refl]].
  apply find_some in F as [Hin _]. simpl. rewrite (Hg c i Hin).
  destruct (negb _); simpl; [|split; [auto|apply grown_refl]].
  split; [split|apply grown_push].
  - intros c' i' Hin'. destruct (decide (ComponentIndex.id c = ComponentIndex.id c')) as [E|E].
    + rewrite E, lookup_insert_eq. rewrite <- (Hg c' i' Hin'), <- E. symmetry. apply Hg, Hin.
    + rewrite lookup_insert_ne by exact E. apply Hg, Hin'.
  - unfold Heap.push. rewrite length_alter. exact Hl.
Qed.

Lemma visit_reaches page st name c i :
  stable index st ->
  List.find (fun c => String.eqb (ComponentIndex.name (fst c)) name) objects = Some (c, i) ->
  In (PageIndex.id page) (Heap.read (snd (addReverseRelationship objects page st name)) i).
Proof.
  destruct st as [g h]. intros [Hg Hl] F. unfold addReverseRelationship. simpl in *. rewrite F.
  pose proof (find_some _ _ F) as [Hin _]. simpl. rewrite (Hg c i Hin).
  destruct (Array_includes (Heap.read h i) (PageIndex.id page)) eqn:E; simpl.
  - apply Array_includes_In, E.
  - rewrite read_push_same; [apply in_or_app; right; left; reflexivity|].
    rewrite Hl. apply objects_lookup, lookup_lt_Some in Hin. exact Hin.
Qed.

Lemma initial_own_addresses :
  List.NoDup (List.map ComponentIndex.id (ProjectIndex.components index)) ->
  own_addresses index
    (fold_left
       (fun (g : gmap string Heap.loc) (component : ComponentIndex.t * Heap.loc) =>
          <[ComponentIndex.id (fst component) := snd component]> g)
       objects ∅).
Proof.
  intros Hnd. unfold own_addresses.
  assert (List.NoDup (List.map (fun o => ComponentIndex.id (fst o)) objects)) as Hnd'.
  { unfold Loaded.objects. rewrite (objects_ids (fun i => i)). exact Hnd. }
  revert Hnd'. generalize (∅ : gmap string Heap.loc).
  induction objects as [|o os IH] using rev_ind; intros g Hnd' c i Hin; [destruct Hin|].
  rewrite fold_left_app. simpl.
  rewrite List.map_app in Hnd'. simpl in Hnd'.
  apply in_app_or in Hin as [Hin|[->|[]]].
  - rewrite lookup_insert_ne; [apply IH; [|exact Hin]|].
    + apply NoDup_remove_1 in Hnd'. rewrite app_nil_r in Hnd'. exact Hnd'.
    + apply NoDup_remove_2 in Hnd'. rewrite app_nil_r in Hnd'.
      intros E. apply Hnd'. rewrite E.
      apply (in_map (fun o => ComponentIndex.id (fst o)) _ _ Hin).
  - simpl. apply lookup_insert_eq.
Qed.

(** Under unique ids, a page that references a component which does not
    list the page makes the call push the page id onto the component's
    own array: the loaded index is changed. *)
Lemma getComponentUsageGraph_pushes page name c i :
  List.NoDup (List.map ComponentIndex.id (ProjectIndex.components index)) ->
  In page (ProjectIndex.pages index) ->
  In name (PageIndex.components page) ->
  List.find (fun c => String.eqb (ComponentIndex.name (fst c)) name) objects = Some (c, i) ->
  ~ In (PageIndex.id page) (ComponentIndex.usedIn c) ->
  In (PageIndex.id page)
     (Heap.read (snd (getComponentUsageGraph index (Loaded.heap_of index))) i)
  /\ Loaded.view index (snd (getComponentUsageGraph index (Loaded.heap_of index))) <> index.
Proof.
  intros Hnd Hpage Hname F Hnew.
  assert (In (PageIndex.id page)
            (Heap.read (snd (getComponentUsageGraph index (Loaded.heap_of index))) i)) as Hin.
  { unfold getComponentUsageGraph. cbv zeta.
    apply (fold_left_reach
             (fun st page =>
                fold_left (addReverseRelationship objects page) (PageIndex.components page) st)
             (stable index) later later_refl later_trans
             (fun st page Hst =>
                fold_left_preserve (addReverseRelationship objects page) (stable index) later
                  later_refl later_trans (visit_step page) _ st Hst)
             (fun st => In (PageIndex.id page) (Heap.read (snd st) i))
             (ProjectIndex.pages index) page).
    - intros st st' [_ Hmono]. apply Hmono.
    - intros st Hst.
      apply (fold_left_reach (addReverseRelationship objects page) (stable index) later
               later_refl later_trans (visit_step page)
               (fun st => In (PageIndex.id page) (Heap.read (snd st) i))
               (PageIndex.components page) name).
      + intros s s' [_ Hmono]. apply Hmono.
      + intros s Hs. apply (visit_reaches page s name c i Hs F).
      + exact Hname.
      + exact Hst.
    - exact Hpage.
    - split; [apply initial_own_addresses, Hnd|].
      unfold Loaded.heap_of. simpl. apply length_map. }
  split; [exact Hin|]. intros Hview. apply Hnew.
  apply find_some in F as [Hobj _]. apply objects_lookup in Hobj.
  apply (f_equal (fun x => ProjectIndex.components x !! i)) in Hview.
  unfold Loaded.view in Hview. simpl in Hview.
  rewrite list_lookup_imap, Hobj in Hview. simpl in Hview.
  injection Hview as Hview.
  apply (f_equal ComponentIndex.usedIn) in Hview. simpl in Hview.
  rewrite <- Hview. exact Hin.
Qed.

End UsageGraphFacts.

Section UsageGraphClaims.
Import IndexSearchEngine.

Lemma with_usedIn_id (c : ComponentIndex.t) :
  ComponentIndex.with_usedIn c (ComponentIndex.usedIn c) = c.
Proof. destruct c; reflexivity. Qed.

(** Before the call the heap holds the index as it was loaded. *)
Lemma view_heap_of (index : ProjectIndex.t) :
  Loaded.view index (Loaded.heap_of index) = index.
Proof.
  destruct index as [m cs ps es]. unfold Loaded.view, Loaded.heap_of. simpl. f_equal.
  enough (forall pre,
            imap (fun i c => ComponentIndex.with_usedIn c
                               (Heap.read (pre ++ List.map ComponentIndex.usedIn cs)
                                          (List.length pre + i)))
                 cs = cs) as H by apply (H []).
  induction cs as [|c cs IH]; intros pre; simpl; [reflexivity|]. f_equal.
  - unfold Heap.read. rewrite Nat.add_0_r, list_lookup_middle by reflexivity.
    apply with_usedIn_id.
  - rewrite <- (IH (pre ++ [ComponentIndex.usedIn c])) at 2.
    apply imap_ext. intros i x _. simpl.
    rewrite <- app_assoc, length_app. simpl. do 2 f_equal. lia.
Qed.

(** C5 fails on the code.  The graph holds the expected contexts, but
    the array it holds for a component is the component's own [usedIn]
    array: pushing the page id onto it changes the loaded index. *)
Theorem getComponentUsageGraph_changes_index :
  let r := getComponentUsageGraph Sample.index (Loaded.heap_of Sample.index) in
  graph_of r !! "components_SubmitButton" = Some ["pages_Home"]
  /\ List.map ComponentIndex.usedIn
       (ProjectIndex.components (Loaded.view Sample.index (Loaded.heap_of Sample.index)))
     = [[]; []]
  /\ List.map ComponentIndex.usedIn
       (ProjectIndex.components (Loaded.view Sample.index (snd r)))
     = [["pages_Home"]; []]
  /\ Loaded.view Sample.index (snd r) <> Sample.index.
Proof.
  cbv zeta. split; [vm_compute; reflexivity|].
  split; [reflexivity|]. split; [vm_compute; reflexivity|].
  intros H.
  apply (f_equal (fun i => List.map ComponentIndex.usedIn (ProjectIndex.components i))) in H.
  vm_compute in H. discriminate H.
Qed.

End UsageGraphClaims.

(** ** Saving and loading the index *)

Section Persistence.

Lemma reload_array (vs ws : list jsval) :
  Forall2 (fun v w => reload v = Some w) vs ws ->
  reload (VArr vs) = Some (VArr ws).
Proof.
  intros H. unfold reload. simpl. do 2 f_equal.
  induction H as [|v w vs ws Hv _ IH]; simpl; [reflexivity|].
  unfold reload in Hv. destruct (JSON.stringify v) as [j|]; [|discriminate].
  injection Hv as <-. simpl. f_equal. exact IH.
Qed.

Lemma reload_object (kvs kws : list (string * jsval)) :
  Forall2 (fun kv kw => fst kv = fst kw /\ reload (snd kv) = Some (snd kw)) kvs kws ->
  reload (VObj kvs) = Some (VObj kws).
Proof.
  intros H. unfold reload. simpl. do 2 f_equal.
  induction H as [|[k v] [k' w] kvs kws [Hk Hv] _ IH]; simpl in *; [reflexivity|].
  unfold reload in Hv. destruct (JSON.stringify v) as [j|]; [|discriminate].
  injection Hv as <-. subst k'. simpl. f_equal. exact IH.
Qed.

Lemma reload_map {A : Type} (f g : A -> jsval) (l : list A) :
  (forall a, In a l -> reload (f a) = Some (g a)) ->
  reload (VArr (List.map f l)) = Some (VArr (List.map g l)).
Proof.
  intros H. apply reload_array. induction l; simpl; constructor.
  - apply H. left. reflexivity.
  - apply IHl. intros x Hx. apply H. right. exact Hx.
Qed.

Lemma reload_entries {A : Type} (f g : A -> jsval) (l : list (string * A)) :
  (forall e, In e l -> reload (f (snd e)) = Some (g (snd e))) ->
  reload (VObj (List.map (fun e => (fst e, f (snd e))) l))
  = Some (VObj (List.map (fun e => (fst e, g (snd e))) l)).
Proof.
  intros H. apply reload_object.
  induction l as [|e l IH]; simpl; constructor.
  - split; [reflexivity|]. apply H. left. reflexivity.
  - apply IH. intros x Hx. apply H. right. exact Hx.
Qed.

Lemma reload_optional {A : Type} (key : string) (f g : A -> jsval) (o : option A) :
  (forall a, o = Some a -> reload (f a) = Some (g a)) ->
  Forall2 (fun kv kw => fst kv = fst kw /\ reload (snd kv) = Some (snd kw))
          (Value.optional key f o) (Value.optional key g o).
Proof.
  intros H. destruct o as [a|]; simpl; [|constructor].
  constructor; [split; [reflexivity|apply H; reflexivity]|constructor].
Qed.

Ltac reload_fields :=
  repeat first
    [ apply List.Forall2_nil
    | apply List.Forall2_cons; [split; [reflexivity|]|]
    | apply List.Forall2_app
    | apply reload_optional; intros ].

(** A plain number and a valid date are written as they are; every
    other number or date is not. *)
Lemma reload_number (x : JsNumber.t) : plain x = true -> reload (VNum x) = Some (VNum x).
Proof. destruct x; intros H; try discriminate H. reflexivity. Qed.

Lemma reload_date (t : Date) :
  JsDate.valid t = true -> reload (VDate t) = Some (VStr (JsDate.toISOString t)).
Proof. intros H. unfold reload. simpl. unfold JsDate.toJSON. rewrite H. reflexivity. Qed.

Lemma reload_lossy :
  reload (VNum JsNumber.NaN) = Some VNull
  /\ reload (VNum JsNumber.Infinity) = Some VNull
  /\ reload (VNum JsNumber.NegativeInfinity) = Some VNull
  /\ reload (VNum JsNumber.NegativeZero) = Some (VNum (JsNumber.Finite 0))
  /\ forall t, JsDate.valid t = false -> reload (VDate t) = Some VNull.
Proof.
  repeat split. intros t H. unfold reload. simpl. unfold JsDate.toJSON. rewrite H.
  reflexivity.
Qed.

Lemma reload_strings (l : list string) :
  reload (Value.strings l) = Some (Value.strings l).
Proof. apply reload_map. reflexivity. Qed.

Lemma reload_screenshots (s : Screenshots.t) :
  reload (Value.ofScreenshots s) = Some (Value.ofScreenshots s).
Proof. apply reload_object. reload_fields; reflexivity. Qed.

Lemma reload_box (b : Bounds.BoundingBox.t) :
  plainBox (Some b) = true ->
  reload (Value.ofBoundingBox b) = Some (Value.ofBoundingBox b).
Proof.
  unfold plainBox. rewrite !andb_true_iff. intros [[[Hx Hy] Hw] Hh].
  apply reload_object. reload_fields; apply reload_number; assumption.
Qed.

Lemma reload_bounds (b : Bounds.t) :
  (plainBox (Bounds.desktop b) && plainBox (Bounds.tablet b)
   && plainBox (Bounds.mobile b))%bool = true ->
  reload (Value.ofBounds b) = Some (Value.ofBounds b).
Proof.
  rewrite !andb_true_iff. intros [[Hd Ht] Hm].
  apply reload_object. reload_fields; apply reload_box; congruence.
Qed.

Lemma reload_prop (p : PropDefinition.t) : reload (Value.ofProp p) = Some (Value.ofProp p).
Proof. apply reload_object. reload_fields; reflexivity. Qed.

Lemma reload_styles (s : Styles.t) : reload (Value.ofStyles s) = Some (Value.ofStyles s).
Proof.
  apply reload_object. reload_fields; [reflexivity|].
  apply (reload_entries VStr VStr). reflexivity.
Qed.

Local Abbreviation iso := (fun t : Date => VStr (JsDate.toISOString t)).

Lemma reload_component (c : ComponentIndex.t) :
  persistableComponent c = true ->
  reload (Value.ofComponent VDate c) = Some (Value.ofComponent iso c).
Proof.
  unfold persistableComponent. rewrite !andb_true_iff. intros [[[Hdate Hd] Ht] Hm].
  apply reload_object.
  reload_fields;
    first [ reflexivity | apply reload_strings | apply reload_screenshots
          | apply reload_styles
          | apply reload_map; intros; apply reload_prop
          | apply reload_date; exact Hdate
          | apply reload_bounds; rewrite Hd, Ht, Hm; reflexivity ].
Qed.

Lemma reload_page (p : PageIndex.t) : reload (Value.ofPage p) = Some (Value.ofPage p).
Proof.
  apply reload_object.
  reload_fields;
    first [ reflexivity | apply reload_strings | apply reload_screenshots ].
Qed.

Lemma reload_metadata (m : Metadata.t) :
  JsDate.valid (Metadata.lastIndexed m) = true ->
  plain (Metadata.componentsCount m) = true ->
  plain (Metadata.pagesCount m) = true ->
  reload (Value.ofMetadata VDate m) = Some (Value.ofMetadata iso m).
Proof.
  intros Hdate Hc Hp. apply reload_object.
  reload_fields;
    first [ apply reload_date; exact Hdate | apply reload_number; assumption
          | destruct (Metadata.framework m); reflexivity | reflexivity ].
Qed.

Lemma reload_embedding (e : Embedding.t) :
  (forallb plain (Embedding.visual e) && forallb plain (Embedding.semantic e))%bool = true ->
  reload (Value.ofEmbedding e) = Some (Value.ofEmbedding e).
Proof.
  rewrite andb_true_iff, !forallb_forall. intros [Hv Hs].
  apply reload_object.
  reload_fields; apply reload_map; intros x Hx; apply reload_number; auto.
Qed.

Lemma reload_index (index : ProjectIndex.t) :
  persistable index = true ->
  reload (Value.inMemory index) = Some (Value.withIsoDates index).
Proof.
  unfold persistable. rewrite !andb_true_iff. intros [[[[Hdate Hc] Hp] Hcs] Hes].
  apply reload_object.
  reload_fields.
  - apply reload_metadata; assumption.
  - apply reload_map. intros c Hin. apply reload_component.
    apply (proj1 (forallb_forall _ _) Hcs c Hin).
  - apply reload_map. intros pg _. apply reload_page.
  - apply (reload_entries Value.ofEmbedding Value.ofEmbedding).
    intros e Hin. apply reload_embedding.
    match goal with H : ProjectIndex.embeddings index = Some _ |- _ => rewrite H in Hes end.
    apply (proj1 (forallb_forall _ _) Hes e Hin).
Qed.

(** C1, as the specification states it, fails: the dates of the index
    do not come back as dates. *)
Lemma saveIndex_loadIndex_counterexample :
  ~ (forall (fs : ProjectIndexer.FileSystem) (projectPath : string) (index : ProjectIndex.t),
       ProjectIndexer.loadIndex (ProjectIndexer.saveIndex fs projectPath index) projectPath
       = Some (Value.inMemory index)).
Proof.
  intros H. specialize (H ∅ "/work/app" Sample.index).
  apply (f_equal (fun o => Value.get (Value.get (default VNull o) "metadata") "lastIndexed"))
    in H.
  vm_compute in H. discriminate H.
Qed.

Lemma eqb_other (key k : string) : k <> key -> String.eqb key k = false.
Proof. intros H. apply String.eqb_neq. congruence. Qed.

(** Apart from the date, a component reads the same with either way of
    holding dates; so does the metadata. *)
Lemma component_fields (c : ComponentIndex.t) (k : string) :
  k <> "lastModified" ->
  Value.get (Value.ofComponent iso c) k = Value.get (Value.ofComponent VDate c) k.
Proof.
  intros Hk. unfold Value.get, Value.ofComponent, List.find, fst, snd.
  rewrite (eqb_other "lastModified" k Hk). reflexivity.
Qed.

Lemma metadata_fields (m : Metadata.t) (k : string) :
  k <> "lastIndexed" ->
  Value.get (Value.ofMetadata iso m) k = Value.get (Value.ofMetadata VDate m) k.
Proof.
  intros Hk. unfold Value.get, Value.ofMetadata, List.find, fst, snd.
  rewrite (eqb_other "lastIndexed" k Hk). reflexivity.
Qed.

(** C1, amended.  For an index whose dates are valid and whose numbers
    are finite and not the negative zero, loading the artifact written
    by [saveIndex] yields the original index field for field, except
    that [metadata.lastIndexed] and each component's [lastModified],
    which are dates in the index that was saved, come back as the ISO
    strings of these dates: the pages, the embeddings, every other
    field of the metadata and every other field of each component are
    those of the original.  (An invalid date and a number that is not
    finite are written as [null], the negative zero as [0]:
    [reload_lossy].) *)
Theorem saveIndex_loadIndex (fs : ProjectIndexer.FileSystem) (projectPath : string)
    (index : ProjectIndex.t) :
  persistable index = true ->
  exists loaded,
    ProjectIndexer.loadIndex (ProjectIndexer.saveIndex fs projectPath index) projectPath
    = Some loaded
    /\ loaded = Value.withIsoDates index
    /\ Value.get (Value.get loaded "metadata") "lastIndexed"
       = VStr (JsDate.toISOString (Metadata.lastIndexed (ProjectIndex.metadata index)))
    /\ (forall k, k <> "lastIndexed" ->
                  Value.get (Value.get loaded "metadata") k
                  = Value.get (Value.get (Value.inMemory index) "metadata") k)
    /\ Value.get loaded "pages" = Value.get (Value.inMemory index) "pages"
    /\ Value.get loaded "embeddings" = Value.get (Value.inMemory index) "embeddings"
    /\ Value.get loaded "components"
       = VArr (List.map (Value.ofComponent iso) (ProjectIndex.components index))
    /\ Value.get (Value.inMemory index) "components"
       = VArr (List.map (Value.ofComponent VDate) (ProjectIndex.components index))
    /\ forall c,
         Value.get (Value.ofComponent iso c) "lastModified"
         = VStr (JsDate.toISOString (ComponentIndex.lastModified c))
         /\ forall k, k <> "lastModified" ->
                      Value.get (Value.ofComponent iso c) k
                      = Value.get (Value.ofComponent VDate c) k.
Proof.
  intros Hok. exists (Value.withIsoDates index). split.
  - pose proof (reload_index index Hok) as H. unfold reload in H.
    unfold ProjectIndexer.loadIndex, ProjectIndexer.saveIndex.
    destruct (JSON.stringify (Value.inMemory index)) as [doc|]; [|discriminate].
    rewrite lookup_insert_eq. exact H.
  - split; [reflexivity|]. split; [reflexivity|].
    split; [intros k Hk; apply (metadata_fields _ k Hk)|].
    split; [reflexivity|].
    split; [destruct index as [m cs ps [es|]]; reflexivity|].
    split; [reflexivity|]. split; [reflexivity|].
    intros c. split; [reflexivity|]. intros k Hk. apply (component_fields c k Hk).
Qed.

Lemma saveIndex_loadIndex_witness :
  ProjectIndexer.loadIndex (ProjectIndexer.saveIndex ∅ "/work/app" Sample.index) "/work/app"
  = Some (Value.withIsoDates Sample.index).
Proof.
  destruct (saveIndex_loadIndex ∅ "/work/app" Sample.index eq_refl)
    as (loaded & H & -> & _).
  exact H.
Defined.

End Persistence.
(** ** More on text search *)

Section StringFacts.

Lemma toLowerCase_length (s : string) :
  String.length (JsString.toLowerCase s) = String.length s.
Proof. induction s; simpl; congruence. Qed.

Lemma lower_ascii_idem (c : ascii) :
  JsString.lower_ascii (JsString.lower_ascii c) = JsString.lower_ascii c.
Proof.
  destruct c as [[] [] [] [] [] [] [] []]; reflexivity.
Qed.

Lemma toLowerCase_idem (s : string) :
  JsString.toLowerCase (JsString.toLowerCase s) = JsString.toLowerCase s.
Proof. induction s; simpl; [reflexivity|]. rewrite lower_ascii_idem, IHs. reflexivity. Qed.

Lemma toLowerCase_substring (a n : nat) (s : string) :
  JsString.toLowerCase (String.substring a n s)
  = String.substring a n (JsString.toLowerCase s).
Proof.
  revert a n; induction s as [|c s IH]; intros [|a] [|n]; simpl; try reflexivity.
  - rewrite IH. reflexivity.
  - apply IH.
  - apply IH.
Qed.

Lemma substring_length (a n : nat) (s : string) :
  String.length (String.substring a n s) = Nat.min n (String.length s - a).
Proof.
  revert a n; induction s as [|c s IH]; intros [|a] [|n]; simpl; try reflexivity.
  - rewrite IH. rewrite Nat.sub_0_r. reflexivity.
  - apply IH.
  - apply IH.
Qed.

Lemma substring_substring (a len b n : nat) (s : string) :
  (b + n <= len)%nat ->
  String.substring b n (String.substring a len s) = String.substring (a + b) n s.
Proof.
  revert a len b n; induction s as [|c s IH]; intros a len b n H.
  - destruct a, len, b, n; reflexivity.
  - destruct a as [|a]; simpl.
    + destruct len as [|len].
      * assert (b = 0 /\ n = 0)%nat as [-> ->] by lia. reflexivity.
      * destruct b as [|b]; simpl.
        -- destruct n as [|n]; [reflexivity|]. f_equal.
           apply (IH 0%nat len 0%nat n). lia.
        -- apply (IH 0%nat len b n). lia.
    + apply IH, H.
Qed.

Lemma index_found (sub s : string) (i : nat) :
  String.index 0 sub s = Some i ->
  String.substring i (String.length sub) s = sub
  /\ (i + String.length sub <= String.length s)%nat.
Proof.
  intros H. pose proof (index_correct1 _ _ _ _ H) as E. split; [exact E|].
  apply (f_equal String.length) in E. rewrite substring_length in E.
  destruct (String.length sub) eqn:L; [|lia].
  (* the empty string is found inside the string *)
  clear E. revert i H. induction s as [|c s IH]; intros i H.
  - destruct sub; [|discriminate]. simpl in H. injection H as <-. simpl. lia.
  - destruct sub; [|discriminate]. simpl in H. injection H as <-. simpl. lia.
Qed.

End StringFacts.

Section MatchFacts.
Import IndexSearchEngine.

Lemma JsString_substring_inside (s : string) (a b : Z) :
  0 <= a <= b -> b <= JsString.length s ->
  JsString.substring s a b = String.substring (Z.to_nat a) (Z.to_nat (b - a)) s.
Proof.
  intros Ha Hb. unfold JsString.substring. cbv zeta.
  rewrite !(Z.max_r 0) by lia. rewrite !(Z.min_l _ (JsString.length s)) by lia.
  rewrite Z.min_l, Z.max_r by lia. reflexivity.
Qed.

Lemma findMatches_fields (c : ComponentIndex.t) (q : SearchQuery.t) :
  findMatches c q
  = match SearchQuery.text q with
    | Some text =>
        if JsString.truthy text then
          fieldMatch (JsString.toLowerCase text) ("name", ComponentIndex.name c)
          ++ fieldMatch (JsString.toLowerCase text)
               ("description", ComponentIndex.description c)
          ++ fieldMatch (JsString.toLowerCase text)
               ("sourceCode", ComponentIndex.sourceCode c)
        else []
    | None => []
    end.
Proof.
  unfold findMatches. destruct (SearchQuery.text q) as [text|]; [|reflexivity].
  destruct (JsString.truthy text); [|reflexivity].
  cbv zeta. unfold fold_left, fieldMatch. cbv zeta.
  repeat match goal with |- context [negb (?i =? -1)] => destruct (negb (i =? -1)) end;
    reflexivity.
Qed.

Lemma fieldMatch_highlight (t : string) (field : string * string) (m : Match.t) :
  In m (fieldMatch (JsString.toLowerCase t) field) ->
  0 <= Match.highlightStart m <= 50
  /\ Match.highlightEnd m = Match.highlightStart m + JsString.length t
  /\ Match.highlightEnd m <= JsString.length (Match.snippet m)
  /\ JsString.length (Match.snippet m) <= JsString.length t + 100
  /\ JsString.toLowerCase
       (JsString.substring (Match.snippet m) (Match.highlightStart m) (Match.highlightEnd m))
     = JsString.toLowerCase t.
Proof.
  unfold fieldMatch. cbv zeta. unfold JsString.indexOf.
  destruct (String.index 0 (JsString.toLowerCase t) (JsString.toLowerCase (snd field)))
    as [i|] eqn:E; [|intros []].
  replace (negb (Z.of_nat i =? -1)) with true
    by (symmetry; apply negb_true_iff, Z.eqb_neq; lia).
  intros [<-|[]]. simpl.
  destruct (index_found _ _ _ E) as [Hsub Hle].
  rewrite !toLowerCase_length in Hle.
  unfold JsString.length in *. rewrite !toLowerCase_length.
  set (n := String.length t) in *. set (len := String.length (snd field)) in *.
  set (start := Z.max 0 (Z.of_nat i - 50)).
  set (end_ := Z.min (Z.of_nat len) (Z.of_nat i + Z.of_nat n + 50)).
  assert (0 <= start <= end_ /\ end_ <= Z.of_nat len) as [Hs He] by (subst start end_; lia).
  assert (JsString.substring (snd field) start end_
          = String.substring (Z.to_nat start) (Z.to_nat (end_ - start)) (snd field)) as Hsn
    by (apply JsString_substring_inside; unfold JsString.length; fold len; lia).
  rewrite Hsn.
  assert (String.length
            (String.substring (Z.to_nat start) (Z.to_nat (end_ - start)) (snd field))
          = Z.to_nat (end_ - start)) as Hlen
    by (rewrite substring_length; fold len; lia).
  rewrite Hlen.
  split; [subst start; lia|]. split; [reflexivity|].
  split; [subst start end_; lia|]. split; [subst start end_; lia|].
  rewrite JsString_substring_inside
    by (unfold JsString.length; rewrite ?Hlen; subst start end_; lia).
  rewrite substring_substring by (subst start end_; lia).
  rewrite toLowerCase_substring.
  replace (Z.to_nat start + Z.to_nat (Z.of_nat i - start))%nat with i
    by (subst start; lia).
  replace (Z.to_nat (Z.of_nat i - start + Z.of_nat n - (Z.of_nat i - start))) with n by lia.
  rewrite toLowerCase_length in Hsub. exact Hsub.
Qed.

(** X1. For a query text and a component whose name, description and
    source code are ASCII strings, the highlight of a match record
    selects, in its snippet, an occurrence of the query text up to
    letter case; it starts at most 50 characters into the snippet, which
    is at most 100 characters longer than the text.  (Lower-casing an
    ASCII string keeps its length, which the positions rely on.) *)
Theorem findMatches_highlight (c : ComponentIndex.t) (q : SearchQuery.t) (t : string)
    (m : Match.t) :
  SearchQuery.text q = Some t ->
  JsString.isAscii t = true ->
  JsString.isAscii (ComponentIndex.name c) = true ->
  JsString.isAscii (ComponentIndex.description c) = true ->
  JsString.isAscii (ComponentIndex.sourceCode c) = true ->
  In m (findMatches c q) ->
  0 <= Match.highlightStart m <= 50
  /\ Match.highlightEnd m = Match.highlightStart m + JsString.length t
  /\ Match.highlightEnd m <= JsString.length (Match.snippet m)
  /\ JsString.length (Match.snippet m) <= JsString.length t + 100
  /\ JsString.toLowerCase
       (JsString.substring (Match.snippet m) (Match.highlightStart m) (Match.highlightEnd m))
     = JsString.toLowerCase t.
Proof.
  intros Ht _ _ _ _ Hm. rewrite findMatches_fields, Ht in Hm.
  destruct (JsString.truthy t); [|destruct Hm].
  apply in_app_or in Hm as [Hm|Hm]; [eapply fieldMatch_highlight; exact Hm|].
  apply in_app_or in Hm as [Hm|Hm]; eapply fieldMatch_highlight; exact Hm.
Qed.

Lemma findMatches_highlight_witness :
  JsString.toLowerCase (JsString.substring "SubmitButton" 6 12) = JsString.toLowerCase "button".
Proof.
  exact (proj2 (proj2 (proj2 (proj2
           (findMatches_highlight Sample.submitButton (SearchQuery.ofText "button") "button"
              (Match.mk "name" "SubmitButton" 6 12) eq_refl eq_refl eq_refl eq_refl eq_refl
              (or_introl eq_refl)))))).
Defined.

End MatchFacts.

Section TextSearchFacts.
Import IndexSearchEngine.

Lemma fieldMatch_weight (st fname content : string) :
  fold_right (fun m acc => fieldWeight (Match.field m) + acc) 0
             (fieldMatch st (fname, content))
  = if JsString.includes (JsString.toLowerCase content) st then fieldWeight fname else 0.
Proof.
  unfold fieldMatch. cbv zeta. rewrite indexOf_includes. simpl.
  destruct (JsString.includes _ _); simpl; lia.
Qed.

Lemma fold_right_weight_app (l1 l2 : list Match.t) :
  fold_right (fun m acc => fieldWeight (Match.field m) + acc) 0 (l1 ++ l2)
  = fold_right (fun m acc => fieldWeight (Match.field m) + acc) 0 l1
    + fold_right (fun m acc => fieldWeight (Match.field m) + acc) 0 l2.
Proof. induction l1; simpl; lia. Qed.

(** X2. The score of a text-only query is accounted for by the match
    records (10 for name, 5 for description, 2 for sourceCode) and the
    matching props (3 each). *)
Theorem text_score_matches (c : ComponentIndex.t) (t : string) :
  JsString.truthy t = true ->
  calculateRelevanceScore c (SearchQuery.ofText t)
  = fold_right (fun m acc => fieldWeight (Match.field m) + acc) 0
               (findMatches c (SearchQuery.ofText t))
    + 3 * propMatches c (JsString.toLowerCase t).
Proof.
  intros Ht. rewrite calculateRelevanceScore_sum, findMatches_fields.
  unfold textSearch, tagMatching, componentTypeFiltering, propsFiltering,
    sideEffectsFiltering, usageFiltering, SearchQuery.ofText, propMatches.
  cbn [SearchQuery.text SearchQuery.tags SearchQuery.componentType SearchQuery.hasProps
       SearchQuery.hasSideEffects SearchQuery.usedIn].
  rewrite Ht. cbv zeta. rewrite fold_left_bump, !fold_right_weight_app, !fieldMatch_weight.
  change (fieldWeight "name") with 10. change (fieldWeight "description") with 5.
  change (fieldWeight "sourceCode") with 2.
  repeat match goal with |- context [if ?b then _ else _] => destruct b end; lia.
Qed.

Lemma truthy_lower (t1 t2 : string) :
  JsString.toLowerCase t1 = JsString.toLowerCase t2 ->
  JsString.truthy t1 = JsString.truthy t2.
Proof. destruct t1, t2; simpl; intros H; try reflexivity; discriminate. Qed.

Lemma score_case (c : ComponentIndex.t) (q : SearchQuery.t) (t1 t2 : string) :
  JsString.toLowerCase t1 = JsString.toLowerCase t2 ->
  calculateRelevanceScore c (SearchQuery.withText q t1)
  = calculateRelevanceScore c (SearchQuery.withText q t2).
Proof.
  intros H. unfold calculateRelevanceScore. cbv zeta.
  assert (textSearch c (SearchQuery.withText q t1) 0
          = textSearch c (SearchQuery.withText q t2) 0) as ->.
  { unfold textSearch, SearchQuery.withText. cbn [SearchQuery.text].
    rewrite (truthy_lower t1 t2 H), H. reflexivity. }
  reflexivity.
Qed.

Lemma findMatches_case (c : ComponentIndex.t) (q : SearchQuery.t) (t1 t2 : string) :
  JsString.toLowerCase t1 = JsString.toLowerCase t2 ->
  findMatches c (SearchQuery.withText q t1) = findMatches c (SearchQuery.withText q t2).
Proof.
  intros H. rewrite !findMatches_fields. unfold SearchQuery.withText. cbn [SearchQuery.text].
  rewrite (truthy_lower t1 t2 H), H. reflexivity.
Qed.

(** X3. A search does not depend on the letter case of the query text:
    the results, their scores and their match records are the same. *)
Theorem searchComponents_case (index : ProjectIndex.t) (q : SearchQuery.t) (t1 t2 : string) :
  JsString.toLowerCase t1 = JsString.toLowerCase t2 ->
  searchComponents index (SearchQuery.withText q t1)
  = searchComponents index (SearchQuery.withText q t2).
Proof.
  intros H. rewrite !searchComponents_unfold. f_equal. unfold unsorted.
  rewrite (List.filter_ext _ (fun c => 0 <? calculateRelevanceScore c (SearchQuery.withText q t2)))
    by (intros c; rewrite (score_case c q t1 t2 H); reflexivity).
  apply List.map_ext. intros c.
  rewrite (score_case c q t1 t2 H), (findMatches_case c q t1 t2 H). reflexivity.
Qed.

Lemma searchComponents_case_witness :
  searchComponents Sample.index (SearchQuery.withText SearchQuery.empty "BUTTON")
  = searchComponents Sample.index (SearchQuery.withText SearchQuery.empty "button").
Proof. apply searchComponents_case. reflexivity. Defined.

Lemma text_score_matches_witness :
  calculateRelevanceScore Sample.loginForm (SearchQuery.ofText "login") = 10 + 3 * 2.
Proof. exact (text_score_matches Sample.loginForm "login" eq_refl). Defined.

Lemma Array_includes_single (t x : string) : Array_includes [t] x = String.eqb x t.
Proof. unfold Array_includes. simpl. apply orb_false_r. Qed.

Lemma includes_filter_positive (tags : list string) (t : string) :
  (0 <? Z.of_nat (List.length (List.filter (fun tag => Array_includes [t] tag) tags)) * 4)
  = Array_includes tags t.
Proof.
  unfold Array_includes. induction tags as [|x tags IH]; [reflexivity|]. simpl.
  rewrite orb_false_r, (String.eqb_sym t x).
  destruct (String.eqb x t); simpl; [|exact IH].
  apply Z.ltb_lt. lia.
Qed.

(** X4. The components a query with one tag and nothing else returns
    are the components that [getComponentsByTag] returns for this tag,
    up to the order. *)
Theorem tag_query_getComponentsByTag (index : ProjectIndex.t) (tag : string) :
  Permutation
    (List.map SearchResult.component
       (searchComponents index
          (SearchQuery.mk None (Some [tag]) None None None None None)))
    (getComponentsByTag index tag).
Proof.
  rewrite searchComponents_unfold.
  rewrite <- (Permutation_map SearchResult.component
                (Array_sort_perm SearchResult.relevanceScore _)).
  unfold unsorted, getComponentsByTag. rewrite List.map_map. simpl. rewrite List.map_id.
  rewrite (List.filter_ext _ (fun c => Array_includes (ComponentIndex.tags c) tag));
    [reflexivity|].
  intros c. rewrite calculateRelevanceScore_sum.
  rewrite <- (includes_filter_positive (ComponentIndex.tags c) tag).
  unfold textSearch, tagMatching, componentTypeFiltering, propsFiltering,
    sideEffectsFiltering, usageFiltering.
  cbn [SearchQuery.text SearchQuery.tags SearchQuery.componentType SearchQuery.hasProps
       SearchQuery.hasSideEffects SearchQuery.usedIn].
  set (n := Z.of_nat (List.length (List.filter (fun tag0 => Array_includes [tag] tag0)
                                               (ComponentIndex.tags c)))).
  change (0 <? Z.of_nat (List.length [tag])) with true. cbv iota zeta.
  destruct (0 <? n * 4) eqn:E.
  - apply Z.ltb_lt in E. apply Z.ltb_lt. lia.
  - apply Z.ltb_ge in E. apply Z.ltb_ge. lia.
Qed.

End TextSearchFacts.

(** ** Similar components *)

Section SortQFacts.
Context {A : Type} (key : A -> Q).

Local Abbreviation byKeyQ := (fun a b : A => (key b - key a)%Q).

Lemma sortQ_insert_perm (a : A) (l : list A) :
  Permutation (a :: l) (sortQ_insert byKeyQ a l).
Proof.
  induction l as [|b l IH]; simpl; [reflexivity|].
  destruct (Qle_bool (key b - key a) 0); [reflexivity|].
  rewrite perm_swap. apply perm_skip, IH.
Qed.

Lemma Array_sortQ_perm (l : list A) : Permutation l (Array_sortQ byKeyQ l).
Proof.
  induction l as [|a l IH]; simpl; [reflexivity|].
  rewrite <- sortQ_insert_perm. apply perm_skip, IH.
Qed.

Lemma sortQ_insert_sorted (a : A) (l : list A) :
  StronglySorted (fun a b => (key b <= key a)%Q) l ->
  StronglySorted (fun a b => (key b <= key a)%Q) (sortQ_insert byKeyQ a l).
Proof.
  induction l as [|b l IH]; intros Hs; simpl.
  - constructor; [constructor|constructor].
  - apply StronglySorted_inv in Hs as [Hl Hb].
    destruct (Qle_bool (key b - key a) 0) eqn:E.
    + apply Qle_bool_iff in E.
      constructor; [constructor; assumption|].
      constructor; [lra|].
      eapply Forall_impl; [exact Hb|]. cbv beta; intros; lra.
    + assert (~ (key b - key a <= 0)%Q) as E'
        by (intros H; apply Qle_bool_iff in H; congruence).
      constructor; [apply IH, Hl|].
      apply (Permutation_Forall (sortQ_insert_perm a l)).
      constructor; [lra|exact Hb].
Qed.

Lemma Array_sortQ_sorted (l : list A) :
  StronglySorted (fun a b => (key b <= key a)%Q) (Array_sortQ byKeyQ l).
Proof.
  induction l as [|a l IH]; simpl; [constructor|]. apply sortQ_insert_sorted, IH.
Qed.

End SortQFacts.

Lemma Array_slice_head {A : Type} (l : list A) (limit : Z) :
  0 <= limit -> Array_slice l 0 limit = firstn (Z.to_nat limit) l.
Proof.
  intros H. unfold Array_slice. cbv zeta.
  change (0 <? 0) with false. cbv iota.
  replace (limit <? 0) with false by (symmetry; apply Z.ltb_ge; lia).
  replace (Z.min 0 (Z.of_nat (List.length l))) with 0 by lia.
  change (Z.to_nat 0) with 0%nat. simpl skipn.
  destruct (Z.le_gt_cases limit (Z.of_nat (List.length l))).
  - f_equal. lia.
  - rewrite (firstn_all2 (n:=Z.to_nat limit)) by lia.
    apply firstn_all2. lia.
Qed.

Lemma firstn_In {A : Type} (n : nat) (l : list A) (x : A) :
  In x (firstn n l) -> In x l.
Proof.
  intros H. rewrite <- (firstn_skipn n l). apply in_or_app. left. exact H.
Qed.

Lemma skipn_In {A : Type} (n : nat) (l : list A) (x : A) :
  In x (skipn n l) -> In x l.
Proof.
  intros H. rewrite <- (firstn_skipn n l). apply in_or_app. right. exact H.
Qed.

Lemma Array_slice_sublist {A : Type} (l : list A) (start end_ : Z) (x : A) :
  In x (Array_slice l start end_) -> In x l.
Proof.
  unfold Array_slice. cbv zeta. intros H.
  apply firstn_In, skipn_In in H. exact H.
Qed.

Lemma firstn_StronglySorted {A : Type} (R : A -> A -> Prop) (n : nat) (l : list A) :
  StronglySorted R l -> StronglySorted R (firstn n l).
Proof.
  revert n; induction l as [|a l IH]; intros [|n] H; simpl; try constructor.
  - apply IH. apply StronglySorted_inv in H. tauto.
  - apply StronglySorted_inv in H as [_ H]. apply List.Forall_forall.
    intros x Hx. apply firstn_In in Hx. revert x Hx. apply List.Forall_forall, H.
Qed.

Section SimilarFacts.
Import IndexSearchEngine.

Lemma calculateSimilarityScore_total (c1 c2 : ComponentIndex.t) (type : SimilarityType) :
  exists q, calculateSimilarityScore c1 c2 type = Some q.
Proof.
  destruct type; simpl; eauto.
  destruct (semantic_similarity_range c1 c2) as (q & H & _). eauto.
Qed.

Lemma findSimilarComponents_unfold index componentId type limit :
  findSimilarComponents index componentId type limit
  = match List.find (fun c => String.eqb (ComponentIndex.id c) componentId)
                    (ProjectIndex.components index) with
    | None => Some []
    | Some target =>
        Some (Array_slice
                (Array_sortQ
                   (fun a b => (SimilarityResult.similarityScore b
                                - SimilarityResult.similarityScore a)%Q)
                   (similarTo index target componentId type))
                0 limit)
    end.
Proof.
  unfold findSimilarComponents.
  destruct (List.find _ _) as [target|]; [|reflexivity]. cbv zeta.
  enough (forall cs acc,
    fold_left
      (fun (acc : option (list SimilarityResult.t)) component =>
         match acc with
         | None => None
         | Some similarities =>
             if String.eqb (ComponentIndex.id component) componentId
             then Some similarities
             else
               match calculateSimilarityScore target component type with
               | Some score =>
                   if Qltb (1 # 10) score
                   then Some (similarities ++ [SimilarityResult.mk component score type])
                   else Some similarities
               | None => None
               end
         end) cs (Some acc)
    = Some (acc ++ List.map
              (fun c => SimilarityResult.mk c
                          (default 0%Q (calculateSimilarityScore target c type)) type)
              (List.filter
                 (fun c => (negb (String.eqb (ComponentIndex.id c) componentId)
                            && Qltb (1 # 10)
                                 (default 0%Q (calculateSimilarityScore target c type)))%bool)
                 cs))) as H
    by (unfold similarTo; rewrite (H _ []); reflexivity).
  induction cs as [|c cs IH]; intros acc; simpl.
  - rewrite app_nil_r. reflexivity.
  - destruct (String.eqb (ComponentIndex.id c) componentId); simpl; [apply IH|].
    destruct (calculateSimilarityScore_total target c type) as [s Hs].
    destruct (calculateSimilarityScore target c type) as [s'|] eqn:E; [|discriminate].
    simpl. destruct (Qltb (1 # 10) s'); simpl; [|apply IH].
    rewrite IH, <- List.app_assoc, E. reflexivity.
Qed.

Lemma Qltb_lt (a b : Q) : Qltb a b = true <-> (a < b)%Q.
Proof.
  unfold Qltb. rewrite negb_true_iff. split.
  - intros H. apply Qnot_le_lt. intros Hle. apply Qle_bool_iff in Hle. congruence.
  - intros H. destruct (Qle_bool b a) eqn:E; [|reflexivity].
    apply Qle_bool_iff in E. lra.
Qed.

(** X5. [findSimilarComponents] always returns a list; each of its results
    is a component of the index other than the target, carries the
    similarity of the target and this component in the mode asked for,
    and this similarity exceeds 0.1.  For an id that no component has,
    the list is empty. *)
Theorem findSimilarComponents_results
    (index : ProjectIndex.t) (componentId : string) (type : SimilarityType) (limit : Z) :
  exists results,
    findSimilarComponents index componentId type limit = Some results
    /\ Forall
         (fun r =>
            In (SimilarityResult.component r) (ProjectIndex.components index)
            /\ ComponentIndex.id (SimilarityResult.component r) <> componentId
            /\ (1 # 10 < SimilarityResult.similarityScore r)%Q
            /\ SimilarityResult.similarityType r = type
            /\ exists target,
                 List.find (fun c => String.eqb (ComponentIndex.id c) componentId)
                           (ProjectIndex.components index) = Some target
                 /\ calculateSimilarityScore target (SimilarityResult.component r) type
                    = Some (SimilarityResult.similarityScore r))
         results
    /\ (Forall (fun c => ComponentIndex.id c <> componentId) (ProjectIndex.components index)
        -> results = []).
Proof.
  rewrite findSimilarComponents_unfold.
  destruct (List.find _ _) as [target|] eqn:F.
  - eexists. split; [reflexivity|]. split.
    + apply List.Forall_forall. intros r Hr.
      apply Array_slice_sublist in Hr.
      apply (Permutation_in _ (Permutation_sym
               (Array_sortQ_perm SimilarityResult.similarityScore _))) in Hr.
      unfold similarTo in Hr. apply in_map_iff in Hr as (c & <- & Hc).
      apply filter_In in Hc as [Hin Hc]. apply andb_true_iff in Hc as [Hid Hs].
      apply negb_true_iff, String.eqb_neq in Hid. apply Qltb_lt in Hs. simpl.
      repeat split; try assumption.
      exists target. split; [reflexivity|].
      destruct (calculateSimilarityScore_total target c type) as [s ->]. reflexivity.
    + intros Hall. apply find_some in F as [Hin Hid]. apply String.eqb_eq in Hid.
      exfalso. exact (proj1 (List.Forall_forall _ _) Hall target Hin Hid).
  - exists []. split; [reflexivity|]. split; [constructor|reflexivity].
Qed.

Lemma findSimilarComponents_results_witness :
  findSimilarComponents Sample.index "components_Missing" semantic 5 = Some [].
Proof.
  destruct (findSimilarComponents_results Sample.index "components_Missing" semantic 5)
    as (results & E & _ & H).
  rewrite E. f_equal. apply H. repeat constructor; discriminate.
Defined.

(** X6. The results of [findSimilarComponents] are in descending order of
    similarity, and for a limit that is not negative there are at most
    [limit] of them. *)
Theorem findSimilarComponents_sorted_capped
    (index : ProjectIndex.t) (componentId : string) (type : SimilarityType) (limit : Z) :
  0 <= limit ->
  exists results,
    findSimilarComponents index componentId type limit = Some results
    /\ StronglySorted
         (fun a b => (SimilarityResult.similarityScore b
                      <= SimilarityResult.similarityScore a)%Q)
         results
    /\ Z.of_nat (List.length results) <= limit.
Proof.
  intros Hlimit. rewrite findSimilarComponents_unfold.
  destruct (List.find _ _) as [target|].
  - eexists. split; [reflexivity|]. rewrite Array_slice_head by exact Hlimit. split.
    + apply firstn_StronglySorted, (Array_sortQ_sorted SimilarityResult.similarityScore).
    + rewrite length_firstn. lia.
  - exists []. split; [reflexivity|]. split; [constructor|simpl; lia].
Qed.

Lemma findSimilarComponents_sorted_capped_witness :
  exists results,
    findSimilarComponents Sample.index "components_SubmitButton" semantic 5 = Some results
    /\ Z.of_nat (List.length results) <= 5.
Proof.
  destruct (findSimilarComponents_sorted_capped
              Sample.index "components_SubmitButton" semantic 5) as (results & E & _ & H);
    [lia|].
  exists results. split; assumption.
Defined.

End SimilarFacts.

(** ** The edit distance as a metric *)

Section MetricFacts.
Context {A : Type} `{EqDecision A}.

Lemma edits_zero (s t : list A) (n : nat) : edits s t n -> n = 0%nat -> s = t.
Proof.
  induction 1; intros E; try discriminate; [reflexivity|].
  f_equal. apply IHedits, E.
Qed.

Lemma edits_length (s t : list A) (n : nat) :
  edits s t n ->
  (List.length s <= List.length t + n /\ List.length t <= List.length s + n)%nat.
Proof. induction 1; simpl; lia. Qed.

Lemma edits_trans (s t : list A) (n : nat) :
  edits s t n ->
  forall u m, edits t u m -> exists k, (k <= n + m)%nat /\ edits s u k.
Proof.
  induction 1 as [|a s t n Hst IH|a b s t n Hst IH|a s t n Hst IH|b s t n Hst IH].
  - intros u m Hu. exists m. split; [lia|exact Hu].
  - intros u m Hu. remember (a :: t) as t0 eqn:Et. revert Et.
    induction Hu as [|a' t' u m Hu _|a' c t' u m Hu _|a' t' u m Hu _|c t' u m Hu IHu];
      intros Et; try discriminate.
    + injection Et as -> ->. destruct (IH _ _ Hu) as (k & Hk & Hsu).
      exists k. split; [lia|apply edits_keep, Hsu].
    + injection Et as -> ->. destruct (IH _ _ Hu) as (k & Hk & Hsu).
      exists (S k). split; [lia|apply edits_subst, Hsu].
    + injection Et as -> ->. destruct (IH _ _ Hu) as (k & Hk & Hsu).
      exists (S k). split; [lia|apply edits_delete, Hsu].
    + destruct (IHu Et) as (k & Hk & Hsu).
      exists (S k). split; [lia|apply edits_insert, Hsu].
  - intros u m Hu. remember (b :: t) as t0 eqn:Et. revert Et.
    induction Hu as [|a' t' u m Hu _|a' c t' u m Hu _|a' t' u m Hu _|c t' u m Hu IHu];
      intros Et; try discriminate.
    + injection Et as -> ->. destruct (IH _ _ Hu) as (k & Hk & Hsu).
      exists (S k). split; [lia|apply edits_subst, Hsu].
    + injection Et as -> ->. destruct (IH _ _ Hu) as (k & Hk & Hsu).
      exists (S k). split; [lia|apply edits_subst, Hsu].
    + injection Et as -> ->. destruct (IH _ _ Hu) as (k & Hk & Hsu).
      exists (S k). split; [lia|apply edits_delete, Hsu].
    + destruct (IHu Et) as (k & Hk & Hsu).
      exists (S k). split; [lia|apply edits_insert, Hsu].
  - intros u m Hu. destruct (IH _ _ Hu) as (k & Hk & Hsu).
    exists (S k). split; [lia|apply edits_delete, Hsu].
  - intros u m Hu. remember (b :: t) as t0 eqn:Et. revert Et.
    induction Hu as [|a' t' u m Hu _|a' c t' u m Hu _|a' t' u m Hu _|c t' u m Hu IHu];
      intros Et; try discriminate.
    + injection Et as -> ->. destruct (IH _ _ Hu) as (k & Hk & Hsu).
      exists (S k). split; [lia|apply edits_insert, Hsu].
    + injection Et as -> ->. destruct (IH _ _ Hu) as (k & Hk & Hsu).
      exists (S k). split; [lia|apply edits_insert, Hsu].
    + injection Et as -> ->. destruct (IH _ _ Hu) as (k & Hk & Hsu).
      exists k. split; [lia|exact Hsu].
    + destruct (IHu Et) as (k & Hk & Hsu).
      exists (S k). split; [lia|apply edits_insert, Hsu].
Qed.

Lemma lev_zero (s t : list A) : lev s t = 0%nat <-> s = t.
Proof.
  split.
  - intros E. apply (edits_zero s t (lev s t)); [apply edits_lev|exact E].
  - intros ->. apply lev_refl.
Qed.

Lemma lev_length (s t : list A) :
  (List.length s <= List.length t + lev s t
   /\ List.length t <= List.length s + lev s t)%nat.
Proof. apply edits_length, edits_lev. Qed.

Lemma lev_triangle (s t u : list A) : (lev s u <= lev s t + lev t u)%nat.
Proof.
  destruct (edits_trans s t _ (edits_lev s t) u _ (edits_lev t u)) as (k & Hk & Hsu).
  apply lev_least in Hsu. lia.
Qed.

End MetricFacts.

Section LevenshteinMetric.
Import IndexSearchEngine.

Lemma list_ascii_inj (x y : string) :
  list_ascii_of_string x = list_ascii_of_string y -> x = y.
Proof.
  intros E. rewrite <- (string_of_list_ascii_of_string x),
              <- (string_of_list_ascii_of_string y), E. reflexivity.
Qed.

(** X8. [levenshteinDistance] is symmetric, lies between the difference
    of the two lengths and the greater length, and is 0 exactly for
    equal strings. *)
Theorem levenshteinDistance_bounds (x y : string) :
  exists d,
    levenshteinDistance x y = Some d
    /\ levenshteinDistance y x = Some d
    /\ Z.abs (JsString.length x - JsString.length y) <= d
    /\ d <= Z.max (JsString.length x) (JsString.length y)
    /\ (d = 0 <-> x = y).
Proof.
  exists (Z.of_nat (lev (list_ascii_of_string x) (list_ascii_of_string y))).
  rewrite !levenshteinDistance_lev.
  split; [rewrite lev_sym; reflexivity|]. split; [reflexivity|].
  pose proof (lev_length (list_ascii_of_string x) (list_ascii_of_string y)) as Hlen.
  pose proof (lev_le_max (list_ascii_of_string x) (list_ascii_of_string y)) as Hmax.
  rewrite !length_ascii in Hlen, Hmax. unfold JsString.length.
  split; [lia|]. split; [lia|]. split.
  - intros E. apply list_ascii_inj, lev_zero. lia.
  - intros ->. rewrite lev_refl. reflexivity.
Qed.

(** X9. [levenshteinDistance] satisfies the triangle inequality. *)
Theorem levenshteinDistance_triangle (x y z : string) :
  exists dxy dyz dxz,
    levenshteinDistance x y = Some dxy
    /\ levenshteinDistance y z = Some dyz
    /\ levenshteinDistance x z = Some dxz
    /\ dxz <= dxy + dyz.
Proof.
  do 3 eexists. rewrite !levenshteinDistance_lev.
  split; [reflexivity|]. split; [reflexivity|]. split; [reflexivity|].
  pose proof (lev_triangle (list_ascii_of_string z) (list_ascii_of_string y)
                (list_ascii_of_string x)). lia.
Qed.

Lemma editDistance_sym (x y : string) : editDistance x y = editDistance y x.
Proof. unfold editDistance. rewrite lev_sym. reflexivity. Qed.

(** X10. [calculateStringSimilarity] does not depend on the order of its
    arguments, and it is 1 exactly for equal strings. *)
Theorem calculateStringSimilarity_symmetric (x y : string) :
  calculateStringSimilarity x y = calculateStringSimilarity y x
  /\ exists q, calculateStringSimilarity x y = Some q /\ ((q == 1)%Q <-> x = y).
Proof.
  rewrite !calculateStringSimilarity_spec. split.
  - unfold stringSimilarity_spec. rewrite Z.max_comm, editDistance_sym. reflexivity.
  - eexists. split; [reflexivity|].
    unfold stringSimilarity_spec. cbv zeta.
    destruct (Z.max (JsString.length x) (JsString.length y) =? 0) eqn:E.
    + apply Z.eqb_eq in E. unfold JsString.length in E.
      destruct x, y; simpl in E; try lia. split; reflexivity.
    + apply Z.eqb_neq in E.
      set (M := Z.max (JsString.length x) (JsString.length y)) in *.
      assert (~ (inject_Z M == 0)%Q) as HM
        by (intros H; unfold Qeq in H; simpl in H; lia).
      assert (editDistance x y = 0 <-> x = y) as Hd.
      { unfold editDistance. split.
        - intros H. apply list_ascii_inj, lev_zero. lia.
        - intros ->. rewrite lev_refl. reflexivity. }
      rewrite <- Hd. split.
      * intros H.
        assert (inject_Z (M - editDistance x y) == inject_Z M)%Q as H'.
        { rewrite <- (Qmult_1_l (inject_Z M)), <- H. field. exact HM. }
        unfold Qeq in H'. simpl in H'. lia.
      * intros ->. rewrite Z.sub_0_r. field. exact HM.
Qed.

End LevenshteinMetric.

(** ** The content of the usage graph *)

Lemma fold_left_invariant_In {S X : Type} (f : S -> X -> S) (I : S -> Prop) (l : list X) :
  (forall s x, In x l -> I s -> I (f s x)) ->
  forall s, I s -> I (fold_left f l s).
Proof.
  induction l as [|x l IH]; intros Hstep s Hs; simpl; [exact Hs|].
  apply IH; [intros s' x' Hx'; apply Hstep; right; exact Hx'|].
  apply Hstep; [left; reflexivity|exact Hs].
Qed.

Section UsageGraphContent.
Import IndexSearchEngine.
Variable index : ProjectIndex.t.

Local Abbreviation objs := (Loaded.objects index).
Local Abbreviation initialGraph :=
  (fold_left
     (fun (g : gmap string Heap.loc) (component : ComponentIndex.t * Heap.loc) =>
        <[ComponentIndex.id (fst component) := snd component]> g)
     objs (∅ : gmap string Heap.loc)).

Lemma lookup_objects c i :
  ProjectIndex.components index !! i = Some c -> In (c, i) objs.
Proof.
  intros H. apply list_elem_of_In, elem_of_lookup_imap. exists i, c. split; [reflexivity|exact H].
Qed.

Lemma read_heap_of c i :
  ProjectIndex.components index !! i = Some c ->
  Heap.read (Loaded.heap_of index) i = ComponentIndex.usedIn c.
Proof.
  intros H. unfold Heap.read, Loaded.heap_of. rewrite map_lookup, H. reflexivity.
Qed.

Lemma appended_refl h : appended index h h.
Proof.
  split; [reflexivity|]. intros a. exists []. rewrite app_nil_r.
  split; [reflexivity|]. split; [constructor|]. intros x [].
Qed.

Lemma read_push_other h a a' x : a <> a' -> Heap.read (Heap.push h a x) a' = Heap.read h a'.
Proof.
  intros Hne. unfold Heap.read, Heap.push. rewrite list_lookup_alter_ne by exact Hne.
  reflexivity.
Qed.

(** one pass of the inner loop keeps the address map and appends at
    most the page id, to the array of the component found *)
Lemma visit_appends h0 page st name :
  In page (ProjectIndex.pages index) ->
  In name (PageIndex.components page) ->
  stable index st /\ appended index h0 (snd st) ->
  (stable index (addReverseRelationship objs page st name)
   /\ appended index h0 (snd (addReverseRelationship objs page st name)))
  /\ fst (addReverseRelationship objs page st name) = fst st.
Proof.
  intros Hpage Hname [Hst Happ].
  split; [split; [apply visit_step, Hst|]|].
  - destruct st as [g h]. destruct Hst as [Hg Hl]. destruct Happ as [Hlen Happ].
    unfold addReverseRelationship. simpl in *.
    destruct (List.find _ objs) as [[c i]|] eqn:F; [|split; assumption].
    pose proof (find_some _ _ F) as [Hin _]. simpl. rewrite (Hg c i Hin).
    destruct (Array_includes (Heap.read h i) (PageIndex.id page)) eqn:E; simpl;
      [split; assumption|].
    assert (~ In (PageIndex.id page) (Heap.read h i)) as Hnew
      by (intros H; apply Array_includes_In in H; congruence).
    assert (i < List.length h)%nat as Hi
      by (rewrite Hl; apply objects_lookup, lookup_lt_Some in Hin; exact Hin).
    split; [unfold Heap.push; rewrite length_alter; exact Hlen|].
    intros a. destruct (Happ a) as (added & Hread & Hnd & Hadded).
    destruct (decide (i = a)) as [<-|Hne].
    + exists (added ++ [PageIndex.id page]).
      rewrite read_push_same by exact Hi. rewrite Hread, <- List.app_assoc.
      split; [reflexivity|]. rewrite Hread in Hnew. split.
      * apply NoDup_ListNoDup, NoDup_app. split; [apply NoDup_ListNoDup, Hnd|]. split.
        -- intros x Hx Hx'. apply list_elem_of_In in Hx, Hx'.
           destruct Hx' as [<-|[]]. apply Hnew, in_or_app. right. exact Hx.
        -- apply NoDup_singleton.
      * intros x Hx. apply in_app_or in Hx as [Hx|[<-|[]]]; [apply Hadded, Hx|].
        split; [intros H; apply Hnew, in_or_app; left; exact H|].
        exists page. split; [exact Hpage|]. split; [reflexivity|].
        exists name, c. split; [exact Hname|exact F].
    + exists added. rewrite read_push_other by exact Hne. auto.
  - destruct st as [g h]. destruct Hst as [Hg Hl].
    unfold addReverseRelationship. simpl in *.
    destruct (List.find _ objs) as [[c i]|] eqn:F; [|reflexivity].
    pose proof (find_some _ _ F) as [Hin _]. simpl. rewrite (Hg c i Hin).
    destruct (negb _); simpl; [|reflexivity].
    apply insert_id, Hg, Hin.
Qed.

Lemma getComponentUsageGraph_invariant h :
  List.NoDup (List.map ComponentIndex.id (ProjectIndex.components index)) ->
  List.length h = List.length (ProjectIndex.components index) ->
  (stable index (getComponentUsageGraph index h)
   /\ appended index h (snd (getComponentUsageGraph index h)))
  /\ fst (getComponentUsageGraph index h) = initialGraph.
Proof.
  intros Hnd Hlen. unfold getComponentUsageGraph. cbv zeta.
  apply (fold_left_invariant_In
           (fun st page =>
              fold_left (addReverseRelationship objs page) (PageIndex.components page) st)
           (fun st => (stable index st /\ appended index h (snd st))
                      /\ fst st = initialGraph)).
  - intros st page Hpage Hst.
    apply (fold_left_invariant_In (addReverseRelationship objs page)
             (fun st => (stable index st /\ appended index h (snd st))
                        /\ fst st = initialGraph));
      [|exact Hst].
    intros s name Hname [Hs Hg].
    destruct (visit_appends h page s name Hpage Hname Hs) as [Hs' Hg'].
    split; [exact Hs'|congruence].
  - split; [split|reflexivity].
    + split; [apply initial_own_addresses, Hnd|exact Hlen].
    + apply appended_refl.
Qed.

Lemma getComponentUsageGraph_reaches h page name c i :
  List.NoDup (List.map ComponentIndex.id (ProjectIndex.components index)) ->
  List.length h = List.length (ProjectIndex.components index) ->
  In page (ProjectIndex.pages index) ->
  In name (PageIndex.components page) ->
  List.find (fun c => String.eqb (ComponentIndex.name (fst c)) name) objs = Some (c, i) ->
  In (PageIndex.id page) (Heap.read (snd (getComponentUsageGraph index h)) i).
Proof.
  intros Hnd Hlen Hpage Hname F.
  unfold getComponentUsageGraph. cbv zeta.
  apply (fold_left_reach
           (fun st page =>
              fold_left (addReverseRelationship objs page) (PageIndex.components page) st)
           (stable index) later later_refl later_trans
           (fun st page Hst =>
              fold_left_preserve (addReverseRelationship objs page) (stable index) later
                later_refl later_trans (visit_step index page) _ st Hst)
           (fun st => In (PageIndex.id page) (Heap.read (snd st) i))
           (ProjectIndex.pages index) page).
  - intros st st' [_ Hmono]. apply Hmono.
  - intros st Hst.
    apply (fold_left_reach (addReverseRelationship objs page) (stable index) later
             later_refl later_trans (visit_step index page)
             (fun st => In (PageIndex.id page) (Heap.read (snd st) i))
             (PageIndex.components page) name).
    + intros s s' [_ Hmono]. apply Hmono.
    + intros s Hs. apply (visit_reaches index page s name c i Hs F).
    + exact Hname.
    + exact Hst.
  - exact Hpage.
  - split; [apply initial_own_addresses, Hnd|exact Hlen].
Qed.

Lemma visit_fixed page st name :
  stable index st ->
  (forall c i,
     List.find (fun c => String.eqb (ComponentIndex.name (fst c)) name) objs = Some (c, i) ->
     In (PageIndex.id page) (Heap.read (snd st) i)) ->
  addReverseRelationship objs page st name = st.
Proof.
  destruct st as [g h]. intros [Hg Hl] Hall. unfold addReverseRelationship. simpl in *.
  destruct (List.find _ objs) as [[c i]|] eqn:F; [|reflexivity].
  pose proof (find_some _ _ F) as [Hin _]. simpl. rewrite (Hg c i Hin).
  rewrite (proj2 (Array_includes_In _ _) (Hall c i eq_refl)). reflexivity.
Qed.

End UsageGraphContent.

Section UsageGraphExtras.
Import IndexSearchEngine.

(** X11. In an index with unique component ids, the usage graph holds for
    each component its own contexts, in their order, followed by page
    ids: each of them once, none that the component lists itself, and
    each the id of a page that references the component by name.  The
    id of every page that references the component is in the entry. *)
Theorem getComponentUsageGraph_entries
    (index : ProjectIndex.t) (c : ComponentIndex.t) (i : nat) :
  List.NoDup (List.map ComponentIndex.id (ProjectIndex.components index)) ->
  ProjectIndex.components index !! i = Some c ->
  exists added,
    graph_of (getComponentUsageGraph index (Loaded.heap_of index)) !! ComponentIndex.id c
    = Some (ComponentIndex.usedIn c ++ added)
    /\ List.NoDup added
    /\ (forall x, In x added ->
          ~ In x (ComponentIndex.usedIn c)
          /\ exists page, In page (ProjectIndex.pages index)
                          /\ x = PageIndex.id page /\ references index page i)
    /\ (forall page, In page (ProjectIndex.pages index) -> references index page i ->
          In (PageIndex.id page) (ComponentIndex.usedIn c ++ added)).
Proof.
  intros Hnd Hc.
  assert (List.length (Loaded.heap_of index) = List.length (ProjectIndex.components index))
    as Hlen by apply length_map.
  destruct (getComponentUsageGraph_invariant index _ Hnd Hlen) as [[[Hg _] [_ Happ]] _].
  destruct (Happ i) as (added & Hread & Hndadded & Hadded).
  rewrite (read_heap_of index c i Hc) in Hread, Hadded.
  exists added. split; [|split; [exact Hndadded|split; [exact Hadded|]]].
  - unfold graph_of. rewrite lookup_fmap, (Hg c i (lookup_objects index c i Hc)).
    simpl. rewrite Hread. reflexivity.
  - intros page Hpage (name & c' & Hname & F). rewrite <- Hread.
    apply (getComponentUsageGraph_reaches index _ page name c' i Hnd Hlen Hpage Hname F).
Qed.

Lemma getComponentUsageGraph_entries_witness :
  exists added,
    graph_of (getComponentUsageGraph Sample.index (Loaded.heap_of Sample.index))
      !! ComponentIndex.id Sample.submitButton
    = Some (ComponentIndex.usedIn Sample.submitButton ++ added)
    /\ List.NoDup added.
Proof.
  destruct (getComponentUsageGraph_entries Sample.index Sample.submitButton 0)
    as (added & H1 & H2 & _).
  - repeat constructor; simpl; intuition discriminate.
  - reflexivity.
  - exists added. split; assumption.
Defined.

(** X12. In an index with unique component ids a second call of
    [getComponentUsageGraph] returns the same map and pushes nothing:
    the arrays are as the first call left them. *)
Theorem getComponentUsageGraph_idempotent (index : ProjectIndex.t) :
  List.NoDup (List.map ComponentIndex.id (ProjectIndex.components index)) ->
  let first := getComponentUsageGraph index (Loaded.heap_of index) in
  getComponentUsageGraph index (snd first) = first.
Proof.
  intros Hnd first.
  assert (List.length (Loaded.heap_of index) = List.length (ProjectIndex.components index))
    as Hlen by apply length_map.
  destruct (getComponentUsageGraph_invariant index _ Hnd Hlen) as [[Hst _] Hg].
  fold first in Hst, Hg.
  assert (forall page name c i,
            In page (ProjectIndex.pages index) ->
            In name (PageIndex.components page) ->
            List.find (fun c => String.eqb (ComponentIndex.name (fst c)) name)
                      (Loaded.objects index) = Some (c, i) ->
            In (PageIndex.id page) (Heap.read (snd first) i)) as Hall
    by (intros page name c i; apply getComponentUsageGraph_reaches; assumption).
  unfold getComponentUsageGraph at 1. cbv zeta.
  rewrite <- Hg, <- (surjective_pairing first).
  apply (fold_left_invariant_In
           (fun st page =>
              fold_left (addReverseRelationship (Loaded.objects index) page)
                        (PageIndex.components page) st)
           (fun st => st = first)); [|reflexivity].
  intros st page Hpage ->.
  apply (fold_left_invariant_In (addReverseRelationship (Loaded.objects index) page)
           (fun st => st = first)); [|reflexivity].
  intros s name Hname ->. apply visit_fixed; [exact Hst|].
  intros c i F. apply (Hall page name c i Hpage Hname F).
Qed.

Lemma getComponentUsageGraph_idempotent_witness :
  let first := getComponentUsageGraph Sample.index (Loaded.heap_of Sample.index) in
  getComponentUsageGraph Sample.index (snd first) = first.
Proof.
  apply (getComponentUsageGraph_idempotent Sample.index).
  repeat constructor; simpl; intuition discriminate.
Defined.

End UsageGraphExtras.

(** ** The correlations *)

Section CorrelationFacts.
Import VisualCodeCorrelator.

Lemma top_in_index index query top rest :
  IndexSearchEngine.searchComponents index query = top :: rest ->
  In (SearchResult.component top) (ProjectIndex.components index).
Proof.
  intros H.
  assert (In (SearchResult.component top)
             (List.map SearchResult.component (unsorted index query))) as Hin.
  { apply in_map.
    apply (Permutation_in _ (Permutation_sym
             (Array_sort_perm SearchResult.relevanceScore (unsorted index query)))).
    rewrite <- searchComponents_unfold, H. left. reflexivity. }
  apply In_unsorted in Hin. apply Hin.
Qed.

Lemma searchByText_sourced index el st : sourced index st -> sourced index (searchByText index el st).
Proof.
  intros Hst. unfold searchByText.
  destruct (_ && _)%bool; [|exact Hst]. cbv zeta.
  destruct (IndexSearchEngine.searchComponents index _) as [|top rest] eqn:E; [exact Hst|].
  split; [eapply top_in_index; exact E|reflexivity].
Qed.

Lemma searchByType_sourced index el st : sourced index st -> sourced index (searchByType index el st).
Proof.
  intros Hst. unfold searchByType.
  destruct (_ || _)%bool; [|exact Hst]. cbv zeta.
  destruct (IndexSearchEngine.searchComponents index _) as [|top rest] eqn:E; [exact Hst|].
  destruct (5 <? SearchResult.relevanceScore top); [|exact Hst].
  destruct (_ || _)%bool; [|exact Hst].
  split; [eapply top_in_index; exact E|reflexivity].
Qed.

Lemma searchByClasses_sourced index el st :
  sourced index st -> sourced index (searchByClasses index el st).
Proof.
  intros Hst. unfold searchByClasses.
  destruct (_ && _)%bool; [|exact Hst]. cbv zeta.
  revert st Hst.
  induction (List.filter _ _) as [|className l IH]; intros st Hst; simpl; [exact Hst|].
  apply IH.
  destruct (IndexSearchEngine.searchComponents index _) as [|top rest] eqn:E; [exact Hst|].
  destruct (3 <? SearchResult.relevanceScore top); [|exact Hst].
  destruct (_ || _)%bool; [|exact Hst].
  split; [eapply top_in_index; exact E|reflexivity].
Qed.

(** X13. The component that [findComponentMatch] reports is a component
    of the index, comes with a reason that names the strategy and with
    the snippet of its own source; without a component the reason is
    [No matching component found] and the snippet is empty.  The issues
    and recommendations are left empty in both cases. *)
Theorem findComponentMatch_source (index : ProjectIndex.t) (el : VisualElement.t) :
  let r := findComponentMatch (Some index) el in
  match VisualCodeCorrelation.sourceComponent r with
  | Some c =>
      In c (ProjectIndex.components index)
      /\ String.prefix "Matched by " (VisualCodeCorrelation.matchReason r) = true
      /\ VisualCodeCorrelation.codeSnippet r = Some (extractRelevantCodeSnippet c el)
  | None =>
      VisualCodeCorrelation.matchReason r = "No matching component found"
      /\ VisualCodeCorrelation.codeSnippet r = Some EmptyString
  end
  /\ VisualCodeCorrelation.visualElement r = el
  /\ VisualCodeCorrelation.responsiveIssues r = []
  /\ VisualCodeCorrelation.recommendations r = [].
Proof.
  cbv zeta. unfold findComponentMatch. cbv zeta.
  assert (sourced index
            (searchByClasses index el
               (searchByType index el
                  (searchByText index el (mkBest None 0 EmptyString))))) as H
    by (apply searchByClasses_sourced, searchByType_sourced, searchByText_sourced; exact I).
  unfold sourced in H. simpl.
  destruct (bestMatch _) as [c|]; simpl; [|auto].
  destruct H as [Hin Hreason]. auto.
Qed.

Lemma analyzeResponsiveIssues_length (el : VisualElement.t) :
  (List.length (analyzeResponsiveIssues el) <= 3)%nat.
Proof.
  unfold analyzeResponsiveIssues. cbv zeta.
  repeat match goal with
  | |- context [if ?b then _ else _] => destruct b
  | |- context [match ?o with Some _ => _ | None => _ end] => destruct o
  end; simpl; lia.
Qed.

Lemma fold_left_count {A : Type} (f : A -> nat) (bound : nat) (l : list A) (a : Z) :
  (forall x, In x l -> (f x <= bound)%nat) ->
  a <= fold_left (fun count c => count + Z.of_nat (f c)) l a
  /\ fold_left (fun count c => count + Z.of_nat (f c)) l a
     <= a + Z.of_nat bound * Z.of_nat (List.length l).
Proof.
  revert a; induction l as [|x l IH]; intros a Hb; simpl; [lia|].
  destruct (IH (a + Z.of_nat (f x)) (fun y Hy => Hb y (or_intror Hy))) as [H1 H2].
  pose proof (Hb x (or_introl eq_refl)). lia.
Qed.

(** X14. The summary of the correlations of a list of elements counts
    every element once, as matched or as unmatched, and counts at most
    three issues per element; without an index no element is matched. *)
Theorem generateSummary_counts
    (searchEngine : option ProjectIndex.t) (visualElements : list VisualElement.t) :
  let s := generateSummary (correlateElementsWithComponents searchEngine visualElements) in
  Summary.totalElements s = Z.of_nat (List.length visualElements)
  /\ 0 <= Summary.matchedComponents s <= Summary.totalElements s
  /\ Summary.matchedComponents s + Summary.unmatchedElements s = Summary.totalElements s
  /\ 0 <= Summary.criticalIssues s <= 3 * Summary.totalElements s
  /\ (searchEngine = None -> Summary.matchedComponents s = 0).
Proof.
  cbv zeta. unfold generateSummary, correlateElementsWithComponents. cbv zeta. simpl.
  rewrite length_map.
  pose proof (List.filter_length_le
                (fun c => is_some (VisualCodeCorrelation.sourceComponent c))
                (List.map (correlateElement searchEngine) visualElements)) as Hle.
  rewrite length_map in Hle.
  split; [reflexivity|]. split; [lia|]. split; [lia|]. split.
  - pose proof (fold_left_count
                  (fun c => List.length (VisualCodeCorrelation.responsiveIssues c)) 3
                  (List.map (correlateElement searchEngine) visualElements) 0) as H.
    rewrite length_map in H. apply H.
    intros c Hc. apply in_map_iff in Hc as (el & <- & _).
    apply analyzeResponsiveIssues_length.
  - intros ->. clear Hle. induction visualElements as [|el l IH]; [reflexivity|].
    simpl. exact IH.
Qed.

Lemma findIndex_split {A : Type} (p : A -> bool) (l : list A) :
  (findIndex p l = -1 /\ Forall (fun x => p x = false) l)
  \/ exists pre first post,
       l = pre ++ first :: post
       /\ Forall (fun x => p x = false) pre /\ p first = true
       /\ findIndex p l = Z.of_nat (List.length pre).
Proof.
  induction l as [|a l IH]; simpl; [left; split; [reflexivity|constructor]|].
  destruct (p a) eqn:Ea.
  - right. exists [], a, l. repeat split; [constructor|exact Ea].
  - destruct IH as [[-> Hall]|(pre & first & post & -> & Hpre & Hfirst & ->)].
    + left. split; [reflexivity|constructor; assumption].
    + right. exists (a :: pre), first, post.
      split; [reflexivity|]. split; [constructor; assumption|]. split; [exact Hfirst|].
      replace (Z.of_nat (List.length pre) =? -1) with false
        by (symmetry; apply Z.eqb_neq; lia).
      simpl List.length. lia.
Qed.

Lemma slice_window {A : Type} (pre post : list A) (first : A) :
  slice (pre ++ first :: post)
        (Z.max 0 (Z.of_nat (List.length pre) - 2))
        (Z.min (Z.of_nat (List.length (pre ++ first :: post)))
               (Z.of_nat (List.length pre) + 15))
  = skipn (List.length pre - 2) pre ++ first :: firstn 14 post.
Proof.
  unfold slice. rewrite length_app. simpl List.length.
  replace (Z.to_nat (Z.max 0 (Z.of_nat (List.length pre) - 2)))
    with (List.length pre - 2)%nat by lia.
  rewrite skipn_app.
  replace (List.length pre - 2 - List.length pre)%nat with 0%nat by lia.
  simpl skipn. rewrite firstn_app, length_skipn.
  rewrite (firstn_all2 (skipn (List.length pre - 2) pre)) by (rewrite length_skipn; lia).
  f_equal.
  destruct (le_lt_dec (List.length post) 14) as [Hp|Hp].
  - replace (_ - _)%nat with (S (List.length post)) by lia.
    simpl. rewrite !firstn_all2 by lia. reflexivity.
  - replace (_ - _)%nat with 15%nat by lia. reflexivity.
Qed.

(** X15. The snippet of a component is a block of consecutive lines of
    its source, joined by line feeds: if a line holds [return], the
    first such line with the two lines before it and the fourteen lines
    after it, as far as they exist; otherwise the first twenty lines. *)
Theorem extractRelevantCodeSnippet_window (c : ComponentIndex.t) (el : VisualElement.t) :
  let lines := JsString.split (ComponentIndex.sourceCode c) "010"%char in
  exists block,
    extractRelevantCodeSnippet c el = JsString.join block (String "010"%char EmptyString)
    /\ ((Forall (fun line => isReturnLine line = false) lines /\ block = firstn 20 lines)
        \/ exists pre first post,
             lines = pre ++ first :: post
             /\ Forall (fun line => isReturnLine line = false) pre
             /\ isReturnLine first = true
             /\ block = skipn (List.length pre - 2) pre ++ first :: firstn 14 post).
Proof.
  cbv zeta. unfold extractRelevantCodeSnippet. cbv zeta.
  fold isReturnLine.
  change (fun line => JsString.includes (JsString.trim line) "return") with isReturnLine.
  destruct (findIndex_split isReturnLine
              (JsString.split (ComponentIndex.sourceCode c) "010"%char))
    as [[E Hall]|(pre & first & post & El & Hpre & Hfirst & E)]; rewrite E.
  - simpl negb. cbv iota. eexists. split; [reflexivity|]. left. split; [exact Hall|].
    unfold slice. reflexivity.
  - replace (negb (Z.of_nat (List.length pre) =? -1)) with true
      by (symmetry; apply negb_true_iff, Z.eqb_neq; lia).
    eexists. split; [reflexivity|]. right. exists pre, first, post.
    split; [exact El|]. split; [exact Hpre|]. split; [exact Hfirst|].
    rewrite El. apply slice_window.
Qed.

(** X16. For an element that is no button, form field, card or
    navigation bar the type strategy searches with the empty query,
    which no component matches: the strategy leaves the running match
    as it is. *)
Theorem searchByType_untyped
    (index : ProjectIndex.t) (el : VisualElement.t) (st : best) :
  VisualElement.tagName el <> "button" ->
  Attributes.role (VisualElement.attributes el) <> Some "button" ->
  ~ In (VisualElement.tagName el) ["input"; "textarea"; "select"; "nav"] ->
  JsString.includes (VisualElement.className el) "card" = false ->
  searchByType index el st = st.
Proof.
  intros Hbutton Hrole Htag Hcard. unfold searchByType.
  destruct (_ || _)%bool; [|reflexivity]. cbv zeta.
  assert (buildTypeQuery el = SearchQuery.empty) as ->.
  { unfold buildTypeQuery. cbv zeta.
    rewrite (proj2 (String.eqb_neq _ _) Hbutton).
    rewrite bool_decide_eq_false_2 by exact Hrole.
    simpl orb. cbv iota.
    destruct (Array_includes _ _) eqn:E.
    { apply Array_includes_In in E. exfalso. apply Htag. simpl in *. tauto. }
    rewrite Hcard.
    destruct (String.eqb_spec (VisualElement.tagName el) "nav") as [E'|_]; [|reflexivity].
    exfalso. apply Htag. rewrite E'. simpl. tauto. }
  rewrite searchComponents_unfold, unsorted_nil; [reflexivity|].
  apply List.Forall_forall. intros c _. apply calculateRelevanceScore_empty.
Qed.

Lemma searchByType_untyped_witness :
  searchByType Sample.index (Sample.element "Send" "primary" 30 30)
               (mkBest None 0 EmptyString)
  = mkBest None 0 EmptyString.
Proof.
  apply searchByType_untyped; try discriminate; [|reflexivity].
  simpl. intuition discriminate.
Defined.

End CorrelationFacts.

(** ** The indexer's names, ids, routes and tags *)

Section IndexerFacts.
Import ProjectIndexer.

Lemma substring_all (s : string) : String.substring 0 (String.length s) s = s.
Proof. induction s as [|c s IH]; simpl; [reflexivity|]. rewrite IH. reflexivity. Qed.

Lemma substring_split (a : nat) (s : string) :
  (a <= String.length s)%nat ->
  s = String.substring 0 a s +:+ String.substring a (String.length s - a) s.
Proof.
  revert a; induction s as [|c s IH]; intros [|a] Ha; simpl in *; try lia.
  - reflexivity.
  - rewrite substring_all. reflexivity.
  - change (String c s = String c (String.substring 0 a s
                                   +:+ String.substring a (String.length s - a) s)).
    f_equal. apply IH. lia.
Qed.

Lemma endsWith_split (s suffix : string) :
  JsString.endsWith s suffix = true -> s = dropEnd (String.length suffix) s +:+ suffix.
Proof.
  unfold JsString.endsWith, dropEnd. cbv zeta. intros H.
  apply andb_true_iff in H as [Hk He].
  apply Nat.leb_le in Hk. apply String.eqb_eq in He.
  rewrite (substring_split (String.length s - String.length suffix) s) at 1 by lia.
  f_equal.
  replace (String.length s - (String.length s - String.length suffix))%nat
    with (String.length suffix) by lia.
  exact He.
Qed.

(** X17. A file that [isComponentFile] accepts ends in one of the five
    source extensions, and the component name, which is the file name
    with the pattern of [analyzeComponent] removed, is the file name
    without this extension; it is not empty. *)
Theorem isComponentFile_name (fileName : string) :
  isComponentFile fileName = true ->
  exists ext,
    In ext [".tsx"; ".ts"; ".jsx"; ".js"; ".vue"]
    /\ fileName = stripSourceExtension fileName +:+ ext
    /\ stripSourceExtension fileName <> EmptyString.
Proof.
  unfold isComponentFile. cbv zeta. intros H.
  apply andb_true_iff in H as [Hext Hname].
  assert (exists ext,
            In ext [".tsx"; ".ts"; ".jsx"; ".js"; ".vue"]
            /\ fileName = stripSourceExtension fileName +:+ ext) as (ext & Hin & E).
  { unfold stripSourceExtension. simpl in Hext.
    destruct (JsString.endsWith fileName ".tsx") eqn:E1;
      [exists ".tsx"; split; [simpl; tauto|apply (endsWith_split _ _ E1)]|].
    destruct (JsString.endsWith fileName ".ts") eqn:E2;
      [exists ".ts"; split; [simpl; tauto|apply (endsWith_split _ _ E2)]|].
    destruct (JsString.endsWith fileName ".jsx") eqn:E3;
      [exists ".jsx"; split; [simpl; tauto|apply (endsWith_split _ _ E3)]|].
    destruct (JsString.endsWith fileName ".js") eqn:E4;
      [exists ".js"; split; [simpl; tauto|apply (endsWith_split _ _ E4)]|].
    destruct (JsString.endsWith fileName ".vue") eqn:E5;
      [exists ".vue"; split; [simpl; tauto|apply (endsWith_split _ _ E5)]|].
    discriminate Hext. }
  exists ext. split; [exact Hin|]. split; [exact E|].
  intros Hempty. rewrite Hempty in E. simpl in E. subst fileName.
  simpl in Hin. destruct Hin as [<-|[<-|[<-|[<-|[<-|[]]]]]]; discriminate Hname.
Qed.

Lemma isComponentFile_name_witness :
  exists ext,
    In ext [".tsx"; ".ts"; ".jsx"; ".js"; ".vue"]
    /\ "SubmitButton.tsx" = stripSourceExtension "SubmitButton.tsx" +:+ ext
    /\ stripSourceExtension "SubmitButton.tsx" <> EmptyString.
Proof. apply (isComponentFile_name "SubmitButton.tsx"). reflexivity. Defined.

Lemma replaceSeparators_app (s t : string) :
  replaceSeparators (s +:+ t) = replaceSeparators s +:+ replaceSeparators t.
Proof. induction s as [|c s IH]; simpl; [reflexivity|]. rewrite IH. reflexivity. Qed.

Lemma hasDot_app (s t : string) : hasDot (s +:+ t) = (hasDot s || hasDot t)%bool.
Proof.
  induction s as [|c s IH]; simpl; [reflexivity|]. rewrite IH. apply orb_assoc.
Qed.

Lemma stripLastExtension_app (s e : string) :
  hasDot e = false -> e <> EmptyString ->
  stripLastExtension (s +:+ String "."%char e) = s.
Proof.
  intros Hdot He. induction s as [|c s IH]; simpl.
  - rewrite Hdot. destruct e; [congruence|reflexivity].
  - rewrite IH, hasDot_app. simpl. rewrite orb_true_r, andb_false_r. reflexivity.
Qed.

Lemma replaceSeparators_clean (s : string) (c : ascii) :
  In c (list_ascii_of_string (replaceSeparators s)) -> c <> "/"%char /\ c <> "\"%char.
Proof.
  induction s as [|d s IH]; simpl; [tauto|].
  intros [<-|H]; [|apply IH, H].
  destruct (Ascii.eqb_spec d "/") as [->|H1]; simpl; [split; discriminate|].
  destruct (Ascii.eqb_spec d "\") as [->|H2]; simpl; [split; discriminate|].
  split; assumption.
Qed.

Lemma stripLastExtension_sub (s : string) (c : ascii) :
  In c (list_ascii_of_string (stripLastExtension s)) -> In c (list_ascii_of_string s).
Proof.
  induction s as [|d s IH]; simpl; [tauto|].
  destruct (_ && _ && _)%bool; simpl; [tauto|]. intros [H|H]; [left; exact H|right; apply IH, H].
Qed.

(** X18. The id of a source file is its relative path without the
    extension, with every separator replaced by an underscore: the five
    extensions give the same id, and no id holds a separator. *)
Theorem generateComponentId_extension (base ext : string) :
  In ext [".tsx"; ".ts"; ".jsx"; ".js"; ".vue"] ->
  generateComponentId (base +:+ ext) = replaceSeparators base
  /\ forall c, In c (list_ascii_of_string (generateComponentId (base +:+ ext))) ->
               c <> "/"%char /\ c <> "\"%char.
Proof.
  intros Hin. split.
  - unfold generateComponentId. rewrite replaceSeparators_app.
    simpl in Hin. destruct Hin as [<-|[<-|[<-|[<-|[<-|[]]]]]];
      apply stripLastExtension_app; (reflexivity || discriminate).
  - intros c Hc. unfold generateComponentId in Hc.
    apply stripLastExtension_sub, replaceSeparators_clean in Hc. exact Hc.
Qed.

Lemma generateComponentId_extension_witness :
  generateComponentId ("src/components/SubmitButton" +:+ ".tsx")
  = replaceSeparators "src/components/SubmitButton".
Proof.
  apply (proj1 (generateComponentId_extension "src/components/SubmitButton" ".tsx"
                  (or_introl eq_refl))).
Defined.

Lemma toLowerCase_empty (s : string) : JsString.toLowerCase s = EmptyString -> s = EmptyString.
Proof. destruct s; [reflexivity|discriminate]. Qed.

(** X19. A route starts with a slash and is in lower case.  Two page
    names get the same route exactly when they agree up to case, or
    when each of them is [index], [home] or the empty name up to case:
    these get the root. *)
Theorem generateRouteFromFileName_same (a b : string) :
  String.prefix "/" (generateRouteFromFileName a) = true
  /\ JsString.toLowerCase (generateRouteFromFileName a) = generateRouteFromFileName a
  /\ (generateRouteFromFileName a = generateRouteFromFileName b
      <-> JsString.toLowerCase a = JsString.toLowerCase b
          \/ (In (JsString.toLowerCase a) ["index"; "home"; EmptyString]
              /\ In (JsString.toLowerCase b) ["index"; "home"; EmptyString])).
Proof.
  unfold generateRouteFromFileName.
  split; [|split].
  - destruct (_ || _)%bool; [reflexivity|].
    change ("/" +:+ JsString.toLowerCase a) with (String "/"%char (JsString.toLowerCase a)).
    simpl. destruct (JsString.toLowerCase a); reflexivity.
  - destruct (_ || _)%bool; [reflexivity|].
    change ("/" +:+ JsString.toLowerCase a) with (String "/"%char (JsString.toLowerCase a)).
    simpl. rewrite toLowerCase_idem. reflexivity.
  - change ("/" +:+ JsString.toLowerCase a) with (String "/"%char (JsString.toLowerCase a)).
    change ("/" +:+ JsString.toLowerCase b) with (String "/"%char (JsString.toLowerCase b)).
    destruct (String.eqb_spec (JsString.toLowerCase a) "index") as [Ea|Ea];
      destruct (String.eqb_spec (JsString.toLowerCase a) "home") as [Ea'|Ea'];
      destruct (String.eqb_spec (JsString.toLowerCase b) "index") as [Eb|Eb];
      destruct (String.eqb_spec (JsString.toLowerCase b) "home") as [Eb'|Eb'];
      simpl orb; cbv iota;
      try (split; [intros _; right; rewrite ?Ea, ?Ea', ?Eb, ?Eb'; simpl; tauto
                  |reflexivity]).
    all: split.
    all: try (intros H; injection H as H).
    all: try (right; rewrite ?Ea, ?Ea', ?Eb, ?Eb'; split; simpl; try tauto;
              right; right; left; congruence).
    all: try (left; congruence).
    all: try (intros [H|[H1 H2]];
              [rewrite ?Ea, ?Ea', ?Eb, ?Eb' in H; try congruence
              |simpl in H1, H2;
               repeat match goal with
               | H : _ \/ _ |- _ => destruct H
               | H : False |- _ => destruct H
               end; try congruence]).
Qed.

Lemma generateTags_includes (sourceCode : string) :
  Array_includes (generateTags sourceCode) "stateful"
  = JsString.includes sourceCode "useState"
  /\ Array_includes (generateTags sourceCode) "side-effects"
     = JsString.includes sourceCode "useEffect"
  /\ Array_includes (generateTags sourceCode) "container"
     = JsString.includes sourceCode "props.children"
  /\ Array_includes (generateTags sourceCode) "interactive"
     = (JsString.includes sourceCode "onClick" || JsString.includes sourceCode "onPress")%bool
  /\ Array_includes (generateTags sourceCode) "styled"
     = (JsString.includes sourceCode "styled" || JsString.includes sourceCode "className")%bool.
Proof.
  unfold generateTags. cbv zeta.
  destruct (JsString.includes sourceCode "useState");
    destruct (JsString.includes sourceCode "useEffect");
    destruct (JsString.includes sourceCode "props.children");
    destruct (JsString.includes sourceCode "onClick" || JsString.includes sourceCode "onPress")%bool;
    destruct (JsString.includes sourceCode "styled" || JsString.includes sourceCode "className")%bool;
    repeat split; reflexivity.
Qed.

(** X20. The tags of a source text are the labels whose keywords it
    contains: stateful for [useState], side-effects for [useEffect],
    container for [props.children], interactive for [onClick] or
    [onPress], styled for [styled] or [className]; they come in this
    order, each at most once, and there is no other tag. *)
Theorem generateTags_labels (sourceCode : string) :
  generateTags sourceCode
  = List.filter (fun label => Array_includes (generateTags sourceCode) label)
                ["stateful"; "side-effects"; "container"; "interactive"; "styled"]
  /\ List.NoDup (generateTags sourceCode)
  /\ (In "stateful" (generateTags sourceCode)
      <-> JsString.includes sourceCode "useState" = true)
  /\ (In "side-effects" (generateTags sourceCode)
      <-> JsString.includes sourceCode "useEffect" = true)
  /\ (In "container" (generateTags sourceCode)
      <-> JsString.includes sourceCode "props.children" = true)
  /\ (In "interactive" (generateTags sourceCode)
      <-> JsString.includes sourceCode "onClick" = true
          \/ JsString.includes sourceCode "onPress" = true)
  /\ (In "styled" (generateTags sourceCode)
      <-> JsString.includes sourceCode "styled" = true
          \/ JsString.includes sourceCode "className" = true).
Proof.
  assert (generateTags sourceCode
          = List.filter (fun label => Array_includes (generateTags sourceCode) label)
                        ["stateful"; "side-effects"; "container"; "interactive"; "styled"])
    as H.
  { unfold generateTags. cbv zeta.
    destruct (JsString.includes sourceCode "useState");
      destruct (JsString.includes sourceCode "useEffect");
      destruct (JsString.includes sourceCode "props.children");
      destruct (JsString.includes sourceCode "onClick" || JsString.includes sourceCode "onPress")%bool;
      destruct (JsString.includes sourceCode "styled" || JsString.includes sourceCode "className")%bool;
      reflexivity. }
  split; [exact H|]. split.
  { rewrite H. apply List.NoDup_filter.
    repeat constructor; simpl; intuition discriminate. }
  destruct (generateTags_includes sourceCode) as (H1 & H2 & H3 & H4 & H5).
  rewrite <- !Array_includes_In, H1, H2, H3, H4, H5, !orb_true_iff. tauto.
Qed.

Lemma generateTags_sideEffects (sourceCode : string) :
  Array_includes (generateTags sourceCode) "side-effects"
  = JsString.includes sourceCode "useEffect".
Proof.
  unfold generateTags. cbv zeta.
  destruct (JsString.includes sourceCode "useState");
    destruct (JsString.includes sourceCode "useEffect");
    destruct (JsString.includes sourceCode "props.children");
    destruct (JsString.includes sourceCode "onClick" || JsString.includes sourceCode "onPress")%bool;
    destruct (JsString.includes sourceCode "styled" || JsString.includes sourceCode "className")%bool;
    reflexivity.
Qed.

(** X21. A component as the indexer builds it answers the side-effects
    filter of a search by its source: the query that asks for side
    effects, or for none, credits it 2 exactly when this agrees with
    the presence of [useEffect] in the source, and leaves it at 0
    otherwise. *)
Theorem indexed_component_sideEffects
    (id name filePath sourceCode : string) (props : list PropDefinition.t)
    (imports : list string) (description : string) (mtime : Date) (wanted : bool) :
  IndexSearchEngine.calculateRelevanceScore
    (newComponent id name filePath sourceCode props imports description mtime)
    (SearchQuery.mk None None None None None (Some wanted) None)
  = if Bool.eqb wanted (JsString.includes sourceCode "useEffect") then 2 else 0.
Proof.
  rewrite calculateRelevanceScore_sum.
  unfold IndexSearchEngine.textSearch, IndexSearchEngine.tagMatching,
    IndexSearchEngine.componentTypeFiltering, IndexSearchEngine.propsFiltering,
    IndexSearchEngine.sideEffectsFiltering, IndexSearchEngine.usageFiltering.
  simpl. rewrite generateTags_sideEffects.
  destruct (Bool.eqb _ _); reflexivity.
Qed.

Lemma Set_add_fold (l acc : list string) :
  List.NoDup acc ->
  List.NoDup (fold_left Set_add l acc)
  /\ forall w, In w (fold_left Set_add l acc) <-> In w acc \/ In w l.
Proof.
  revert acc; induction l as [|x l IH]; intros acc Hnd; simpl; [split; [exact Hnd|tauto]|].
  assert (List.NoDup (Set_add acc x)) as Hnd'.
  { unfold Set_add. destruct (Array_includes acc x) eqn:E; [exact Hnd|].
    apply NoDup_ListNoDup, NoDup_app. split; [apply NoDup_ListNoDup, Hnd|]. split.
    - intros y Hy Hy'. apply list_elem_of_In in Hy, Hy'. destruct Hy' as [<-|[]].
      apply Array_includes_In in Hy. congruence.
    - apply NoDup_singleton. }
  destruct (IH _ Hnd') as [H1 H2]. split; [exact H1|].
  intros w. rewrite H2. unfold Set_add.
  destruct (Array_includes acc x) eqn:E.
  - apply Array_includes_In in E. split; [tauto|]. intros [H|[<-|H]]; tauto.
  - rewrite in_app_iff. simpl. tauto.
Qed.

Lemma is_upper_word (c : ascii) : JsString.is_upper c = true -> JsString.is_word c = true.
Proof. unfold JsString.is_upper, JsString.is_word. cbv zeta. intros ->. reflexivity. Qed.

Lemma takeWord_word (s : string) :
  forallb JsString.is_word (list_ascii_of_string (takeWord s)) = true.
Proof.
  induction s as [|c s IH]; simpl; [reflexivity|].
  destruct (JsString.is_word c) eqn:E; simpl; [rewrite E; exact IH|reflexivity].
Qed.

Lemma componentUsages_names (s : string) (w : string) :
  In w (componentUsages s) ->
  exists c rest,
    w = String c rest /\ JsString.is_upper c = true
    /\ forallb JsString.is_word (list_ascii_of_string w) = true.
Proof.
  induction s as [|c s IH]; simpl; [tauto|].
  intros H. apply in_app_or in H as [H|H]; [|apply IH, H].
  destruct (Ascii.eqb c "<"); [|destruct H].
  destruct s as [|d s']; [destruct H|].
  destruct (JsString.is_upper d) eqn:E; [|destruct H].
  destruct H as [<-|[]].
  exists d, (takeWord s'). split; [|split; [exact E|apply takeWord_word]].
  simpl. rewrite (is_upper_word d E). reflexivity.
Qed.

(** X22. The components a page uses are the names found after an
    opening angle bracket in its source, each listed once: every name
    starts with an upper-case letter and consists of word characters. *)
Theorem extractUsedComponents_names (sourceCode : string) :
  List.NoDup (extractUsedComponents sourceCode)
  /\ (forall w, In w (extractUsedComponents sourceCode) <-> In w (componentUsages sourceCode))
  /\ Forall (fun w => exists c rest,
                        w = String c rest /\ JsString.is_upper c = true
                        /\ forallb JsString.is_word (list_ascii_of_string w) = true)
            (extractUsedComponents sourceCode).
Proof.
  unfold extractUsedComponents.
  destruct (Set_add_fold (componentUsages sourceCode) [] (List.NoDup_nil _)) as [H1 H2].
  split; [exact H1|]. split.
  - intros w. rewrite H2. simpl. tauto.
  - apply List.Forall_forall. intros w Hw. apply H2 in Hw as [[]|Hw].
    apply (componentUsages_names _ _ Hw).
Qed.

(** X23. The device type and the device name of a width agree: the name
    is [Mobile] for the type mobile, one of the two tablet names for
    the type tablet and [Desktop] for the type desktop; and a greater
    width never gives a smaller device. *)
Theorem getDeviceType_name (width width' : Z) :
  match UIContextTool.getDeviceType width with
  | UIContextTool.mobile => UIContextTool.getDeviceName width = "Mobile"
  | UIContextTool.tablet =>
      UIContextTool.getDeviceName width = "Tablet (Portrait)"
      \/ UIContextTool.getDeviceName width = "Tablet (Landscape)"
  | UIContextTool.desktop => UIContextTool.getDeviceName width = "Desktop"
  end
  /\ (width <= width' ->
      UIContextTool.getDeviceType width' = UIContextTool.mobile ->
      UIContextTool.getDeviceType width = UIContextTool.mobile)
  /\ (width <= width' ->
      UIContextTool.getDeviceType width = UIContextTool.desktop ->
      UIContextTool.getDeviceType width' = UIContextTool.desktop).
Proof.
  unfold UIContextTool.getDeviceType, UIContextTool.getDeviceName.
  destruct (Z.leb_spec width 480); destruct (Z.leb_spec width 768);
    destruct (Z.leb_spec width 1024); try lia;
    destruct (Z.leb_spec width' 480); destruct (Z.leb_spec width' 1024); try lia;
    repeat split; auto; try discriminate; intros; lia.
Qed.

(** X24. A manifest without a [dependencies] section is never taken for
    an Angular project, whatever it lists elsewhere: it gives react,
    vue, or the framework that was set before. *)
Theorem analyzeProjectStructure_angular
    (fs : FileSystem) (projectPath : string) (framework : Framework) (doc : json) :
  fs !! (projectPath +:+ "/package.json") = Some (JsonText doc) ->
  member (JSON.parse doc) "dependencies" = VUndefined ->
  In (analyzeProjectStructure fs projectPath framework) [react; vue; framework].
Proof.
  intros Hfile Hdeps. unfold analyzeProjectStructure. rewrite Hfile. cbv zeta.
  rewrite Hdeps. simpl.
  destruct (Value.truthy _); [tauto|].
  destruct (Value.truthy _); tauto.
Qed.

Lemma analyzeProjectStructure_angular_witness :
  In (analyzeProjectStructure
        {[ "/work/app/package.json" :=
             JsonText (JObj [("devDependencies", JObj [("@angular/core", JStr "^17.0.0")])]) ]}
        "/work/app" unknown)
     [react; vue; unknown].
Proof.
  apply (analyzeProjectStructure_angular _ "/work/app" unknown
           (JObj [("devDependencies", JObj [("@angular/core", JStr "^17.0.0")])]));
    reflexivity.
Defined.


End IndexerFacts.

(** ** Scores of similar components, confidence of a match *)

Section SimilarRange.
Import IndexSearchEngine.

Lemma findSimilarComponents_member index componentId type limit results r :
  findSimilarComponents index componentId type limit = Some results ->
  In r results ->
  exists target,
    In target (ProjectIndex.components index)
    /\ calculateSimilarityScore target (SimilarityResult.component r) type
       = Some (SimilarityResult.similarityScore r)
    /\ (1 # 10 < SimilarityResult.similarityScore r)%Q.
Proof.
  rewrite findSimilarComponents_unfold.
  destruct (List.find _ _) as [target|] eqn:F; intros E Hr; injection E as <-;
    [|destruct Hr].
  apply Array_slice_sublist in Hr.
  apply (Permutation_in _ (Permutation_sym
           (Array_sortQ_perm SimilarityResult.similarityScore _))) in Hr.
  unfold similarTo in Hr. apply in_map_iff in Hr as (c & <- & Hc).
  apply filter_In in Hc as [_ Hc]. apply andb_true_iff in Hc as [_ Hs].
  apply Qltb_lt in Hs. simpl.
  exists target. split; [apply (find_some _ _ F)|].
  destruct (calculateSimilarityScore_total target c type) as [s Es].
  rewrite Es in *. simpl in *. auto.
Qed.

(** X7. In the semantic and the visual mode, and in the usage mode for
    an index whose components list each context once, the similarity
    of every result of [findSimilarComponents] is above 0.1 and at
    most 1. *)
Theorem findSimilarComponents_range
    (index : ProjectIndex.t) (componentId : string) (type : SimilarityType) (limit : Z) :
  type <> usage
  \/ Forall (fun c => List.NoDup (ComponentIndex.usedIn c)) (ProjectIndex.components index) ->
  exists results,
    findSimilarComponents index componentId type limit = Some results
    /\ Forall (fun r => (1 # 10 < SimilarityResult.similarityScore r
                         /\ SimilarityResult.similarityScore r <= 1)%Q)
              results.
Proof.
  intros Hmode.
  destruct (findSimilarComponents index componentId type limit) as [results|] eqn:E.
  - exists results. split; [reflexivity|]. apply List.Forall_forall. intros r Hr.
    destruct (findSimilarComponents_member _ _ _ _ _ r E Hr) as (target & Hin & Hs & Hlow).
    split; [exact Hlow|].
    destruct (similarity_range target (SimilarityResult.component r) type) as (q & Hq & _ & Hle).
    + destruct Hmode as [H|H]; [left; exact H|right].
      apply (proj1 (List.Forall_forall _ _) H target Hin).
    + rewrite Hs in Hq. injection Hq as <-. exact Hle.
  - rewrite findSimilarComponents_unfold in E. destruct (List.find _ _); discriminate.
Qed.

Lemma findSimilarComponents_range_witness :
  exists r,
    findSimilarComponents Sample.listed "components_SubmitButton" usage 5 = Some [r]
    /\ SimilarityResult.component r = Sample.listedOnce
    /\ (1 # 10 < SimilarityResult.similarityScore r
        /\ SimilarityResult.similarityScore r <= 1)%Q.
Proof.
  destruct (findSimilarComponents_range Sample.listed "components_SubmitButton" usage 5)
    as (results & E & H).
  - right. repeat constructor; simpl; intuition discriminate.
  - destruct results as [|r [|r' rest]]; try (vm_compute in E; discriminate E).
    exists r. split; [exact E|]. split; [|exact (Forall_inv H)].
    vm_compute in E. injection E as <-. reflexivity.
Defined.

End SimilarRange.

Section ConfidenceFacts.
Import VisualCodeCorrelator.

Lemma textQuery_score (c : ComponentIndex.t) (s : string) :
  0 < IndexSearchEngine.calculateRelevanceScore c (textQuery s) ->
  2 <= IndexSearchEngine.calculateRelevanceScore c (textQuery s).
Proof.
  rewrite calculateRelevanceScore_sum.
  unfold IndexSearchEngine.textSearch, IndexSearchEngine.tagMatching,
    IndexSearchEngine.componentTypeFiltering, IndexSearchEngine.propsFiltering,
    IndexSearchEngine.sideEffectsFiltering, IndexSearchEngine.usageFiltering, textQuery.
  simpl. destruct (JsString.truthy s); [|lia]. cbv zeta.
  rewrite !fold_left_bump.
  repeat match goal with |- context [if ?b then _ else _] => destruct b end; lia.
Qed.

Lemma top_score index query top rest :
  IndexSearchEngine.searchComponents index query = top :: rest ->
  SearchResult.relevanceScore top
  = IndexSearchEngine.calculateRelevanceScore (SearchResult.component top) query.
Proof.
  intros H. pose proof (searchComponents_positive index query) as HF.
  rewrite H in HF. apply Forall_cons in HF as [[Hs _] _]. exact Hs.
Qed.

Lemma Qmin_floor (s : Z) (k cap floor : Q) :
  (0 < k)%Q -> (floor * k <= inject_Z s)%Q -> (floor <= cap)%Q ->
  (floor <= Qmin (inject_Z s / k) cap)%Q.
Proof.
  intros Hk Hs Hcap. apply Q.min_glb; [|exact Hcap].
  apply Qle_shift_div_l; assumption.
Qed.

Lemma searchByText_confident index el st : confident st -> confident (searchByText index el st).
Proof.
  intros Hst. unfold searchByText.
  destruct (_ && _)%bool; [|exact Hst]. cbv zeta.
  destruct (IndexSearchEngine.searchComponents index _) as [|top rest] eqn:E; [exact Hst|].
  unfold confident. simpl.
  pose proof (top_positive _ _ _ _ E) as Hpos.
  rewrite (top_score _ _ _ _ E) in Hpos |- *.
  apply (textQuery_score _ (VisualElement.text el)) in Hpos.
  apply Qmin_floor; [reflexivity| |discriminate].
  assert ((1 # 10) * 20 <= inject_Z 2)%Q as H by discriminate.
  eapply Qle_trans; [exact H|]. rewrite <- Zle_Qle. exact Hpos.
Qed.

Lemma searchByType_confident index el st : confident st -> confident (searchByType index el st).
Proof.
  intros Hst. unfold searchByType.
  destruct (_ || _)%bool; [|exact Hst]. cbv zeta.
  destruct (IndexSearchEngine.searchComponents index _) as [|top rest] eqn:E; [exact Hst|].
  destruct (5 <? SearchResult.relevanceScore top) eqn:E5; [|exact Hst].
  destruct (_ || _)%bool; [|exact Hst].
  apply Z.ltb_lt in E5. unfold confident. simpl.
  apply Qmin_floor; [reflexivity| |discriminate].
  assert ((1 # 10) * 15 <= inject_Z 2)%Q as H by discriminate.
  eapply Qle_trans; [exact H|]. rewrite <- Zle_Qle. lia.
Qed.

Lemma searchByClasses_confident index el st :
  confident st -> confident (searchByClasses index el st).
Proof.
  intros Hst. unfold searchByClasses.
  destruct (_ && _)%bool; [|exact Hst]. cbv zeta.
  revert st Hst.
  induction (List.filter _ _) as [|className l IH]; intros st Hst; simpl; [exact Hst|].
  apply IH.
  destruct (IndexSearchEngine.searchComponents index _) as [|top rest] eqn:E; [exact Hst|].
  destruct (3 <? SearchResult.relevanceScore top) eqn:E3; [|exact Hst].
  destruct (_ || _)%bool; [|exact Hst].
  apply Z.ltb_lt in E3. unfold confident. simpl.
  apply Qmin_floor; [reflexivity| |discriminate].
  assert ((1 # 10) * 12 <= inject_Z 2)%Q as H by discriminate.
  eapply Qle_trans; [exact H|]. rewrite <- Zle_Qle. lia.
Qed.

(** X26. A match that [findComponentMatch] reports has a confidence of
    0.1 at least. *)
Theorem findComponentMatch_confident
    (index : ProjectIndex.t) (el : VisualElement.t) (c : ComponentIndex.t) :
  VisualCodeCorrelation.sourceComponent (findComponentMatch (Some index) el) = Some c ->
  (1 # 10 <= VisualCodeCorrelation.confidence (findComponentMatch (Some index) el))%Q.
Proof.
  unfold findComponentMatch. cbv zeta. simpl.
  assert (confident
            (searchByClasses index el
               (searchByType index el
                  (searchByText index el (mkBest None 0 EmptyString))))) as H
    by (apply searchByClasses_confident, searchByType_confident, searchByText_confident;
        exact I).
  unfold confident in H. intros E. rewrite E in H. exact H.
Qed.

Lemma findComponentMatch_confident_witness :
  (1 # 10 <= VisualCodeCorrelation.confidence
               (findComponentMatch (Some Sample.index) (Sample.element "Send" "btn" 30 30)))%Q.
Proof.
  apply (findComponentMatch_confident Sample.index (Sample.element "Send" "btn" 30 30)
           Sample.submitButton).
  vm_compute. reflexivity.
Defined.

Lemma Qltb_ge (a b : Q) : (b <= a)%Q -> Qltb a b = false.
Proof.
  intros H. unfold Qltb. apply negb_false_iff, Qle_bool_iff, H.
Qed.

(** X27. The text strategy decides alone when its best result scores 12
    or more: the other strategies are not tried, and the correlation
    holds this result with the confidence and the reason of the text
    strategy. *)
Theorem findComponentMatch_text_decides
    (index : ProjectIndex.t) (el : VisualElement.t)
    (top : SearchResult.t) (rest : list SearchResult.t) :
  2 < JsString.length (VisualElement.text el) ->
  IndexSearchEngine.searchComponents index (textQuery (VisualElement.text el)) = top :: rest ->
  12 <= SearchResult.relevanceScore top ->
  let r := findComponentMatch (Some index) el in
  VisualCodeCorrelation.sourceComponent r = Some (SearchResult.component top)
  /\ VisualCodeCorrelation.confidence r
     = Qmin (inject_Z (SearchResult.relevanceScore top) / 20) (8 # 10)
  /\ VisualCodeCorrelation.matchReason r
     = "Matched by text content: " +:+ quote +:+ VisualElement.text el +:+ quote.
Proof.
  intros Hlen Htop Hscore. cbv zeta.
  assert (searchByText index el (mkBest None 0 EmptyString)
          = mkBest (Some (SearchResult.component top))
                   (Qmin (inject_Z (SearchResult.relevanceScore top) / 20) (8 # 10))
                   ("Matched by text content: " +:+ quote
                      +:+ VisualElement.text el +:+ quote)) as Htext.
  { unfold searchByText. fold (textQuery (VisualElement.text el)).
    replace (JsString.truthy (VisualElement.text el)) with true
      by (destruct (VisualElement.text el); [unfold JsString.length in Hlen; simpl in Hlen; lia
                                            |reflexivity]).
    replace (2 <? JsString.length (VisualElement.text el)) with true
      by (symmetry; apply Z.ltb_lt, Hlen).
    simpl andb. cbv iota zeta. rewrite Htop. reflexivity. }
  assert (6 # 10 <= Qmin (inject_Z (SearchResult.relevanceScore top) / 20) (8 # 10))%Q
    as Hconf.
  { apply Qmin_floor; [reflexivity| |discriminate].
    assert ((6 # 10) * 20 <= inject_Z 12)%Q as H by discriminate.
    eapply Qle_trans; [exact H|]. rewrite <- Zle_Qle. exact Hscore. }
  unfold findComponentMatch. cbv zeta. rewrite Htext.
  assert (forall st, bestMatch st = Some (SearchResult.component top) ->
                     (6 # 10 <= confidence st)%Q ->
                     searchByType index el st = st) as Htype.
  { intros st Hb Hc. unfold searchByType. rewrite Hb. simpl.
    rewrite Qltb_ge; [reflexivity|]. eapply Qle_trans; [|exact Hc]. discriminate. }
  assert (forall st, bestMatch st = Some (SearchResult.component top) ->
                     (6 # 10 <= confidence st)%Q ->
                     searchByClasses index el st = st) as Hclasses.
  { intros st Hb Hc. unfold searchByClasses. rewrite Hb. simpl.
    rewrite Qltb_ge; [reflexivity|exact Hc]. }
  rewrite Htype by (simpl; auto). rewrite Hclasses by (simpl; auto).
  simpl. auto.
Qed.

Lemma findComponentMatch_text_decides_witness :
  VisualCodeCorrelation.sourceComponent
    (findComponentMatch (Some Sample.index) (Sample.element "SubmitButton" "btn" 30 30))
  = Some Sample.submitButton.
Proof.
  refine (proj1 (findComponentMatch_text_decides Sample.index
                   (Sample.element "SubmitButton" "btn" 30 30)
                   (SearchResult.mk Sample.submitButton 15
                      (IndexSearchEngine.findMatches Sample.submitButton
                         (textQuery "SubmitButton")))
                   [] _ _ _)).
  - unfold JsString.length. simpl. lia.
  - vm_compute. reflexivity.
  - simpl. lia.
Defined.

End ConfidenceFacts.
